(** * elempleo-scraper: job discovery and field extraction

    A shallow embedding of the scraper scripts of the repository
    (all_scraper.py, scrape.py, elempleo_full_scraper.py,
    combined_scraper.py, elempleo_scraper_simple.py, elempleo_scraper.py)
    and the properties of its discovery and extraction pipeline.

    Conventions of the embedding.
    - A Python [str] is a [string] holding its UTF-8 bytes.  Substring tests
      ([x in s], [startswith]) on UTF-8 bytes agree with the tests on code
      points.  White space, digits and letter case are those of Unicode.
    - A Python [dict] with [str] keys is a [gmap string _].
    - The markup parser and the browser are collaborators: a snapshot is a
      record of the answers they give to the queries the code makes.  A
      browser call that can raise returns an [outcome]. *)

From Stdlib Require Import ZArith Lia Ascii String Sorted.
From stdpp Require Import base option list gmap strings pretty.

Local Open Scope Z_scope.

(** ** Characters

    The classes of characters are those of Unicode 14.0, as CPython 3.11
    has them, each as the ranges of its code points: [str.isspace],
    which [str.strip] and the pattern [\s] follow; [str.isdecimal],
    which the pattern [\d] follows; and [str.isdigit]. *)

Module Unicode.

Definition in_ranges (ranges : list (N * N)) (cp : N) : bool :=
  existsb (λ r, (r.1 <=? cp)%N && (cp <=? r.2)%N) ranges.

Definition space_ranges : list (N * N) :=
  [(9, 13); (28, 32); (133, 133); (160, 160); (5760, 5760); (8192, 8202);
   (8232, 8233); (8239, 8239); (8287, 8287); (12288, 12288)]%N.

Definition decimal_ranges : list (N * N) :=
  [(48, 57); (1632, 1641); (1776, 1785); (1984, 1993); (2406, 2415);
   (2534, 2543); (2662, 2671); (2790, 2799); (2918, 2927); (3046, 3055);
   (3174, 3183); (3302, 3311); (3430, 3439); (3558, 3567); (3664, 3673);
   (3792, 3801); (3872, 3881); (4160, 4169); (4240, 4249); (6112, 6121);
   (6160, 6169); (6470, 6479); (6608, 6617); (6784, 6793); (6800, 6809);
   (6992, 7001); (7088, 7097); (7232, 7241); (7248, 7257); (42528, 42537);
   (43216, 43225); (43264, 43273); (43472, 43481); (43504, 43513);
   (43600, 43609); (44016, 44025); (65296, 65305); (66720, 66729);
   (68912, 68921); (69734, 69743); (69872, 69881); (69942, 69951);
   (70096, 70105); (70384, 70393); (70736, 70745); (70864, 70873);
   (71248, 71257); (71360, 71369); (71472, 71481); (71904, 71913);
   (72016, 72025); (72784, 72793); (73040, 73049); (73120, 73129);
   (92768, 92777); (92864, 92873); (93008, 93017); (120782, 120831);
   (123200, 123209); (123632, 123641); (125264, 125273); (130032, 130041)]%N.

Definition digit_ranges : list (N * N) :=
  [(48, 57); (178, 179); (185, 185); (1632, 1641); (1776, 1785);
   (1984, 1993); (2406, 2415); (2534, 2543); (2662, 2671); (2790, 2799);
   (2918, 2927); (3046, 3055); (3174, 3183); (3302, 3311); (3430, 3439);
   (3558, 3567); (3664, 3673); (3792, 3801); (3872, 3881); (4160, 4169);
   (4240, 4249); (4969, 4977); (6112, 6121); (6160, 6169); (6470, 6479);
   (6608, 6618); (6784, 6793); (6800, 6809); (6992, 7001); (7088, 7097);
   (7232, 7241); (7248, 7257); (8304, 8304); (8308, 8313); (8320, 8329);
   (9312, 9320); (9332, 9340); (9352, 9360); (9450, 9450); (9461, 9469);
   (9471, 9471); (10102, 10110); (10112, 10120); (10122, 10130);
   (42528, 42537); (43216, 43225); (43264, 43273); (43472, 43481);
   (43504, 43513); (43600, 43609); (44016, 44025); (65296, 65305);
   (66720, 66729); (68160, 68163); (68912, 68921); (69216, 69224);
   (69714, 69722); (69734, 69743); (69872, 69881); (69942, 69951);
   (70096, 70105); (70384, 70393); (70736, 70745); (70864, 70873);
   (71248, 71257); (71360, 71369); (71472, 71481); (71904, 71913);
   (72016, 72025); (72784, 72793); (73040, 73049); (73120, 73129);
   (92768, 92777); (92864, 92873); (93008, 93017); (120782, 120831);
   (123200, 123209); (123632, 123641); (125264, 125273); (127232, 127242);
   (130032, 130041)]%N.

Definition isspace (cp : N) : bool := in_ranges space_ranges cp.
Definition isdecimal (cp : N) : bool := in_ranges decimal_ranges cp.
Definition isdigit (cp : N) : bool := in_ranges digit_ranges cp.

(** The characters that [str.lower] sends to one other character, in
    runs [(first, last, step, to)]: the code points [first],
    [first + step], ... up to [last] go to [to], [to + step], ... *)
Definition lower_runs : list (N * N * N * N) :=
  [(65, 90, 1, 97); (192, 214, 1, 224); (216, 222, 1, 248);
   (256, 302, 2, 257); (306, 310, 2, 307); (313, 327, 2, 314);
   (330, 374, 2, 331); (376, 376, 1, 255); (377, 381, 2, 378);
   (385, 385, 1, 595); (386, 388, 2, 387); (390, 390, 1, 596);
   (391, 391, 1, 392); (393, 394, 1, 598); (395, 395, 1, 396);
   (398, 398, 1, 477); (399, 399, 1, 601); (400, 400, 1, 603);
   (401, 401, 1, 402); (403, 403, 1, 608); (404, 404, 1, 611);
   (406, 406, 1, 617); (407, 407, 1, 616); (408, 408, 1, 409);
   (412, 412, 1, 623); (413, 413, 1, 626); (415, 415, 1, 629);
   (416, 420, 2, 417); (422, 422, 1, 640); (423, 423, 1, 424);
   (425, 425, 1, 643); (428, 428, 1, 429); (430, 430, 1, 648);
   (431, 431, 1, 432); (433, 434, 1, 650); (435, 437, 2, 436);
   (439, 439, 1, 658); (440, 440, 1, 441); (444, 444, 1, 445);
   (452, 452, 1, 454); (453, 453, 1, 454); (455, 455, 1, 457);
   (456, 456, 1, 457); (458, 458, 1, 460); (459, 475, 2, 460);
   (478, 494, 2, 479); (497, 497, 1, 499); (498, 500, 2, 499);
   (502, 502, 1, 405); (503, 503, 1, 447); (504, 542, 2, 505);
   (544, 544, 1, 414); (546, 562, 2, 547); (570, 570, 1, 11365);
   (571, 571, 1, 572); (573, 573, 1, 410); (574, 574, 1, 11366);
   (577, 577, 1, 578); (579, 579, 1, 384); (580, 580, 1, 649);
   (581, 581, 1, 652); (582, 590, 2, 583); (880, 882, 2, 881);
   (886, 886, 1, 887); (895, 895, 1, 1011); (902, 902, 1, 940);
   (904, 906, 1, 941); (908, 908, 1, 972); (910, 911, 1, 973);
   (913, 929, 1, 945); (931, 939, 1, 963); (975, 975, 1, 983);
   (984, 1006, 2, 985); (1012, 1012, 1, 952); (1015, 1015, 1, 1016);
   (1017, 1017, 1, 1010); (1018, 1018, 1, 1019); (1021, 1023, 1, 891);
   (1024, 1039, 1, 1104); (1040, 1071, 1, 1072); (1120, 1152, 2, 1121);
   (1162, 1214, 2, 1163); (1216, 1216, 1, 1231); (1217, 1229, 2, 1218);
   (1232, 1326, 2, 1233); (1329, 1366, 1, 1377); (4256, 4293, 1, 11520);
   (4295, 4295, 1, 11559); (4301, 4301, 1, 11565); (5024, 5103, 1, 43888);
   (5104, 5109, 1, 5112); (7312, 7354, 1, 4304); (7357, 7359, 1, 4349);
   (7680, 7828, 2, 7681); (7838, 7838, 1, 223); (7840, 7934, 2, 7841);
   (7944, 7951, 1, 7936); (7960, 7965, 1, 7952); (7976, 7983, 1, 7968);
   (7992, 7999, 1, 7984); (8008, 8013, 1, 8000); (8025, 8031, 2, 8017);
   (8040, 8047, 1, 8032); (8072, 8079, 1, 8064); (8088, 8095, 1, 8080);
   (8104, 8111, 1, 8096); (8120, 8121, 1, 8112); (8122, 8123, 1, 8048);
   (8124, 8124, 1, 8115); (8136, 8139, 1, 8050); (8140, 8140, 1, 8131);
   (8152, 8153, 1, 8144); (8154, 8155, 1, 8054); (8168, 8169, 1, 8160);
   (8170, 8171, 1, 8058); (8172, 8172, 1, 8165); (8184, 8185, 1, 8056);
   (8186, 8187, 1, 8060); (8188, 8188, 1, 8179); (8486, 8486, 1, 969);
   (8490, 8490, 1, 107); (8491, 8491, 1, 229); (8498, 8498, 1, 8526);
   (8544, 8559, 1, 8560); (8579, 8579, 1, 8580); (9398, 9423, 1, 9424);
   (11264, 11311, 1, 11312); (11360, 11360, 1, 11361);
   (11362, 11362, 1, 619); (11363, 11363, 1, 7549); (11364, 11364, 1, 637);
   (11367, 11371, 2, 11368); (11373, 11373, 1, 593); (11374, 11374, 1, 625);
   (11375, 11375, 1, 592); (11376, 11376, 1, 594); (11378, 11378, 1, 11379);
   (11381, 11381, 1, 11382); (11390, 11391, 1, 575);
   (11392, 11490, 2, 11393); (11499, 11501, 2, 11500);
   (11506, 11506, 1, 11507); (42560, 42604, 2, 42561);
   (42624, 42650, 2, 42625); (42786, 42798, 2, 42787);
   (42802, 42862, 2, 42803); (42873, 42875, 2, 42874);
   (42877, 42877, 1, 7545); (42878, 42886, 2, 42879);
   (42891, 42891, 1, 42892); (42893, 42893, 1, 613);
   (42896, 42898, 2, 42897); (42902, 42920, 2, 42903);
   (42922, 42922, 1, 614); (42923, 42923, 1, 604); (42924, 42924, 1, 609);
   (42925, 42925, 1, 620); (42926, 42926, 1, 618); (42928, 42928, 1, 670);
   (42929, 42929, 1, 647); (42930, 42930, 1, 669); (42931, 42931, 1, 43859);
   (42932, 42946, 2, 42933); (42948, 42948, 1, 42900);
   (42949, 42949, 1, 642); (42950, 42950, 1, 7566);
   (42951, 42953, 2, 42952); (42960, 42960, 1, 42961);
   (42966, 42968, 2, 42967); (42997, 42997, 1, 42998);
   (65313, 65338, 1, 65345); (66560, 66599, 1, 66600);
   (66736, 66771, 1, 66776); (66928, 66964, 2, 66967);
   (66929, 66937, 2, 66968); (66941, 66953, 2, 66980);
   (66957, 66961, 2, 66996); (66965, 66965, 1, 67004);
   (68736, 68786, 1, 68800); (71840, 71871, 1, 71872);
   (93760, 93791, 1, 93792); (125184, 125217, 1, 125218)]%N.

Definition in_run (cp : N) (r : N * N * N * N) : bool :=
  let '(first, last, step, _) := r in
  (first <=? cp)%N && (cp <=? last)%N && ((cp - first) mod step =? 0)%N.

Definition lower_one (cp : N) : N :=
  match List.find (in_run cp) lower_runs with
  | Some (first, _, _, to) => (to + (cp - first))%N
  | None => cp
  end.

(** The cased characters and the characters that casing ignores: the
    context of a capital sigma is made of them. *)
Definition cased_ranges : list (N * N) :=
  [(65, 90); (97, 122); (170, 170); (181, 181); (186, 186); (192, 214);
   (216, 246); (248, 442); (444, 447); (452, 659); (661, 696); (704, 705);
   (736, 740); (837, 837); (880, 883); (886, 887); (890, 893); (895, 895);
   (902, 902); (904, 906); (908, 908); (910, 929); (931, 1013);
   (1015, 1153); (1162, 1327); (1329, 1366); (1376, 1416); (4256, 4293);
   (4295, 4295); (4301, 4301); (4304, 4346); (4349, 4351); (5024, 5109);
   (5112, 5117); (7296, 7304); (7312, 7354); (7357, 7359); (7424, 7615);
   (7680, 7957); (7960, 7965); (7968, 8005); (8008, 8013); (8016, 8023);
   (8025, 8025); (8027, 8027); (8029, 8029); (8031, 8061); (8064, 8116);
   (8118, 8124); (8126, 8126); (8130, 8132); (8134, 8140); (8144, 8147);
   (8150, 8155); (8160, 8172); (8178, 8180); (8182, 8188); (8305, 8305);
   (8319, 8319); (8336, 8348); (8450, 8450); (8455, 8455); (8458, 8467);
   (8469, 8469); (8473, 8477); (8484, 8484); (8486, 8486); (8488, 8488);
   (8490, 8493); (8495, 8500); (8505, 8505); (8508, 8511); (8517, 8521);
   (8526, 8526); (8544, 8575); (8579, 8580); (9398, 9449); (11264, 11492);
   (11499, 11502); (11506, 11507); (11520, 11557); (11559, 11559);
   (11565, 11565); (42560, 42605); (42624, 42653); (42786, 42887);
   (42891, 42894); (42896, 42954); (42960, 42961); (42963, 42963);
   (42965, 42969); (42997, 42998); (43000, 43002); (43824, 43866);
   (43868, 43880); (43888, 43967); (64256, 64262); (64275, 64279);
   (65313, 65338); (65345, 65370); (66560, 66639); (66736, 66771);
   (66776, 66811); (66928, 66938); (66940, 66954); (66956, 66962);
   (66964, 66965); (66967, 66977); (66979, 66993); (66995, 67001);
   (67003, 67004); (67456, 67456); (67459, 67461); (67463, 67504);
   (67506, 67514); (68736, 68786); (68800, 68850); (71840, 71903);
   (93760, 93823); (119808, 119892); (119894, 119964); (119966, 119967);
   (119970, 119970); (119973, 119974); (119977, 119980); (119982, 119993);
   (119995, 119995); (119997, 120003); (120005, 120069); (120071, 120074);
   (120077, 120084); (120086, 120092); (120094, 120121); (120123, 120126);
   (120128, 120132); (120134, 120134); (120138, 120144); (120146, 120485);
   (120488, 120512); (120514, 120538); (120540, 120570); (120572, 120596);
   (120598, 120628); (120630, 120654); (120656, 120686); (120688, 120712);
   (120714, 120744); (120746, 120770); (120772, 120779); (122624, 122633);
   (122635, 122654); (125184, 125251); (127280, 127305); (127312, 127337);
   (127344, 127369)]%N.

Definition case_ignorable_ranges : list (N * N) :=
  [(39, 39); (46, 46); (58, 58); (94, 94); (96, 96); (168, 168); (173, 173);
   (175, 175); (180, 180); (183, 184); (688, 879); (884, 885); (890, 890);
   (900, 901); (903, 903); (1155, 1161); (1369, 1369); (1375, 1375);
   (1425, 1469); (1471, 1471); (1473, 1474); (1476, 1477); (1479, 1479);
   (1524, 1524); (1536, 1541); (1552, 1562); (1564, 1564); (1600, 1600);
   (1611, 1631); (1648, 1648); (1750, 1757); (1759, 1768); (1770, 1773);
   (1807, 1807); (1809, 1809); (1840, 1866); (1958, 1968); (2027, 2037);
   (2042, 2042); (2045, 2045); (2070, 2093); (2137, 2139); (2184, 2184);
   (2192, 2193); (2200, 2207); (2249, 2306); (2362, 2362); (2364, 2364);
   (2369, 2376); (2381, 2381); (2385, 2391); (2402, 2403); (2417, 2417);
   (2433, 2433); (2492, 2492); (2497, 2500); (2509, 2509); (2530, 2531);
   (2558, 2558); (2561, 2562); (2620, 2620); (2625, 2626); (2631, 2632);
   (2635, 2637); (2641, 2641); (2672, 2673); (2677, 2677); (2689, 2690);
   (2748, 2748); (2753, 2757); (2759, 2760); (2765, 2765); (2786, 2787);
   (2810, 2815); (2817, 2817); (2876, 2876); (2879, 2879); (2881, 2884);
   (2893, 2893); (2901, 2902); (2914, 2915); (2946, 2946); (3008, 3008);
   (3021, 3021); (3072, 3072); (3076, 3076); (3132, 3132); (3134, 3136);
   (3142, 3144); (3146, 3149); (3157, 3158); (3170, 3171); (3201, 3201);
   (3260, 3260); (3263, 3263); (3270, 3270); (3276, 3277); (3298, 3299);
   (3328, 3329); (3387, 3388); (3393, 3396); (3405, 3405); (3426, 3427);
   (3457, 3457); (3530, 3530); (3538, 3540); (3542, 3542); (3633, 3633);
   (3636, 3642); (3654, 3662); (3761, 3761); (3764, 3772); (3782, 3782);
   (3784, 3789); (3864, 3865); (3893, 3893); (3895, 3895); (3897, 3897);
   (3953, 3966); (3968, 3972); (3974, 3975); (3981, 3991); (3993, 4028);
   (4038, 4038); (4141, 4144); (4146, 4151); (4153, 4154); (4157, 4158);
   (4184, 4185); (4190, 4192); (4209, 4212); (4226, 4226); (4229, 4230);
   (4237, 4237); (4253, 4253); (4348, 4348); (4957, 4959); (5906, 5908);
   (5938, 5939); (5970, 5971); (6002, 6003); (6068, 6069); (6071, 6077);
   (6086, 6086); (6089, 6099); (6103, 6103); (6109, 6109); (6155, 6159);
   (6211, 6211); (6277, 6278); (6313, 6313); (6432, 6434); (6439, 6440);
   (6450, 6450); (6457, 6459); (6679, 6680); (6683, 6683); (6742, 6742);
   (6744, 6750); (6752, 6752); (6754, 6754); (6757, 6764); (6771, 6780);
   (6783, 6783); (6823, 6823); (6832, 6862); (6912, 6915); (6964, 6964);
   (6966, 6970); (6972, 6972); (6978, 6978); (7019, 7027); (7040, 7041);
   (7074, 7077); (7080, 7081); (7083, 7085); (7142, 7142); (7144, 7145);
   (7149, 7149); (7151, 7153); (7212, 7219); (7222, 7223); (7288, 7293);
   (7376, 7378); (7380, 7392); (7394, 7400); (7405, 7405); (7412, 7412);
   (7416, 7417); (7468, 7530); (7544, 7544); (7579, 7679); (8125, 8125);
   (8127, 8129); (8141, 8143); (8157, 8159); (8173, 8175); (8189, 8190);
   (8203, 8207); (8216, 8217); (8228, 8228); (8231, 8231); (8234, 8238);
   (8288, 8292); (8294, 8303); (8305, 8305); (8319, 8319); (8336, 8348);
   (8400, 8432); (11388, 11389); (11503, 11505); (11631, 11631);
   (11647, 11647); (11744, 11775); (11823, 11823); (12293, 12293);
   (12330, 12333); (12337, 12341); (12347, 12347); (12441, 12446);
   (12540, 12542); (40981, 40981); (42232, 42237); (42508, 42508);
   (42607, 42610); (42612, 42621); (42623, 42623); (42652, 42655);
   (42736, 42737); (42752, 42785); (42864, 42864); (42888, 42890);
   (42994, 42996); (43000, 43001); (43010, 43010); (43014, 43014);
   (43019, 43019); (43045, 43046); (43052, 43052); (43204, 43205);
   (43232, 43249); (43263, 43263); (43302, 43309); (43335, 43345);
   (43392, 43394); (43443, 43443); (43446, 43449); (43452, 43453);
   (43471, 43471); (43493, 43494); (43561, 43566); (43569, 43570);
   (43573, 43574); (43587, 43587); (43596, 43596); (43632, 43632);
   (43644, 43644); (43696, 43696); (43698, 43700); (43703, 43704);
   (43710, 43711); (43713, 43713); (43741, 43741); (43756, 43757);
   (43763, 43764); (43766, 43766); (43867, 43871); (43881, 43883);
   (44005, 44005); (44008, 44008); (44013, 44013); (64286, 64286);
   (64434, 64450); (65024, 65039); (65043, 65043); (65056, 65071);
   (65106, 65106); (65109, 65109); (65279, 65279); (65287, 65287);
   (65294, 65294); (65306, 65306); (65342, 65342); (65344, 65344);
   (65392, 65392); (65438, 65439); (65507, 65507); (65529, 65531);
   (66045, 66045); (66272, 66272); (66422, 66426); (67456, 67461);
   (67463, 67504); (67506, 67514); (68097, 68099); (68101, 68102);
   (68108, 68111); (68152, 68154); (68159, 68159); (68325, 68326);
   (68900, 68903); (69291, 69292); (69446, 69456); (69506, 69509);
   (69633, 69633); (69688, 69702); (69744, 69744); (69747, 69748);
   (69759, 69761); (69811, 69814); (69817, 69818); (69821, 69821);
   (69826, 69826); (69837, 69837); (69888, 69890); (69927, 69931);
   (69933, 69940); (70003, 70003); (70016, 70017); (70070, 70078);
   (70089, 70092); (70095, 70095); (70191, 70193); (70196, 70196);
   (70198, 70199); (70206, 70206); (70367, 70367); (70371, 70378);
   (70400, 70401); (70459, 70460); (70464, 70464); (70502, 70508);
   (70512, 70516); (70712, 70719); (70722, 70724); (70726, 70726);
   (70750, 70750); (70835, 70840); (70842, 70842); (70847, 70848);
   (70850, 70851); (71090, 71093); (71100, 71101); (71103, 71104);
   (71132, 71133); (71219, 71226); (71229, 71229); (71231, 71232);
   (71339, 71339); (71341, 71341); (71344, 71349); (71351, 71351);
   (71453, 71455); (71458, 71461); (71463, 71467); (71727, 71735);
   (71737, 71738); (71995, 71996); (71998, 71998); (72003, 72003);
   (72148, 72151); (72154, 72155); (72160, 72160); (72193, 72202);
   (72243, 72248); (72251, 72254); (72263, 72263); (72273, 72278);
   (72281, 72283); (72330, 72342); (72344, 72345); (72752, 72758);
   (72760, 72765); (72767, 72767); (72850, 72871); (72874, 72880);
   (72882, 72883); (72885, 72886); (73009, 73014); (73018, 73018);
   (73020, 73021); (73023, 73029); (73031, 73031); (73104, 73105);
   (73109, 73109); (73111, 73111); (73459, 73460); (78896, 78904);
   (92912, 92916); (92976, 92982); (92992, 92995); (94031, 94031);
   (94095, 94111); (94176, 94177); (94179, 94180); (110576, 110579);
   (110581, 110587); (110589, 110590); (113821, 113822); (113824, 113827);
   (118528, 118573); (118576, 118598); (119143, 119145); (119155, 119170);
   (119173, 119179); (119210, 119213); (119362, 119364); (121344, 121398);
   (121403, 121452); (121461, 121461); (121476, 121476); (121499, 121503);
   (121505, 121519); (122880, 122886); (122888, 122904); (122907, 122913);
   (122915, 122916); (122918, 122922); (123184, 123197); (123566, 123566);
   (123628, 123631); (125136, 125142); (125252, 125259); (127995, 127999);
   (917505, 917505); (917536, 917631); (917760, 917999)]%N.

Definition cased (cp : N) : bool := in_ranges cased_ranges cp.
Definition case_ignorable (cp : N) : bool := in_ranges case_ignorable_ranges cp.

End Unicode.

(** ** Text *)

Module Text.

(** A Python [str] is false when empty. *)
Definition nonempty (s : string) : bool :=
  match s with EmptyString => false | _ => true end.

(** A byte that continues a character. *)
Definition continues (c : ascii) : bool :=
  let n := nat_of_ascii c in (128 <=? n)%nat && (n <? 192)%nat.

(** The characters of a text, each as its bytes; [cur] is the
    character being read, reversed. *)
Fixpoint chars_go (cur : string) (s : string) : list string :=
  match s with
  | EmptyString => if nonempty cur then [String.rev cur] else []
  | String c s' =>
      if continues c then chars_go (String c cur) s'
      else if nonempty cur then String.rev cur :: chars_go (String c "") s'
      else chars_go (String c "") s'
  end.

Definition chars (s : string) : list string := chars_go "" s.

(** [''.join(chs)] *)
Definition of_chars (chs : list string) : string := String.concat "" chs.

(** [ord(ch)] *)
Definition ord (ch : string) : N :=
  match ch with
  | EmptyString => 0%N
  | String c rest =>
      let b := N_of_ascii c in
      let lead := (if b <? 128 then b
                   else if b <? 224 then b - 192
                   else if b <? 240 then b - 224
                   else b - 240)%N in
      fold_left (λ acc d, acc * 64 + (N_of_ascii d - 128))%N
                (list_ascii_of_string rest) lead
  end.

(** [ch.isspace()], and the pattern [\s] *)
Definition is_space (ch : string) : bool := Unicode.isspace (ord ch).

(** The pattern [\d] *)
Definition is_decimal (ch : string) : bool := Unicode.isdecimal (ord ch).

(** [ch.isdigit()] *)
Definition is_digit (ch : string) : bool := Unicode.isdigit (ord ch).

(** [any(ch.isdigit() for ch in s)] *)
Definition any_digit (s : string) : bool := existsb is_digit (chars s).

(** [chr(cp)] *)
Definition chr (cp : N) : string :=
  let byte (n : N) := ascii_of_N n in
  let next (n : N) := byte (128 + n mod 64)%N in
  if (cp <? 128)%N then String (byte cp) ""
  else if (cp <? 2048)%N then String (byte (192 + cp / 64)%N) (String (next cp) "")
  else if (cp <? 65536)%N then
    String (byte (224 + cp / 4096)%N)
           (String (next (cp / 64)%N) (String (next cp) ""))
  else
    String (byte (240 + cp / 262144)%N)
           (String (next (cp / 4096)%N)
                   (String (next (cp / 64)%N) (String (next cp) ""))).

Fixpoint first_not_ignorable (cps : list N) : option N :=
  match cps with
  | [] => None
  | cp :: rest =>
      if Unicode.case_ignorable cp then first_not_ignorable rest else Some cp
  end.

(** A capital sigma is final when the nearest character before it that
    casing does not ignore is cased, and the nearest one after it is
    not; [before] is read backwards. *)
Definition final_sigma (before after : list N) : bool :=
  match first_not_ignorable before with
  | Some c =>
      Unicode.cased c &&
      match first_not_ignorable after with
      | Some c' => negb (Unicode.cased c')
      | None => true
      end
  | None => false
  end.

Definition capital_sigma : N := 931.
Definition capital_i_with_dot : N := 304.

Fixpoint lower_points (before : list N) (cps : list N) : list N :=
  match cps with
  | [] => []
  | cp :: rest =>
      (if (cp =? capital_sigma)%N
       then [if final_sigma before rest then 962%N else 963%N]
       else if (cp =? capital_i_with_dot)%N then [105%N; 775%N]
       else [Unicode.lower_one cp])
      ++ lower_points (cp :: before) rest
  end.

(** [s.lower()] *)
Definition lower (s : string) : string :=
  String.concat "" (chr <$> lower_points [] (ord <$> chars s)).

(** The characters without the white space they start with. *)
Fixpoint lstrip_chars (chs : list string) : list string :=
  match chs with
  | [] => []
  | ch :: rest => if is_space ch then lstrip_chars rest else chs
  end.

(** [s.strip()] *)
Definition strip (s : string) : string :=
  of_chars (rev (lstrip_chars (rev (lstrip_chars (chars s))))).

(** [l] starts with the characters of [p]. *)
Fixpoint starts_with (p l : list string) : bool :=
  match p, l with
  | [], _ => true
  | x :: p', y :: l' => String.eqb x y && starts_with p' l'
  | _ :: _, [] => false
  end.

(** [any(p(c) for c in s)] *)
Fixpoint any_char (p : ascii -> bool) (s : string) : bool :=
  match s with
  | EmptyString => false
  | String c s' => p c || any_char p s'
  end.

(** [s.startswith(p)] *)
Definition startswith (p s : string) : bool := String.prefix p s.

(** [needle in hay] *)
Fixpoint contains (needle hay : string) : bool :=
  String.prefix needle hay ||
  match hay with
  | EmptyString => false
  | String _ hay' => contains needle hay'
  end.

(** [s.split(sep)] for a one-character separator; [cur] is the piece
    being read, reversed. *)
Fixpoint split_go (sep : ascii) (cur : string) (s : string) : list string :=
  match s with
  | EmptyString => [String.rev cur]
  | String c s' =>
      if Ascii.eqb c sep then String.rev cur :: split_go sep EmptyString s'
      else split_go sep (String c cur) s'
  end.

Definition split (sep : ascii) (s : string) : list string :=
  split_go sep EmptyString s.

Definition nl : ascii := ascii_of_nat 10.
Definition cr : ascii := ascii_of_nat 13.

(** [[l.strip() for l in text.split('\n') if l.strip()]] *)
Definition stripped_lines (text : string) : list string :=
  List.filter nonempty (List.map strip (split nl text)).

(** [a or b] on strings *)
Definition or_else (a b : string) : string := if nonempty a then a else b.

(** [len(s)]: the code points, that is the bytes that do not continue
    a character. *)
Fixpoint len (s : string) : nat :=
  match s with
  | EmptyString => 0%nat
  | String c s' =>
      let n := nat_of_ascii c in
      if (128 <=? n)%nat && (n <? 192)%nat then len s' else Datatypes.S (len s')
  end.

(** [s.replace(old, "")]: [skip] characters of a found [old] are
    still to be dropped. *)
Fixpoint remove_go (old : string) (skip : nat) (s : string) : string :=
  match s with
  | EmptyString => EmptyString
  | String c s' =>
      match skip with
      | Datatypes.S k => remove_go old k s'
      | O =>
          if nonempty old && String.prefix old s
          then remove_go old (String.length old - 1) s'
          else String c (remove_go old 0 s')
      end
  end.

Definition remove (old s : string) : string := remove_go old 0 s.

(** [s[:n]] for [0 <= n]: the first [n] code points. *)
Fixpoint take (n : nat) (s : string) : string :=
  match s with
  | EmptyString => EmptyString
  | String c s' =>
      let b := nat_of_ascii c in
      if (128 <=? b)%nat && (b <? 192)%nat then String c (take n s')
      else match n with
           | O => EmptyString
           | Datatypes.S k => String c (take k s')
           end
  end.

(** The text between double quotes, as a selector writes it. *)
Definition quoted (s : string) : string :=
  String (ascii_of_nat 34) (s +:+ String (ascii_of_nat 34) EmptyString).

(** [any(x in s for x in xs)] *)
Definition contains_any (xs : list string) (s : string) : bool :=
  existsb (λ x, contains x s) xs.

End Text.

(** ** Python values stored in a job dictionary *)

Inductive value : Type :=
  | VStr (s : string)
  | VBool (b : bool)
  | VNone.

(** A Python [str] is a value. *)
Coercion VStr : string >-> value.

Global Instance value_eq_dec : EqDecision value.
Proof. solve_decision. Defined.

(** Truth value of a Python object. *)
Definition truthy (v : value) : bool :=
  match v with
  | VStr s => Text.nonempty s
  | VBool b => b
  | VNone => false
  end.

(** [str(v)] *)
Definition str_of (v : value) : string :=
  match v with
  | VStr s => s
  | VBool true => "True"
  | VBool false => "False"
  | VNone => "None"
  end.

(** The text of a cell of the csv writer: [None] is written empty. *)
Definition cell_of (v : value) : string :=
  match v with
  | VNone => ""
  | _ => str_of v
  end.

(** A browser or network call either raises or returns. *)
Inductive outcome (A : Type) : Type :=
  | Raised
  | Ok (a : A).
Arguments Raised {A}.
Arguments Ok {A} a.

(** [{key: v for key in keys}] *)
Definition dict_fromkeys {V} (keys : list string) (v : V) : gmap string V :=
  list_to_map ((λ k, (k, v)) <$> keys).

(** ** Code that mutates a job dictionary and may raise

    A computation takes the dictionary, returns the dictionary as it has
    mutated it and either raises or yields a result.  What was written
    before an exception stays written. *)

Definition Py (A : Type) : Type :=
  gmap string value → gmap string value * outcome A.

Definition py_ret {A} (a : A) : Py A := λ job, (job, Ok a).

Definition py_bind {A B} (c : Py A) (k : A → Py B) : Py B :=
  λ job, match c job with
         | (job', Ok a) => k a job'
         | (job', Raised) => (job', Raised)
         end.

Global Instance Py_ret : MRet Py := @py_ret.
Global Instance Py_bind : MBind Py := λ A B k c, py_bind c k.

(** [raise] *)
Definition py_raise {A} : Py A := λ job, (job, Raised).

(** The result of a call that may raise. *)
Definition call {A} (r : outcome A) : Py A := λ job, (job, r).

(** [job[k] = v] *)
Definition setitem (k : string) (v : value) : Py unit :=
  λ job, (<[k:=v]> job, Ok tt).

(** [job[k]]: a missing key raises KeyError. *)
Definition getitem (k : string) : Py value :=
  λ job, match job !! k with
         | Some v => (job, Ok v)
         | None => (job, Raised)
         end.

(** [job.get(k, d)] *)
Definition get (k : string) (d : value) : Py value :=
  λ job, (job, Ok (default d (job !! k))).

(** [job.get(k)]: [None] for a missing key. *)
Definition get_opt (k : string) : Py (option value) :=
  λ job, (job, Ok (job !! k)).

(** Truth value of what [job.get(k)] returns. *)
Definition truthy_opt (o : option value) : bool :=
  match o with
  | Some v => truthy v
  | None => false
  end.

(** [a or b] *)
Definition val_or (a b : value) : value := if truthy a then a else b.

(** [k in job] *)
Definition has_key (k : string) : Py bool :=
  λ job, (job, Ok (bool_decide (is_Some (job !! k)))).

(** [try: c  except Exception: pass] *)
Definition try_pass (c : Py unit) : Py unit :=
  λ job, match c job with
         | (job', Raised) => (job', Ok tt)
         | r => r
         end.

(** [if b: c] *)
Definition when (b : bool) (c : Py unit) : Py unit :=
  if b then c else mret tt.

(** [for x in xs: body x] *)
Fixpoint for_each {A} (xs : list A) (body : A → Py unit) : Py unit :=
  match xs with
  | [] => mret tt
  | x :: xs' => body x;; for_each xs' body
  end.

(** The dictionary a computation leaves behind. *)
Definition final {A} (c : Py A) (job : gmap string value) : gmap string value :=
  (c job).1.

(** [keeps I c]: the computation keeps the property [I] of the
    dictionary, whether it returns or raises. *)
Definition keeps {A} (I : gmap string value → Prop) (c : Py A) : Prop :=
  ∀ job, I job → I (c job).1.

(** ** Dates

    A [datetime] is kept as the proleptic Gregorian ordinal of its day
    ([date.toordinal()]: day 1 is 0001-01-01), which is all that
    [strftime("%Y-%m-%d")] reads.  Adding [timedelta(days=n)] adds [n] to
    the ordinal and raises OverflowError beyond 9999-12-31. *)

Module Calendar.

Definition max_ordinal : Z := 3652059.

(** Year, month and day of an ordinal. *)
Definition ymd (ordinal : Z) : Z * Z * Z :=
  let z := ordinal + 305 in
  let era := z / 146097 in
  let doe := z - era * 146097 in
  let yoe := (doe - doe / 1460 + doe / 36524 - doe / 146096) / 365 in
  let doy := doe - (365 * yoe + yoe / 4 - yoe / 100) in
  let mp := (5 * doy + 2) / 153 in
  let d := doy - (153 * mp + 2) / 5 + 1 in
  let m := if mp <? 10 then mp + 3 else mp - 9 in
  let y := yoe + era * 400 + (if m <=? 2 then 1 else 0) in
  (y, m, d).

Definition digit (n : Z) : ascii := ascii_of_nat (48 + Z.to_nat (n mod 10)).

Definition two_digits (n : Z) : string :=
  String (digit (n / 10)) (String (digit n) EmptyString).

Definition four_digits (n : Z) : string :=
  String (digit (n / 1000)) (String (digit (n / 100)) (two_digits n)).

(** [%Y] as the C library of Linux writes it: the year with no padding,
    which has four digits from the year 1000 on. *)
Definition year_digits (y : Z) : string :=
  if y <? 10 then String (digit y) EmptyString
  else if y <? 100 then two_digits y
  else if y <? 1000 then String (digit (y / 100)) (two_digits y)
  else four_digits y.

(** [d.strftime("%Y-%m-%d")] *)
Definition strftime_ymd (ordinal : Z) : string :=
  let '(y, m, d) := ymd ordinal in
  year_digits y +:+ "-" +:+ two_digits m +:+ "-" +:+ two_digits d.

(** [d + timedelta(days=n)] *)
Definition add_days (ordinal n : Z) : outcome Z :=
  let r := ordinal + n in
  if (1 <=? r) && (r <=? max_ordinal) then Ok r else Raised.

End Calendar.

(** ** The markup parser (BeautifulSoup) *)

Module Bs4.

(** A child of the description container, as the code reads it. *)
Inductive child : Type :=
  | ChildP (text : string)
      (** a [p]: its [get_text(strip=True)] *)
  | ChildUl (items : list string)
      (** a [ul]: the [get_text(strip=True)] of each [li] in it *)
  | ChildOther (str : option string).
      (** anything else: its [.string] *)

(** An element: [get_text(strip=True)], the attributes, and the
    children once every [br] is replaced by a newline. *)
Record Tag : Type := {
  get_text_strip : string;
  get_text_lines : string;      (** [get_text(separator="\n", strip=True)] *)
  attrs : gmap string string;
  children : list child;
  find_next_span : option string;
    (** [find_next("span")] and its [get_text(strip=True)] *)
}.

(** A parsed document. [select_one] and [select] answer a CSS selector;
    [find] answers [soup.find(name)], [find_class] answers
    [soup.find(name, class_=c)] and [find_meta] answers
    [soup.find("meta", attrs={"property": p})]. *)
Record Soup : Type := {
  select_one : string → option Tag;
  select : string → list Tag;
  find : string → option Tag;
  find_class : string → string → option Tag;
  find_meta : string → option Tag;
  search_email : option string;
    (** [re.search(r"[\w\.-]+@[\w\.-]+\.\w+", text)] on the text of the
        document, and its [group(0)] *)
}.

(** [el.get(name)] *)
Definition tag_get (el : Tag) (name : string) : option string :=
  attrs el !! name.

(** A page with nothing in it. *)
Definition empty_soup : Soup := {|
  select_one := λ _, None;
  select := λ _, [];
  find := λ _, None;
  find_class := λ _ _, None;
  find_meta := λ _, None;
  search_email := None;
|}.

Definition text_tag (text : string) : Tag := {|
  get_text_strip := text;
  get_text_lines := text;
  attrs := ∅;
  children := [];
  find_next_span := None;
|}.

End Bs4.

(** [re.findall(r"[\d,.]+", s)]: the maximal runs of digits, commas and
    full stops; [cur] is the run being read, its characters reversed. *)
Definition is_numeric_char (ch : string) : bool :=
  Text.is_decimal ch || String.eqb ch "," || String.eqb ch ".".

Fixpoint findall_numeric_go (cur : list string) (chs : list string)
    : list string :=
  match chs with
  | [] => match cur with [] => [] | _ => [Text.of_chars (rev cur)] end
  | ch :: rest =>
      if is_numeric_char ch then findall_numeric_go (ch :: cur) rest
      else match cur with
           | [] => findall_numeric_go [] rest
           | _ => Text.of_chars (rev cur) :: findall_numeric_go [] rest
           end
  end.

Definition findall_numeric (s : string) : list string :=
  findall_numeric_go [] (Text.chars s).

(** [re.sub(r"\n+", "\n", s)] *)
Fixpoint collapse_newlines_go (after_nl : bool) (s : string) : string :=
  match s with
  | EmptyString => EmptyString
  | String c s' =>
      if Ascii.eqb c Text.nl
      then if after_nl then collapse_newlines_go true s'
           else String c (collapse_newlines_go true s')
      else String c (collapse_newlines_go false s')
  end.

Definition collapse_newlines (s : string) : string :=
  collapse_newlines_go false s.

(** [sep.join(parts)] *)
Definition join (sep : string) (parts : list string) : string :=
  String.concat sep parts.


(** ** all_scraper.py: detail pages *)

(** One visit of the browser to a URL: [page.goto] and [page.content]. *)
Record Visit : Type := {
  goto : outcome unit;
  content : outcome Bs4.Soup;
}.

Module AllScraper.
Import Bs4.

Definition DETAIL_BASE_URL : string :=
  "https://www.elempleo.com/cr/ofertas-trabajo/".

Definition HEADERS : list string :=
  [ "_job_featured_image"; "_job_title"; "_job_featured"; "_job_filled";
    "_job_urgent"; "_job_description";
    "_job_category"; "_job_type"; "_job_tag"; "_job_expiry_date";
    "_job_gender";
    "_job_apply_type"; "_job_apply_url"; "_job_apply_email";
    "_job_salary_type"; "_job_salary"; "_job_max_salary";
    "_job_experience"; "_job_career_level"; "_job_qualification";
    "_job_video_url"; "_job_photos";
    "_job_application_deadline_date"; "_job_address"; "_job_location";
    "_job_map_location" ].

Definition extract_text (soup : Soup) (selector : string) : string :=
  match select_one soup selector with
  | Some el => get_text_strip el
  | None => ""
  end.

(** The loop over [desc_container.children]. *)
Definition description_parts (cs : list child) : list string :=
  flat_map (λ c,
    match c with
    | ChildP text => [text]
    | ChildUl items => (λ li, "• " +:+ li) <$> items
    | ChildOther (Some str) =>
        if Text.nonempty (Text.strip str) then [Text.strip str] else []
    | ChildOther None => []
    end) cs.

Definition job_type_of (soup : Soup) : string :=
  match find soup "span" with
  | Some span =>
      let text := Text.lower (get_text_strip span) in
      if Text.contains "medio tiempo" text then "Medio tiempo"
      else if Text.contains "remoto" text then "Remoto"
      else "Tiempo completo"
  | None => "Tiempo completo"
  end.

Definition mentions_experience (text : string) : bool :=
  Text.contains "experiencia" (Text.lower text) ||
  Text.contains "años" (Text.lower text).

(** [el[name]]: a missing attribute raises KeyError. *)
Definition tag_item (el : Tag) (name : string) : Py string :=
  match tag_get el name with
  | Some v => mret v
  | None => py_raise
  end.

(** The selectors of the lookups. *)
Definition sel_image : string := "img[src*='empleo'], img[src*='ofertas']".
Definition sel_description : string := ".description-block span".
Definition sel_title : string :=
  ".category, [class*='categoria'], .breadcrumb li:last-child".
Definition sel_category : string := ".js-position-area".
Definition sel_salary : string :=
  "[class*='salario'], .js-joboffer-salary, .compensation".
Definition sel_location : string :=
  "[class*='ubicacion'], .js-joboffer-city, [itemprop='addressLocality']".
Definition sel_experience : string := ".data-column span".
Definition sel_qualification : string :=
  "[class*='js-education-level'], [class*='formacion']".
Definition class_level_icon : string := "fa fa-level-down fa-fw".

(** The part of the [try] of [get_job_details] that reads the parsed
    page; [today] is the ordinal of [datetime.today()]. *)
Definition extract_details (today : Z) (soup : Soup) : Py unit :=
  (* Featured image *)
  match select_one soup sel_image with
  | Some img => src ← tag_item img "src"; setitem "_job_featured_image" (VStr src)
  | None => mret tt
  end;;
  (* Description *)
  match select_one soup sel_description with
  | Some desc_container =>
      let detail_desc := join (String Text.nl "")
                           (description_parts (children desc_container)) in
      setitem "_job_description" (collapse_newlines detail_desc)
  | None => mret tt
  end;;
  setitem "_job_title" (extract_text soup sel_title);;
  setitem "_job_category" (extract_text soup sel_category);;
  (* Job type *)
  setitem "_job_type" (job_type_of soup);;
  (* Salary *)
  let salary_text := extract_text soup sel_salary in
  setitem "_job_salary" salary_text;;
  when (Text.nonempty salary_text)
    (match last (findall_numeric salary_text) with
     | Some number =>
         setitem "_job_salary_type" "Mensual";;
         setitem "_job_max_salary" number
     | None => mret tt
     end);;
  (* Location *)
  setitem "_job_location" (extract_text soup sel_location);;
  location ← getitem "_job_location";
  setitem "_job_address" location;;
  (* Dates *)
  expiry_date ← call (Calendar.add_days today 30);
  setitem "_job_expiry_date" (Calendar.strftime_ymd expiry_date);;
  setitem "_job_application_deadline_date" (Calendar.strftime_ymd expiry_date);;
  (* Experience *)
  match List.find mentions_experience
          (get_text_strip <$> select soup sel_experience) with
  | Some text => setitem "_job_experience" text
  | None => mret tt
  end;;
  (* Qualification *)
  setitem "_job_qualification" (extract_text soup sel_qualification);;
  (* Career level *)
  match find_class soup "i" class_level_icon with
  | Some icon =>
      match find_next_span icon with
      | Some text => setitem "_job_career_level" text
      | None => mret tt
      end
  | None => mret tt
  end;;
  (* Email or apply URL *)
  match search_email soup with
  | Some email => setitem "_job_apply_email" email
  | None => mret tt
  end;;
  match find_meta soup "og:url" with
  | Some meta =>
      match tag_get meta "content" with
      | Some url => when (Text.nonempty url) (setitem "_job_apply_url" url)
      | None => mret tt
      end
  | None => mret tt
  end;;
  (* Defaults *)
  setitem "_job_featured" "1";;
  setitem "_job_filled" "0";;
  setitem "_job_urgent" "0";;
  setitem "_job_gender" "";;
  setitem "_job_tag" "Costa Rica";;
  setitem "_job_video_url" "";;
  setitem "_job_photos" "";;
  setitem "_job_map_location" "";;
  setitem "_job_apply_type" "external".

(** The body of the [try] of [get_job_details]. *)
Definition get_job_details_body (today : Z) (visit : Visit) : Py unit :=
  call (goto visit);;
  soup ← call (content visit);
  extract_details today soup.

(** [get_job_details(page, job_url)]: the dictionary is returned from
    the [try] and from the [except] alike. *)
Definition get_job_details (today : Z) (page : string → Visit)
    (job_url : string) : gmap string value :=
  final (get_job_details_body today (page job_url))
        (dict_fromkeys HEADERS (VStr "")).

(** [o] is [None]. *)
Definition missing {A} (o : option A) : bool :=
  match o with
  | Some _ => false
  | None => true
  end.

(** The fields that are read from a lookup in the page, each with the
    test that its lookup found nothing. *)
Definition looked_up : list (string * (Soup → bool)) :=
  [ ("_job_featured_image", λ soup, missing (select_one soup sel_image));
    ("_job_description", λ soup, missing (select_one soup sel_description));
    ("_job_title", λ soup, missing (select_one soup sel_title));
    ("_job_category", λ soup, missing (select_one soup sel_category));
    ("_job_salary", λ soup, missing (select_one soup sel_salary));
    ("_job_salary_type", λ soup, missing (select_one soup sel_salary));
    ("_job_max_salary", λ soup, missing (select_one soup sel_salary));
    ("_job_location", λ soup, missing (select_one soup sel_location));
    ("_job_address", λ soup, missing (select_one soup sel_location));
    ("_job_experience", λ soup, missing (head (select soup sel_experience)));
    ("_job_qualification", λ soup, missing (select_one soup sel_qualification));
    ("_job_career_level", λ soup, missing (find_class soup "i" class_level_icon));
    ("_job_apply_email", λ soup, missing (search_email soup));
    ("_job_apply_url", λ soup, missing (find_meta soup "og:url")) ].

End AllScraper.

(** ** Listing pages: collecting job identifiers *)

(** The listing surface as the browser shows it.  [S] is the state of the
    site (which page is shown, how far it is scrolled). *)
Record Listing (S : Type) : Type := {
  listing_goto : outcome S;
    (** [page.goto(BASE_URL, ...)] *)
  listing_buttons : S → outcome (list string);
    (** [page.content()] parsed, then
        [soup.find_all("button", attrs={"data-joboffer": True})]: the
        value of the attribute on each button that carries it *)
  listing_anchors : S → outcome (list (outcome string));
    (** [page.locator("a")]: [count()] and the [inner_text()] of each *)
  listing_click : S → nat → outcome S;
    (** a click on the anchor of that index *)
  listing_wheel : S → outcome S;
    (** [page.mouse.wheel(0, 50000)] *)
}.
Arguments listing_goto {S}.
Arguments listing_buttons {S}.
Arguments listing_anchors {S}.
Arguments listing_click {S}.
Arguments listing_wheel {S}.

(** Why a discovery run ended. *)
Inductive stop : Type :=
  | NoButtons      (** "No job buttons found on page. Stopping." *)
  | NoNext         (** "'Next' link not found. Ending pagination." *)
  | MaxPages       (** "Reached max_pages, stopping." *)
  | RangeDone      (** the [for] over [range] ran out *)
  | Error.         (** an exception was caught *)

Global Instance stop_eq_dec : EqDecision stop.
Proof. solve_decision. Defined.

(** What a discovery run leaves: the identifiers, the number of advance
    steps it made (clicks or scrolls), the count it printed after each
    snapshot, and why it ended. *)
Record Discovery : Type := {
  job_ids : gset string;
  advances : nat;
  printed : list nat;
  stopped : stop;
}.

Module AllScraperIds.

Definition next_tokens : list string := ["siguiente"; ">"; "»"; "next"].

Definition is_next (inner_text : string) : bool :=
  bool_decide (Text.lower (Text.strip inner_text) ∈ next_tokens).

(** The scan of the anchors: the index of the first whose text is a
    next-page token. *)
Fixpoint find_next (i : nat) (anchors : list (outcome string))
    : outcome (option nat) :=
  match anchors with
  | [] => Ok None
  | Raised :: _ => Raised
  | Ok txt :: rest => if is_next txt then Ok (Some i) else find_next (S i) rest
  end.

(** [for btn in buttons: job_id = btn.get("data-joboffer");
     if job_id: job_ids.add(job_id)] *)
Definition add_ids (buttons : list string) (ids : gset string) : gset string :=
  foldl (λ acc job_id, if Text.nonempty job_id then {[job_id]} ∪ acc else acc)
        ids buttons.

(** The [while True] loop.  [fuel] bounds the iterations of the model;
    [None] means the fuel ran out before the loop ended. *)
Fixpoint loop {S} (site : Listing S) (max_pages : Z) (fuel : nat)
    (st : S) (page_number : Z) (ids : gset string) (clicks : nat)
    (log : list nat) : option Discovery :=
  match fuel with
  | O => None
  | Datatypes.S fuel' =>
      match listing_buttons site st with
      | Raised => Some (Build_Discovery ids clicks log Error)
      | Ok buttons =>
          match buttons with
          | [] => Some (Build_Discovery ids clicks log NoButtons)
          | _ =>
              let ids := add_ids buttons ids in
              let log := log ++ [size ids] in
              match listing_anchors site st with
              | Raised => Some (Build_Discovery ids clicks log Error)
              | Ok anchors =>
                  match find_next 0 anchors with
                  | Raised => Some (Build_Discovery ids clicks log Error)
                  | Ok None => Some (Build_Discovery ids clicks log NoNext)
                  | Ok (Some i) =>
                      match listing_click site st i with
                      | Raised => Some (Build_Discovery ids clicks log Error)
                      | Ok st' =>
                          let page_number := page_number + 1 in
                          if page_number >? max_pages
                          then Some (Build_Discovery ids (Datatypes.S clicks) log MaxPages)
                          else loop site max_pages fuel' st' page_number ids
                                    (Datatypes.S clicks) log
                      end
                  end
              end
          end
      end
  end.

(** [get_job_ids_with_playwright_auto(delay, max_pages)] *)
Definition get_job_ids_with_playwright_auto {S} (site : Listing S)
    (max_pages : Z) (fuel : nat) : option Discovery :=
  match listing_goto site with
  | Raised => Some (Build_Discovery ∅ 0 [] Error)
  | Ok st => loop site max_pages fuel st 1 ∅ 0 []
  end.

End AllScraperIds.

(** ** scrape.py and elempleo_full_scraper.py: identifiers by scrolling *)

Module Scrape.

(** [for btn in soup.find_all(...): job_ids.add(btn["data-joboffer"])] *)
Definition add_ids (buttons : list string) (ids : gset string) : gset string :=
  foldl (λ acc job_id, {[job_id]} ∪ acc) ids buttons.

(** [for scroll in range(1, max_scrolls + 1)], [n] scrolls to go. *)
Fixpoint scrolls {S} (site : Listing S) (n : nat) (st : S)
    (ids : gset string) (done : nat) (log : list nat) : Discovery :=
  match n with
  | O => Build_Discovery ids done log RangeDone
  | Datatypes.S n' =>
      match listing_wheel site st with
      | Raised => Build_Discovery ids done log Error
      | Ok st' =>
          match listing_buttons site st' with
          | Raised => Build_Discovery ids (Datatypes.S done) log Error
          | Ok buttons =>
              let ids := add_ids buttons ids in
              scrolls site n' st' ids (Datatypes.S done) (log ++ [size ids])
          end
      end
  end.

(** [get_job_ids_with_playwright(max_scrolls, scroll_delay)] *)
Definition get_job_ids_with_playwright {S} (site : Listing S)
    (max_scrolls : Z) : Discovery :=
  match listing_goto site with
  | Raised => Build_Discovery ∅ 0 [] Error
  | Ok st => scrolls site (Z.to_nat max_scrolls) st ∅ 0 []
  end.

End Scrape.

(** ** The csv module and the files it writes

    [csv.writer] and [csv.reader] with the default dialect: a comma
    as delimiter, the double quote as quote character, doubled quotes, line terminator CR LF,
    minimal quoting.  The file is opened with [newline=''], so that no
    line ending is translated. *)

Module Csv.

Definition comma : ascii := ",".
Definition dquote : ascii := ascii_of_nat 34.
Definition crlf : string := String Text.cr (String Text.nl "").

(** A cell is quoted when it holds the delimiter, the quote character
    or a character of the line terminator. *)
Definition special (c : ascii) : bool :=
  Ascii.eqb c comma || Ascii.eqb c dquote ||
  Ascii.eqb c Text.cr || Ascii.eqb c Text.nl.

(** The cell with every quote character doubled. *)
Fixpoint double_quotes (s : string) : string :=
  match s with
  | EmptyString => EmptyString
  | String c s' =>
      if Ascii.eqb c dquote then String c (String c (double_quotes s'))
      else String c (double_quotes s')
  end.

Definition write_cell (s : string) : string :=
  if Text.any_char special s
  then String dquote (double_quotes s +:+ String dquote "")
  else s.

Fixpoint write_cells (cells : list string) : string :=
  match cells with
  | [] => ""
  | [c] => write_cell c
  | c :: rest => write_cell c +:+ String comma (write_cells rest)
  end.

(** [writer.writerow(cells)]; a row of one empty cell is written as a
    pair of quotes. *)
Definition writerow (cells : list string) : string :=
  match cells with
  | [EmptyString] => String dquote (String dquote crlf)
  | _ => write_cells cells +:+ crlf
  end.

Definition writerows (rows : list (list string)) : string :=
  String.concat "" (writerow <$> rows).

(** The reader, one character at a time.  [AfterCR] is the end of a
    line on a carriage return, where a line feed still belongs to it. *)
Inductive mode : Type :=
  | StartRecord | StartField | InField | InQuotedField
  | QuoteInQuotedField | AfterCR.

Record reader : Type := {
  r_mode : mode;
  r_cell : string;            (** the cell being read, reversed *)
  r_cells : list string;      (** the cells of the record, reversed *)
}.

Definition save_cell (r : reader) : list string :=
  String.rev (r_cell r) :: r_cells r.

Definition fresh : reader := Build_reader StartRecord "" [].

(** A character at the start of a cell; a record is under way. *)
Definition start_cell (cells : list string) (c : ascii)
    : reader * list (list string) :=
  if Ascii.eqb c Text.nl then (fresh, [rev ("" :: cells)])
  else if Ascii.eqb c Text.cr then (Build_reader AfterCR "" ("" :: cells), [])
  else if Ascii.eqb c dquote then (Build_reader InQuotedField "" cells, [])
  else if Ascii.eqb c comma then (Build_reader StartField "" ("" :: cells), [])
  else (Build_reader InField (String c "") cells, []).

(** A character at the start of a line. *)
Definition start_record (c : ascii) : reader * list (list string) :=
  if Ascii.eqb c Text.nl then (fresh, [[]])
  else if Ascii.eqb c Text.cr then (Build_reader AfterCR "" [], [])
  else start_cell [] c.

(** One character: the next state and the records completed by it. *)
Definition step (r : reader) (c : ascii) : reader * list (list string) :=
  match r_mode r with
  | StartRecord => start_record c
  | StartField => start_cell (r_cells r) c
  | InField =>
      if Ascii.eqb c Text.nl then (fresh, [rev (save_cell r)])
      else if Ascii.eqb c Text.cr then (Build_reader AfterCR "" (save_cell r), [])
      else if Ascii.eqb c comma then (Build_reader StartField "" (save_cell r), [])
      else (Build_reader InField (String c (r_cell r)) (r_cells r), [])
  | InQuotedField =>
      if Ascii.eqb c dquote
      then (Build_reader QuoteInQuotedField (r_cell r) (r_cells r), [])
      else (Build_reader InQuotedField (String c (r_cell r)) (r_cells r), [])
  | QuoteInQuotedField =>
      if Ascii.eqb c dquote
      then (Build_reader InQuotedField (String c (r_cell r)) (r_cells r), [])
      else if Ascii.eqb c comma then (Build_reader StartField "" (save_cell r), [])
      else if Ascii.eqb c Text.nl then (fresh, [rev (save_cell r)])
      else if Ascii.eqb c Text.cr then (Build_reader AfterCR "" (save_cell r), [])
      else (Build_reader InField (String c (r_cell r)) (r_cells r), [])
  | AfterCR =>
      if Ascii.eqb c Text.nl then (fresh, [rev (r_cells r)])
      else let '(r', out) := start_record c in (r', rev (r_cells r) :: out)
  end.

(** The end of the file: a record under way is completed. *)
Definition finish (r : reader) : list (list string) :=
  match r_mode r with
  | StartRecord => []
  | AfterCR => [rev (r_cells r)]
  | _ => [rev (save_cell r)]
  end.

Fixpoint read_from (r : reader) (s : string) : list (list string) :=
  match s with
  | EmptyString => finish r
  | String c s' => let '(r', out) := step r c in out ++ read_from r' s'
  end.

(** [list(csv.reader(f))] *)
Definition read (s : string) : list (list string) := read_from fresh s.

End Csv.

(** The files of the working directory: name to bytes. *)
Module Files.

(** The byte order mark that the codec [utf-8-sig] writes first. *)
Definition BOM : string :=
  String (ascii_of_nat 239) (String (ascii_of_nat 187)
    (String (ascii_of_nat 191) "")).

Inductive encoding : Type := Utf8 | Utf8Sig.

Definition encode (e : encoding) (text : string) : string :=
  match e with
  | Utf8 => text
  | Utf8Sig => BOM +:+ text
  end.

(** Reading with [utf-8-sig] drops a leading mark; reading with
    [utf-8] keeps it as the character U+FEFF. *)
Definition decode (e : encoding) (bytes : string) : string :=
  match e with
  | Utf8 => bytes
  | Utf8Sig =>
      if String.prefix BOM bytes
      then String.substring 3 (String.length bytes - 3) bytes
      else bytes
  end.

End Files.

(** [csv.DictWriter(f, fieldnames=...)] with [writeheader()] and
    [writerows(jobs)]: the text written, and whether ValueError was
    raised on a dictionary with a key outside [fieldnames].  The rows
    before that dictionary are written. *)
Definition dict_to_list (fieldnames : list string) (job : gmap string value)
    : outcome (list string) :=
  if bool_decide (dom job ⊆ list_to_set fieldnames)
  then Ok ((λ key, default "" (cell_of <$> job !! key)) <$> fieldnames)
  else Raised.

Fixpoint dict_writerows (fieldnames : list string)
    (jobs : list (gmap string value)) : string * outcome unit :=
  match jobs with
  | [] => ("", Ok tt)
  | job :: jobs' =>
      match dict_to_list fieldnames job with
      | Raised => ("", Raised)
      | Ok cells =>
          let '(text, r) := dict_writerows fieldnames jobs' in
          (Csv.writerow cells +:+ text, r)
      end
  end.

Definition dict_write (fieldnames : list string)
    (jobs : list (gmap string value)) : string * outcome unit :=
  let '(text, r) := dict_writerows fieldnames jobs in
  (Csv.writerow fieldnames +:+ text, r).

(** ** scrape.py: the offers of the JSON interface *)

(** [re.sub(r"<[^>]+>", "", s)]: a match starts at a [<] that at least
    one other character and then a [>] follow, and ends at the first
    such [>].  [gt_index s] is the index of the first [>] of [s];
    [skip] characters of a match are still to be dropped. *)
Fixpoint gt_index (s : string) : option nat :=
  match s with
  | EmptyString => None
  | String c s' => if Ascii.eqb c ">" then Some 0%nat else S <$> gt_index s'
  end.

Fixpoint remove_tags_go (skip : nat) (s : string) : string :=
  match s with
  | EmptyString => EmptyString
  | String c s' =>
      match skip with
      | S k => remove_tags_go k s'
      | O =>
          if Ascii.eqb c "<" then
            match gt_index s' with
            | Some (S n) => remove_tags_go (S (S n)) s'
            | _ => String c (remove_tags_go 0 s')
            end
          else String c (remove_tags_go 0 s')
      end
  end.

Definition remove_tags (s : string) : string := remove_tags_go 0 s.

Module ScrapeApi.

(** A value of the decoded answer: a string, [None], a truth value, a
    number, a list or an object.  Of a number, a list and an object the
    code can see the truth value and [str()]. *)
Inductive json : Type :=
  | JStr (s : string)
  | JNull
  | JBool (b : bool)
  | JNum (nonzero : bool) (str : string)
  | JList (nonempty : bool) (str : string)
  | JObject (nonempty : bool) (str : string).

Definition truthy (v : json) : bool :=
  match v with
  | JStr s => Text.nonempty s
  | JNull => false
  | JBool b => b
  | JNum b _ | JList b _ | JObject b _ => b
  end.

(** [clean_html(raw_html)]: the pattern is applied to [raw_html or ""],
    which raises TypeError on what is true and is no string. *)
Definition clean_html (raw_html : json) : outcome string :=
  match raw_html with
  | JStr s => Ok (Text.strip (remove_tags s))
  | v => if truthy v then Raised else Ok ""
  end.

(** The answer of the interface: the status and [r.json()], which
    raises on what is no JSON; an answer that is no object makes
    [data.get] raise just so. *)
Record Response : Type := {
  status_code : Z;
  json_data : outcome (gmap string json);
}.

Definition API_URL (job_id : string) : string :=
  "https://www.elempleo.com/cr/api/joboffers/getjoboffer?jobOfferId=" +:+ job_id.

(** A dictionary whose keys are in the order in which they were
    written. *)
Definition record : Type := list (string * json).

Definition keys (job : record) : list string := job.*1.

Fixpoint item (k : string) (job : record) : option json :=
  match job with
  | [] => None
  | (k', v) :: rest => if String.eqb k k' then Some v else item k rest
  end.

(** [data.get(k)] *)
Definition data_get (data : gmap string json) (k : string) : json :=
  default JNull (data !! k).

(** [get_job_details(job_id)]: the record, or [None]. *)
Definition get_job_details (requests_get : string → outcome Response)
    (job_id : string) : option record :=
  match requests_get (API_URL job_id) with
  | Raised => None
  | Ok r =>
      if (status_code r =? 200)%Z then
        match json_data r with
        | Raised => None
        | Ok data =>
            match clean_html (default (JStr "") (data !! "description")) with
            | Raised => None
            | Ok description =>
                Some [ ("id", data_get data "id");
                       ("title", data_get data "title");
                       ("company", data_get data "companyName");
                       ("location", data_get data "city");
                       ("salary", data_get data "salaryInfo");
                       ("publish_date", data_get data "publishDateInfo");
                       ("description", JStr description);
                       ("url", data_get data "jobOfferUrl") ]
            end
        end
      else None
  end.

(** The text of a cell: [None] is written empty, a string as it is,
    anything else as [str()] gives it. *)
Definition cell_of (v : json) : string :=
  match v with
  | JStr s => s
  | JNull => ""
  | JBool true => "True"
  | JBool false => "False"
  | JNum _ str | JList _ str | JObject _ str => str
  end.

(** The row of a record, or ValueError for a key that is no field. *)
Definition dict_to_list (fieldnames : list string) (job : record)
    : outcome (list string) :=
  if forallb (λ k, bool_decide (k ∈ fieldnames)) (keys job)
  then Ok ((λ k, default "" (cell_of <$> item k job)) <$> fieldnames)
  else Raised.

Fixpoint writerows (fieldnames : list string) (jobs : list record)
    : string * outcome unit :=
  match jobs with
  | [] => ("", Ok tt)
  | job :: jobs' =>
      match dict_to_list fieldnames job with
      | Raised => ("", Raised)
      | Ok cells =>
          let '(text, r) := writerows fieldnames jobs' in
          (Csv.writerow cells +:+ text, r)
      end
  end.

(** [save_to_csv(jobs)]: the fields are the keys of the first record;
    [filename] is the name made from the clock.  An exception of the
    writer goes through. *)
Definition save_to_csv (filename : string) (jobs : list record)
    (files : gmap string string) : gmap string string * outcome unit :=
  match jobs with
  | [] => (files, Ok tt)
  | first :: _ =>
      let fieldnames := keys first in
      let '(text, r) := writerows fieldnames jobs in
      (<[filename := Files.encode Files.Utf8Sig (Csv.writerow fieldnames +:+ text)]>
         files, r)
  end.

(** [x[:60]] is there for a string and a list. *)
Definition sliceable (v : json) : bool :=
  match v with
  | JStr _ | JList _ _ => true
  | _ => false
  end.

(** The loop of [main()] over the identifiers: the record of each is
    appended, and its title printed, outside any [try]. *)
Fixpoint collect (requests_get : string → outcome Response)
    (job_ids : list string) (jobs : list record) : outcome (list record) :=
  match job_ids with
  | [] => Ok jobs
  | job_id :: rest =>
      match get_job_details requests_get job_id with
      | None => collect requests_get rest jobs
      | Some job =>
          match item "title" job with
          | Some title =>
              if sliceable title then collect requests_get rest (jobs ++ [job])
              else Raised
          | None => Raised
          end
      end
  end.

(** [main()]: [order] is [list(job_ids)], the list made of the set. *)
Definition main {S} (site : Listing S) (order : gset string → list string)
    (requests_get : string → outcome Response) (filename : string)
    (files : gmap string string) : gmap string string * outcome unit :=
  match order (job_ids (Scrape.get_job_ids_with_playwright site 15)) with
  | [] => (files, Ok tt)
  | ids =>
      match collect requests_get ids [] with
      | Raised => (files, Raised)
      | Ok jobs => save_to_csv filename jobs files
      end
  end.

End ScrapeApi.

(** ** all_scraper.py: the run *)

Module AllScraperMain.
Import AllScraper.

(** The loop of [main()] over the identifiers: [today i] is the day on
    which the page of the identifier of index [i] is visited.  Every
    identifier gives a record. *)
Definition scrape_details (today : nat → Z) (page : string → Visit)
    (job_ids : list string) : list (gmap string value) :=
  imap (λ i job_id, get_job_details (today i) page (DETAIL_BASE_URL +:+ job_id))
       job_ids.

(** [main()]: [order] is [list(job_ids)], the list made of the set, and
    [filename] the name made from the clock.  The result is the files
    and whether the writer raised; [None] when the fuel of the
    discovery ran out. *)
Definition main {S} (site : Listing S) (fuel : nat)
    (order : gset string → list string) (today : nat → Z)
    (page : string → Visit) (filename : string) (files : gmap string string)
    : option (gmap string string * outcome unit) :=
  match AllScraperIds.get_job_ids_with_playwright_auto site 100 fuel with
  | None => None
  | Some found =>
      match order (job_ids found) with
      | [] => Some (files, Ok tt)
      | ids =>
          let results := scrape_details today page ids in
          let '(text, r) := dict_write HEADERS results in
          Some (<[filename := Files.encode Files.Utf8Sig text]> files, r)
      end
  end.

End AllScraperMain.

(** ** elempleo_full_scraper.py *)

Module Full.
Import Bs4.

Definition DETAIL_BASE_URL : string :=
  "https://www.elempleo.com/cr/ofertas-trabajo/".

Definition CSV_FIELDS : list string :=
  [ "featured_image"; "featured"; "filled"; "urgent";
    "category"; "type"; "tag"; "expiry_date"; "gender";
    "apply_type"; "apply_url"; "apply_email";
    "salary_type"; "max_salary";
    "experience"; "career_level"; "qualification"; "video_url"; "photos";
    "application_deadline_date"; "address"; "map_location" ].

Definition extract_text (soup : Soup) (selector : string) : string :=
  match select_one soup selector with
  | Some el => get_text_strip el
  | None => ""
  end.

(** [for k in fields: if k not in job: job[k] = ""] *)
Definition ensure_fields (fields : list string) : Py unit :=
  for_each fields (λ k, present ← has_key k; when (negb present) (setitem k "")).

(** [extract_text(soup, selector) or job.get(k, "")] *)
Definition text_or_get (soup : Soup) (selector k : string) : Py value :=
  old ← get k "";
  mret (val_or (VStr (extract_text soup selector)) old).

(** [f"{v}"] of what [job.get(k)] returns. *)
Definition format_opt (o : option value) : string :=
  match o with
  | Some v => str_of v
  | None => "None"
  end.

(** Lines 172 to 188: apply email, apply url and the apply type. *)
Definition apply_section (soup : Soup) : Py unit :=
  match search_email soup with
  | Some email => setitem "apply_email" email
  | None => mret tt
  end;;
  match select_one soup
          "a[href*='apply'], a[href*='postulate'], a[href*='mailto:'], a.button.apply" with
  | Some link =>
      match tag_get link "href" with
      | Some href =>
          when (Text.nonempty href)
            (setitem "apply_url" href;;
             email ← get_opt "apply_email";
             when (Text.startswith "mailto:" href && negb (truthy_opt email))
               (setitem "apply_email" (Text.remove "mailto:" href)))
      | None => mret tt
      end
  | None => mret tt
  end;;
  (* Flags and placeholders *)
  featured ← get "featured" "false"; setitem "featured" featured;;
  filled ← get "filled" "false"; setitem "filled" filled;;
  urgent ← get "urgent" "false"; setitem "urgent" urgent;;
  apply_url ← get_opt "apply_url";
  apply_email ← get_opt "apply_email";
  setitem "apply_type"
    (if truthy_opt apply_url then "website"
     else if truthy_opt apply_email then "email" else "");;
  setitem "map_location" "".

(** Lines 163 to 165. *)
Definition dates_section (soup : Soup) : Py unit :=
  deadline ← text_or_get soup "time, [class*='fecha'], [class*='publicado']"
               "application_deadline_date";
  setitem "application_deadline_date" deadline;;
  deadline ← getitem "application_deadline_date";
  old ← get "expiry_date" "";
  setitem "expiry_date" (val_or deadline old).

(** The part of the [try] of [enrich_with_detail] that reads the
    parsed page: lines 129 to 188. *)
Definition enrich_page (soup : Soup) : Py unit :=
  (* Featured image *)
  match select_one soup "img[src*='empleo'], img[src*='ofertas']" with
  | Some img =>
      match tag_get img "src" with
      | Some src => when (Text.nonempty src) (setitem "featured_image" src)
      | None => mret tt
      end
  | None => mret tt
  end;;
  (* Description *)
  match select_one soup
          ".description-block, article, [class*='detalle'], .job-description" with
  | Some desc_container => setitem "description" (get_text_lines desc_container)
  | None => mret tt
  end;;
  (* Category / type *)
  category ← text_or_get soup
    ".category, [class*='categoria'], .breadcrumb li:last-child" "category";
  setitem "category" category;;
  type ← text_or_get soup "[class*='tipo'], .employment-type" "type";
  setitem "type" type;;
  (* Salary parsing *)
  salary_text ← text_or_get soup
    "[class*='salario'], .js-joboffer-salary, .compensation" "salary";
  setitem "salary" salary_text;;
  when (truthy salary_text)
    (match salary_text with
     | VStr s =>
         match last (findall_numeric s) with
         | Some number =>
             setitem "salary_type" "monthly";;
             setitem "max_salary" number
         | None => mret tt
         end
     | _ => py_raise
     end);;
  (* Location / address *)
  location ← text_or_get soup
    "[class*='ubicacion'], .js-joboffer-city, [itemprop='addressLocality']"
    "location";
  setitem "location" location;;
  location ← getitem "location";
  setitem "address"
    (val_or (VStr (extract_text soup "[itemprop='streetAddress'], [class*='direccion']"))
            location);;
  (* Dates *)
  dates_section soup;;
  (* Experience / qualification *)
  experience ← text_or_get soup "[class*='experiencia'], .experience" "experience";
  setitem "experience" experience;;
  qualification ← text_or_get soup "[class*='educacion'], [class*='formacion']"
                    "qualification";
  setitem "qualification" qualification;;
  career_level ← text_or_get soup "[class*='nivel'], .level" "career_level";
  setitem "career_level" career_level;;
  (* Apply email or url *)
  apply_section soup.

(** The body of the [try] of [enrich_with_detail]: a link that is no
    string makes [page.goto] raise. *)
Definition enrich_body (page : string → Visit) (job_url : value) : Py unit :=
  visit ← match job_url with
          | VStr url => mret (page url)
          | _ => py_raise
          end;
  call (goto visit);;
  soup ← call (content visit);
  enrich_page soup.

(** [enrich_with_detail(page, job)], before the exception is caught:
    the dictionary and whether the body raised. *)
Definition enrich_run (page : string → Visit) : Py unit :=
  ensure_fields CSV_FIELDS;;
  url ← get_opt "url";
  id ← get_opt "id";
  let job_url :=
    if truthy_opt url then default (VStr "") url
    else VStr (DETAIL_BASE_URL +:+ format_opt id) in
  enrich_body page job_url.

Definition enrich_with_detail (page : string → Visit)
    (job : gmap string value) : gmap string value :=
  final (enrich_run page) job.

(** What [save_to_csv] leaves: the files, what it returned (the
    filename, or [None]) unless it raised. *)
Definition saved : Type := gmap string string * outcome (option string).

(** [save_to_csv(jobs, filename=None)]; [stamp] is the file name made
    from the clock.  The function returns nothing and lets an exception
    of the writer through. *)
Definition save_to_csv (stamp : string) (jobs : list (gmap string value))
    (filename : option string) (files : gmap string string) : saved :=
  match jobs with
  | [] => (files, Ok None)
  | _ =>
      let filename := Text.or_else (default "" filename) stamp in
      let jobs := (final (ensure_fields CSV_FIELDS)) <$> jobs in
      let '(text, r) := dict_write CSV_FIELDS jobs in
      (<[filename := Files.encode Files.Utf8Sig text]> files,
       match r with Ok _ => Ok None | Raised => Raised end)
  end.

(** [clean_html(raw_html)] of a string *)
Definition clean_html (raw_html : string) : string :=
  Text.strip (remove_tags raw_html).

(** [main()]: [order] is the list made of the set of identifiers.  The
    call that would fetch the record of an identifier is commented out,
    so that the loop over the identifiers leaves [jobs] as it is. *)
Definition main {S} (site : Listing S) (order : gset string → list string)
    (page : string → Visit) (stamp : string) (files : gmap string string)
    : saved :=
  match order (job_ids (Scrape.get_job_ids_with_playwright site 15)) with
  | [] => (files, Ok None)
  | ids =>
      let jobs := foldl (λ jobs _, jobs) [] ids in
      let jobs := enrich_with_detail page <$> jobs in
      save_to_csv stamp jobs None files
  end.

End Full.

(** ** The browser (Playwright) on a listing of cards *)

Module Playwright.

(** The first element a locator matches: [count()], [inner_text()]
    and [get_attribute(name)]. *)
Record Element : Type := {
  count : outcome nat;
  inner_text : outcome string;
  get_attribute : string → outcome (option string);
}.

(** An element in which the code looks further: [inner_text()] and
    [locator(selector).first]. *)
Record Node : Type := {
  node_inner_text : outcome string;
  node_first : string → Element;
}.

(** A loaded page: [goto], the diagnostics [_wait_and_debug] runs,
    [locator(selector).count()] with [.all()], and
    [locator(selector).first]. *)
Record Page : Type := {
  page_goto : outcome unit;
  page_debug : outcome unit;
  page_all : string → outcome (list Node);
  page_first : string → Node;
}.

Definition no_element : Element := {|
  count := Ok 0%nat;
  inner_text := Raised;
  get_attribute := λ _, Raised;
|}.

(** A card or a dialog that shows [text] and matches no selector. *)
Definition text_node (text : string) : Node := {|
  node_inner_text := Ok text;
  node_first := λ _, no_element;
|}.

End Playwright.

(** [re.search(r'(\d+)\s*años?', s)] and its [group(1)]: the first run of
    digits that white space, if any, and then [año] follow; [run] is the
    run being read, its characters reversed. *)
Fixpoint search_years_go (run : list string) (chs : list string)
    : option string :=
  match chs with
  | [] => None
  | ch :: rest =>
      if Text.is_decimal ch then search_years_go (ch :: run) rest
      else match run with
           | [] => search_years_go [] rest
           | _ =>
               if Text.starts_with (Text.chars "año") (Text.lstrip_chars chs)
               then Some (Text.of_chars (rev run))
               else search_years_go [] rest
           end
  end.

Definition search_years (s : string) : option string :=
  search_years_go [] (Text.chars s).

(** ** combined_scraper.py *)

Module Combined.
Import Playwright.

Definition FIELDS : list string :=
  [ "source_site"; "title"; "company"; "description"; "category"; "type";
    "tag";
    "featured"; "featured_image"; "filled"; "urgent";
    "expiry_date"; "application_deadline_date"; "posting_date";
    "location"; "address"; "map_location";
    "salary"; "salary_type"; "max_salary";
    "experience"; "career_level"; "qualification"; "gender";
    "apply_type"; "apply_url"; "apply_email";
    "video_url"; "photos"; "url" ].

(** An entry of [selector_sets]: a list of selectors or one selector. *)
Inductive selector_set : Type :=
  | Selectors (selectors : list string)
  | Selector (selector : string).

Definition selector_str (selectors : selector_set) : string :=
  match selectors with
  | Selectors l => join ", " l
  | Selector s => s
  end.

Fixpoint _find_elements_debug (page : Page) (selector_sets : list selector_set)
    : list Node :=
  match selector_sets with
  | [] => []
  | selectors :: rest =>
      match page_all page (selector_str selectors) with
      | Ok elements =>
          if (0 <? length elements)%nat then elements
          else _find_elements_debug page rest
      | Raised => _find_elements_debug page rest
      end
  end.

Definition _init_job (site : string) : gmap string value :=
  <["urgent" := VBool false]>
    (<["filled" := VBool false]>
       (<["featured" := VBool false]>
          (<["source_site" := VStr site]> (dict_fromkeys FIELDS (VStr ""))))).

Definition elempleo_selector_sets : list selector_set :=
  [ Selectors [".js-joboffer-result"];
    Selectors ["article"];
    Selectors ["[class*=" +:+ Text.quoted "result" +:+ "]"];
    Selectors ["[class*=" +:+ Text.quoted "offer" +:+ "]"];
    Selectors ["[class*=" +:+ Text.quoted "job" +:+ "]"];
    Selectors ["div[class*=" +:+ Text.quoted "item" +:+ "]"] ].

Definition cities : list string :=
  ["San José"; "Heredia"; "Cartago"; "Alajuela"; "Limón"].

Definition is_salary_line (line : string) : bool :=
  Text.contains "₡" line || Text.contains "$" line ||
  Text.contains "colones" (Text.lower line).

(** The body of the [try] for one card, up to the test of the title. *)
Definition elempleo_card (card : Node) : Py unit :=
  card_text ← call (node_inner_text card);
  let lines := Text.stripped_lines card_text in
  when (2 <=? length lines)%nat
    (setitem "title" (nth 0 lines "");;
     setitem "company" (nth 1 lines "");;
     match List.find (Text.contains_any cities) lines with
     | Some line => setitem "location" line
     | None => mret tt
     end;;
     match List.find is_salary_line lines with
     | Some line => setitem "salary" line
     | None => mret tt
     end;;
     match search_years (Text.lower card_text) with
     | Some years => setitem "experience" (years +:+ " años")
     | None => mret tt
     end);;
  let link := node_first card "a" in
  n ← call (count link);
  when (0 <? n)%nat
    (href ← call (get_attribute link "href");
     match href with
     | Some href =>
         when (Text.nonempty href)
           (setitem "url"
              (if Text.startswith "http" href then href
               else "https://www.elempleo.com" +:+ href))
     | None => mret tt
     end);;
  setitem "apply_type" "email";;
  setitem "apply_email" "info@elempleo.com".

(** One turn of the loop over the cards: the record is appended when
    the body did not raise and the title is not empty. *)
Definition elempleo_turn (site : string) (jobs : list (gmap string value))
    (card : Node) : list (gmap string value) :=
  match (elempleo_card card;; getitem "title") (_init_job site) with
  | (job, Ok title) => if truthy title then jobs ++ [job] else jobs
  | (_, Raised) => jobs
  end.

(** [scrape_elempleo(page, max_jobs)]: [self.jobs] afterwards. *)
Definition scrape_elempleo (page : Page) (max_jobs : nat)
    (jobs : list (gmap string value)) : list (gmap string value) :=
  let site := "elempleo.com" in
  match page_goto page with
  | Raised => jobs
  | Ok _ =>
      match page_debug page with
      | Raised => jobs
      | Ok _ =>
          let cards := _find_elements_debug page elempleo_selector_sets in
          foldl (elempleo_turn site) jobs (take max_jobs cards)
      end
  end.

(** [save_to_csv(filename)]: the files and the value returned. *)
Definition save_to_csv (jobs : list (gmap string value)) (filename : string)
    (files : gmap string string) : gmap string string * option string :=
  match jobs with
  | [] => (files, None)
  | _ =>
      let '(text, r) := dict_write FIELDS jobs in
      (<[filename := Files.encode Files.Utf8Sig text]> files,
       match r with Ok _ => Some filename | Raised => None end)
  end.

(** *** The other three sites *)

(** Lines 184 to 188 and their like: the link of the card, made absolute
    with the address of the site. *)
Definition card_url (base : string) (card : Node) : Py unit :=
  let link := node_first card "a" in
  n ← call (count link);
  when (0 <? n)%nat
    (href ← call (get_attribute link "href");
     match href with
     | Some href =>
         when (Text.nonempty href)
           (setitem "url"
              (if Text.startswith "http" href then href else base +:+ href))
     | None => mret tt
     end).

Definition computrabajo_selector_sets : list selector_set :=
  [ Selectors ["article"];
    Selectors [".bRS"];
    Selectors ["[data-tracking]"];
    Selectors [".js-o-link"];
    Selectors ["[class*=" +:+ Text.quoted "result" +:+ "]"];
    Selectors ["div.box"] ].

Definition computrabajo_cities : list string :=
  ["San José"; "Heredia"; "Cartago"; "Alajuela"; "Costa Rica"].

Definition computrabajo_salary_line (line : string) : bool :=
  Text.contains "₡" line || Text.contains "$" line ||
  Text.contains "salario" (Text.lower line).

Definition computrabajo_date_line (line : string) : bool :=
  Text.contains "hace" (Text.lower line) || Text.contains "hoy" (Text.lower line).

(** The body of the [try] for one card of computrabajo, up to the test
    of the title; the loop over the lines has no [break]. *)
Definition computrabajo_card (card : Node) : Py unit :=
  card_text ← call (node_inner_text card);
  let lines := Text.stripped_lines card_text in
  when (2 <=? length lines)%nat
    (setitem "title" (nth 0 lines "");;
     setitem "company" (nth 1 lines "");;
     for_each lines (λ line,
       when (Text.contains_any computrabajo_cities line)
         (setitem "location" line);;
       when (computrabajo_salary_line line) (setitem "salary" line);;
       when (computrabajo_date_line line) (setitem "posting_date" line)));;
  card_url "https://cr.computrabajo.com" card.

Definition indeed_selector_sets : list selector_set :=
  [ Selectors ["li.job_seen_beacon"];
    Selectors ["div.job_seen_beacon"];
    Selectors ["div[data-jk]"];
    Selectors ["div.jobsearch-SerpJobCard"];
    Selectors ["div[class*=" +:+ Text.quoted "result" +:+ "]"];
    Selectors ["td.resultContent"] ].

Definition country_line (line : string) : bool :=
  Text.contains "Costa Rica" line ||
  Text.contains_any ["San José"; "Heredia"] line.

Definition indeed_salary_line (line : string) : bool :=
  (Text.contains "$" line || Text.contains "₡" line ||
   Text.contains "año" (Text.lower line)) &&
  Text.any_digit line.

(** The body of the [try] for one card of indeed. *)
Definition indeed_card (card : Node) : Py unit :=
  card_text ← call (node_inner_text card);
  let lines := Text.stripped_lines card_text in
  when (2 <=? length lines)%nat
    (setitem "title" (nth 0 lines "");;
     setitem "company" (nth 1 lines "");;
     for_each lines (λ line,
       when (country_line line) (setitem "location" line);;
       when (indeed_salary_line line) (setitem "salary" line));;
     when (3 <? length lines)%nat
       (setitem "description" (join " " (take 3 (drop 3 lines)))));;
  card_url "https://cr.indeed.com" card.

Definition jooble_selector_sets : list selector_set :=
  [ Selectors ["article"];
    Selectors ["div[class*=" +:+ Text.quoted "vacancy" +:+ "]"];
    Selectors ["div[class*=" +:+ Text.quoted "job" +:+ "]"];
    Selectors ["div[class*=" +:+ Text.quoted "result" +:+ "]"];
    Selectors ["[data-test*=" +:+ Text.quoted "vacancy" +:+ "]"] ].

Definition jooble_salary_line (line : string) : bool :=
  Text.contains "$" line || Text.contains "₡" line.

(** The body of the [try] for one card of jooble: one line is enough. *)
Definition jooble_card (card : Node) : Py unit :=
  card_text ← call (node_inner_text card);
  let lines := Text.stripped_lines card_text in
  when (1 <=? length lines)%nat
    (setitem "title" (nth 0 lines "");;
     setitem "company" (if (1 <? length lines)%nat then nth 1 lines "" else "");;
     for_each lines (λ line,
       when (country_line line) (setitem "location" line);;
       when (jooble_salary_line line) (setitem "salary" line)));;
  card_url "https://cr.jooble.org" card.

(** One turn of the loop over the cards of a site whose [try] has the
    body [body]. *)
Definition site_turn (body : Node → Py unit) (site : string)
    (jobs : list (gmap string value)) (card : Node)
    : list (gmap string value) :=
  match (body card;; getitem "title") (_init_job site) with
  | (job, Ok title) => if truthy title then jobs ++ [job] else jobs
  | (_, Raised) => jobs
  end.

(** [scrape_computrabajo], [scrape_indeed] and [scrape_jooble]:
    [self.jobs] afterwards. *)
Definition scrape_site (body : Node → Py unit) (site : string)
    (selector_sets : list selector_set) (page : Page) (max_jobs : nat)
    (jobs : list (gmap string value)) : list (gmap string value) :=
  match page_goto page with
  | Raised => jobs
  | Ok _ =>
      match page_debug page with
      | Raised => jobs
      | Ok _ =>
          let cards := _find_elements_debug page selector_sets in
          foldl (site_turn body site) jobs (take max_jobs cards)
      end
  end.

Definition scrape_computrabajo : Page → nat → list (gmap string value)
    → list (gmap string value) :=
  scrape_site computrabajo_card "computrabajo.com" computrabajo_selector_sets.

Definition scrape_indeed : Page → nat → list (gmap string value)
    → list (gmap string value) :=
  scrape_site indeed_card "indeed.com" indeed_selector_sets.

Definition scrape_jooble : Page → nat → list (gmap string value)
    → list (gmap string value) :=
  scrape_site jooble_card "jooble.org" jooble_selector_sets.

(** What the one browser page shows once it has gone to each site. *)
Record Sites : Type := {
  elempleo_page : Page;
  computrabajo_page : Page;
  indeed_page : Page;
  jooble_page : Page;
}.

(** [scrape_all_sites(max_per_site)]: [self.jobs] afterwards. *)
Definition scrape_all_sites (sites : Sites) (max_per_site : nat)
    (jobs : list (gmap string value)) : list (gmap string value) :=
  let jobs := scrape_elempleo (elempleo_page sites) max_per_site jobs in
  let jobs := scrape_computrabajo (computrabajo_page sites) max_per_site jobs in
  let jobs := scrape_indeed (indeed_page sites) max_per_site jobs in
  scrape_jooble (jooble_page sites) max_per_site jobs.

End Combined.

(** ** elempleo_scraper_simple.py *)

Module Simple.

(** A job card of the parsed page: [card.select_one(selector)]. *)
Record Card : Type := {
  card_select_one : string → option Bs4.Tag;
}.

(** The parsed page: [soup.select(selector)]. *)
Record Soup : Type := {
  select : string → list Card;
}.

Definition fieldnames : list string :=
  ["title"; "company"; "location"; "description"; "salary";
   "posting_date"; "url"].

(** [card.select_one(a) or card.select_one(b) or ...]: an element is
    always true. *)
Fixpoint first_element (card : Card) (selectors : list string)
    : option Bs4.Tag :=
  match selectors with
  | [] => None
  | sel :: rest =>
      match card_select_one card sel with
      | Some el => Some el
      | None => first_element card rest
      end
  end.

(** [job[k] = elem.get_text(strip=True)] when [elem] was found. *)
Definition set_text (k : string) (elem : option Bs4.Tag)
    (job : gmap string value) : gmap string value :=
  match elem with
  | Some el => <[k := VStr (Bs4.get_text_strip el)]> job
  | None => job
  end.

Definition _parse_job_card (card : Card) : gmap string value :=
  let job := dict_fromkeys fieldnames (VStr "") in
  (* Extract title *)
  let job :=
    match first_element card ["h2 a"; "h3 a"; ".job-title a"; "a.title"] with
    | Some title_elem =>
        let job := <["title" := VStr (Bs4.get_text_strip title_elem)]> job in
        let href := default "" (Bs4.tag_get title_elem "href") in
        if Text.nonempty href
        then <["url" := VStr (if Text.startswith "http" href then href
                              else "https://www.elempleo.com" +:+ href)]> job
        else job
    | None => job
    end in
  let job := set_text "company"
               (first_element card [".company"; ".company-name"; ".employer"]) job in
  let job := set_text "location"
               (first_element card [".location"; ".job-location"; ".place"]) job in
  let job := set_text "salary"
               (first_element card [".salary"; ".wage"; ".compensation"]) job in
  let job := set_text "posting_date"
               (first_element card [".date"; ".posted-date"; "time"]) job in
  match first_element card [".description"; ".job-desc"; ".summary"] with
  | Some desc_elem =>
      <["description" := VStr (Text.take 500 (Bs4.get_text_strip desc_elem))]> job
  | None => job
  end.

(** [soup.select(a) or soup.select(b) or ...]: the first list that is
    not empty, else the last one. *)
Fixpoint first_cards (soup : Soup) (selectors : list string) : list Card :=
  match selectors with
  | [] => []
  | sel :: rest =>
      match select soup sel with
      | [] => first_cards soup rest
      | cards => cards
      end
  end.

Definition card_selectors : list string :=
  [".card-offer"; ".job-item"; "article.job"; "[data-job-id]"; ".vacancy-card"].

(** One turn of the loop over the cards. *)
Definition card_turn (jobs : list (gmap string value)) (card : Card)
    : list (gmap string value) :=
  let job := _parse_job_card card in
  if truthy (default VNone (job !! "title")) then jobs ++ [job] else jobs.

(** [_extract_jobs_from_soup(soup)]: [self.jobs] afterwards and the
    number returned. *)
Definition _extract_jobs_from_soup (soup : Soup)
    (jobs : list (gmap string value)) : list (gmap string value) * nat :=
  let job_cards := first_cards soup card_selectors in
  match job_cards with
  | [] => (jobs, 0%nat)
  | _ => (foldl card_turn jobs job_cards, length job_cards)
  end.

(** [save_to_csv(filename)]: the files; nothing is returned. *)
Definition save_to_csv (jobs : list (gmap string value)) (filename : string)
    (files : gmap string string) : gmap string string :=
  match jobs with
  | [] => files
  | _ =>
      let '(text, _) := dict_write fieldnames jobs in
      <[filename := Files.encode Files.Utf8 text]> files
  end.

Definition base_url : string := "https://www.elempleo.com/cr/ofertas-empleo/".

(** The address of a page of the listing. *)
Definition page_url (page : nat) : string :=
  if (page =? 1)%nat then base_url
  else base_url +:+ "?page=" +:+ pretty page.

(** The loop over the pages; [get url] is [self.session.get(url)] with
    [raise_for_status()] and the parse of the answer.  An exception
    ends the loop, and so does a page without cards. *)
Fixpoint scrape_pages (get : string → outcome Soup) (pages : list nat)
    (jobs : list (gmap string value)) : list (gmap string value) :=
  match pages with
  | [] => jobs
  | page :: rest =>
      match get (page_url page) with
      | Raised => jobs
      | Ok soup =>
          let '(jobs, jobs_found) := _extract_jobs_from_soup soup jobs in
          if (jobs_found =? 0)%nat then jobs
          else scrape_pages get rest jobs
      end
  end.

(** [scrape(max_pages)]: [self.jobs] afterwards. *)
Definition scrape (get : string → outcome Soup) (max_pages : Z)
    (jobs : list (gmap string value)) : list (gmap string value) :=
  scrape_pages get (seq 1 (Z.to_nat max_pages)) jobs.

(** [main()]: three pages, then the file named after the clock. *)
Definition main (get : string → outcome Soup) (stamp : string)
    (files : gmap string string) : gmap string string :=
  let jobs := scrape get 3 [] in
  save_to_csv jobs ("elempleo_jobs_simple_" +:+ stamp +:+ ".csv") files.

End Simple.

(** The search of [line] for a day and a month (a digit, white space,
    then the name of a month) finds something. *)
Definition months : list string :=
  ["Oct"; "Nov"; "Dic"; "Jan"; "Feb"; "Mar"; "Apr"; "May"; "Jun"; "Jul";
   "Aug"; "Sep"].

Definition space_then_month (chs : list string) : bool :=
  match chs with
  | ch :: _ =>
      Text.is_space ch &&
      existsb (λ m, Text.starts_with (Text.chars m) (Text.lstrip_chars chs))
              months
  | [] => false
  end.

Fixpoint search_day_month_go (chs : list string) : bool :=
  match chs with
  | [] => false
  | ch :: rest =>
      (Text.is_decimal ch && space_then_month rest) || search_day_month_go rest
  end.

Definition search_day_month (s : string) : bool :=
  search_day_month_go (Text.chars s).

(** ** elempleo_scraper.py: the quick view *)

Module QuickView.
Import Playwright.

Definition fieldnames : list string :=
  ["title"; "company"; "location"; "description"; "salary";
   "posting_date"; "url"].

Definition class_has (word : string) : string :=
  "[class*=" +:+ Text.quoted word +:+ "]".

Definition modal_selectors : list string :=
  [ class_has "modal"; class_has "popup"; class_has "quick-view";
    "[role=" +:+ Text.quoted "dialog" +:+ "]"; ".overlay-content" ].

(** The loop over [modal_selectors]; a [count()] that raises leaves the
    whole extraction. *)
Fixpoint find_modal (page : Page) (selectors : list string)
    : outcome (option Node) :=
  match selectors with
  | [] => Ok None
  | sel :: rest =>
      match page_all page sel with
      | Raised => Raised
      | Ok found =>
          if (0 <? length found)%nat then Ok (Some (page_first page sel))
          else find_modal page rest
      end
  end.

(** The loop over the selectors of one field, each turn in its own
    [try]: the stripped text of the first element that is there and
    that [accept] takes. *)
Fixpoint cascade (modal : Node) (accept : string → bool)
    (selectors : list string) : option string :=
  match selectors with
  | [] => None
  | sel :: rest =>
      let elem := node_first modal sel in
      match count elem with
      | Ok n =>
          if (0 <? n)%nat then
            match inner_text elem with
            | Ok raw =>
                let text := Text.strip raw in
                if accept text then Some text else cascade modal accept rest
            | Raised => cascade modal accept rest
            end
          else cascade modal accept rest
      | Raised => cascade modal accept rest
      end
  end.

Definition set_found (k : string) (found : option string) : Py unit :=
  match found with
  | Some text => setitem k text
  | None => mret tt
  end.

Definition title_ok (text : string) : bool :=
  Text.nonempty text && (3 <? Text.len text)%nat.
Definition company_ok (text : string) : bool :=
  Text.nonempty text && (1 <? Text.len text)%nat.
Definition description_ok (text : string) : bool :=
  (100 <? Text.len text)%nat.
Definition salary_ok (text : string) : bool :=
  Text.nonempty text &&
  (Text.contains "₡" text || Text.contains "$" text ||
   Text.contains "confidencial" (Text.lower text)).
Definition date_ok (text : string) : bool :=
  Text.nonempty text &&
  (Text.contains "2025" text || Text.contains "2024" text ||
   Text.contains "Oct" text || Text.contains "hace" (Text.lower text)).

Definition salary_selectors : list string :=
  [".salary"; class_has "salario"; class_has "sueldo"].

Definition cities : list string :=
  ["San José"; "Heredia"; "Cartago"; "Alajuela"; "Limón"; "Guanacaste";
   "Puntarenas"].

(** Lines 270 to 276: a line of [lines[1:5]] that can be the company. *)
Definition company_line_ok (title : value) (line : string) : bool :=
  bool_decide (VStr line ≠ title) &&
  (3 <? Text.len line)%nat && (Text.len line <? 100)%nat &&
  negb (Text.contains_any ["publicado"; "vista"; "aplicar"] (Text.lower line)).

(** Lines 288 and 289: a line that can be the salary. *)
Definition salary_line_ok (line : string) : bool :=
  (Text.contains "₡" line || Text.contains "$" line ||
   Text.contains "confidencial" (Text.lower line)) &&
  (Text.any_digit line ||
   Text.contains "confidencial" (Text.lower line)).

Definition date_line_ok (line : string) : bool :=
  Text.contains "publicado" (Text.lower line) || search_day_month line.

(** Lines 266 to 298: the pass over the whole text of the dialog. *)
Definition text_fallback (modal : Node) : Py unit :=
  modal_text ← call (node_inner_text modal);
  let lines := Text.stripped_lines modal_text in
  company ← getitem "company";
  title ← getitem "title";
  when (negb (truthy company) && (1 <? length lines)%nat)
    (set_found "company"
       (List.find (company_line_ok title) (take 4 (drop 1 lines))));;
  location ← getitem "location";
  when (negb (truthy location))
    (set_found "location" (List.find (Text.contains_any cities) lines));;
  salary ← getitem "salary";
  when (negb (truthy salary))
    (set_found "salary" (List.find salary_line_ok lines));;
  posting_date ← getitem "posting_date";
  when (negb (truthy posting_date))
    (set_found "posting_date" (List.find date_line_ok lines)).

Definition title_selectors : list string :=
  ["h1"; "h2"; ".job-title"; class_has "title"].
Definition company_selectors : list string :=
  [".company"; ".company-name"; class_has "empresa"; class_has "company"].
Definition location_selectors : list string :=
  [".location"; class_has "ubicacion"; class_has "location"].
Definition desc_selectors : list string :=
  [".description"; ".job-description"; class_has "descripcion";
   "article"; ".content"].
Definition date_selectors : list string :=
  [".date"; ".posted-date"; "time"; class_has "fecha"; class_has "publicado"].

(** The outer [try] of [_extract_from_quick_view] once the dialog is
    chosen: the selectors of each field, then the pass over the text. *)
Definition extract_from_modal (modal : Node) : Py unit :=
  set_found "title" (cascade modal title_ok title_selectors);;
  set_found "company" (cascade modal company_ok company_selectors);;
  set_found "location" (cascade modal Text.nonempty location_selectors);;
  set_found "description" (cascade modal description_ok desc_selectors);;
  set_found "salary" (cascade modal salary_ok salary_selectors);;
  set_found "posting_date" (cascade modal date_ok date_selectors);;
  try_pass
    (let link := node_first modal
                   ("a[href*=" +:+ Text.quoted "/empleo/" +:+ "], a[href*="
                    +:+ Text.quoted "/oferta/" +:+ "]") in
     n ← call (count link);
     when (0 <? n)%nat
       (href ← call (get_attribute link "href");
        match href with
        | Some href =>
            when (Text.nonempty href)
              (setitem "url"
                 (if Text.startswith "http" href then href
                  else "https://www.elempleo.com" +:+ href))
        | None => mret tt
        end));;
  company ← getitem "company";
  location ← getitem "location";
  when (negb (truthy company) || negb (truthy location))
    (try_pass (text_fallback modal)).

(** The dialog the extraction reads: the first of [modal_selectors]
    that is there, else the body of the page. *)
Definition modal_of (page : Page) (found : option Node) : Node :=
  default (page_first page "body") found.

(** The body of the outer [try] of [_extract_from_quick_view]. *)
Definition extract_body (page : Page) : Py unit :=
  found ← call (find_modal page modal_selectors);
  extract_from_modal (modal_of page found).

Definition _extract_from_quick_view (page : Page) : gmap string value :=
  final (extract_body page) (dict_fromkeys fieldnames (VStr "")).

(** The listing with its quick view buttons; [S] is the state of the
    browser. *)
Record Site (S : Type) : Type := {
  site_goto : outcome S;
    (** [page.goto] and the first screenshot *)
  site_buttons : S → string → outcome nat;
    (** [len(page.locator(selector).all())] *)
  site_open : S → nat → outcome S;
    (** scroll to the button of that index, click it, take the
        screenshot *)
  site_page : S → Page;
  site_close : S → S;
    (** [_close_modal(page)], which catches what it raises *)
}.
Arguments site_goto {S}.
Arguments site_buttons {S}.
Arguments site_open {S}.
Arguments site_page {S}.
Arguments site_close {S}.

Definition quick_view_selectors : list string :=
  [ "button:has-text(" +:+ Text.quoted "Vista rápida" +:+ ")";
    "a:has-text(" +:+ Text.quoted "Vista rápida" +:+ ")";
    class_has "quick-view"; class_has "vista-rapida";
    "button[class*=" +:+ Text.quoted "quick" +:+ "]"; ".js-quick-view" ].

(** The loop over [quick_view_selectors]: the number of buttons of the
    first selector that finds some. *)
Fixpoint find_buttons {S} (site : Site S) (st : S) (selectors : list string)
    : nat :=
  match selectors with
  | [] => 0%nat
  | sel :: rest =>
      match site_buttons site st sel with
      | Ok n => if (0 <? n)%nat then n else find_buttons site st rest
      | Raised => find_buttons site st rest
      end
  end.

(** The loop [for idx in range(min(max_jobs, len(quick_view_buttons)))]. *)
Fixpoint clicks {S} (site : Site S) (idxs : list nat) (st : S)
    (jobs : list (gmap string value)) : list (gmap string value) :=
  match idxs with
  | [] => jobs
  | idx :: rest =>
      match site_buttons site st (nth 0 quick_view_selectors "") with
      | Raised => clicks site rest (site_close site st) jobs
      | Ok n =>
          if (n <=? idx)%nat then jobs
          else
            match site_open site st idx with
            | Raised => clicks site rest (site_close site st) jobs
            | Ok st' =>
                let job := _extract_from_quick_view (site_page site st') in
                let jobs :=
                  if truthy (default VNone (job !! "title"))
                  then jobs ++ [job] else jobs in
                clicks site rest (site_close site st') jobs
            end
      end
  end.

(** [scrape(max_jobs)]: [self.jobs] afterwards. *)
Definition scrape {S} (site : Site S) (max_jobs : nat)
    (jobs : list (gmap string value)) : list (gmap string value) :=
  match site_goto site with
  | Raised => jobs
  | Ok st =>
      let n := find_buttons site st quick_view_selectors in
      clicks site (seq 0 (min max_jobs n)) st jobs
  end.

(** [save_to_csv(filename)]: the files and the value returned. *)
Definition save_to_csv (jobs : list (gmap string value)) (filename : string)
    (files : gmap string string) : gmap string string * option string :=
  match jobs with
  | [] => (files, None)
  | _ =>
      let '(text, r) := dict_write fieldnames jobs in
      (<[filename := Files.encode Files.Utf8Sig text]> files,
       match r with Ok _ => Some filename | Raised => None end)
  end.

End QuickView.

(** ** Vocabulary of the statements and example inputs *)

(** A strategy that yields no card: its lookup raises or finds nothing. *)
Definition no_match (page : Playwright.Page) (selectors : Combined.selector_set)
    : Prop :=
  Playwright.page_all page (Combined.selector_str selectors) = Raised ∨
  Playwright.page_all page (Combined.selector_str selectors) = Ok [].

(** A page on which the first strategy finds nothing and the second and
    the third both match. *)
Definition two_strategies_page : Playwright.Page := {|
  Playwright.page_goto := Ok tt;
  Playwright.page_debug := Ok tt;
  Playwright.page_all := λ sel,
    if String.eqb sel "article"
    then Ok [Playwright.text_node "Analista"; Playwright.text_node "Cajero"]
    else if String.eqb sel (Combined.selector_str
                              (Combined.Selectors [".js-joboffer-result"]))
    then Ok []
    else Ok [Playwright.text_node "Otro"];
  Playwright.page_first := λ _, Playwright.text_node "";
|}.

(** The most advance steps [get_job_ids_with_playwright_auto] makes with
    the bound [max_pages]: the test of the bound comes after the click. *)
Definition most_clicks (max_pages : Z) : nat := Z.to_nat (Z.max 1 max_pages).

(** Every page of the listing shows a job button. *)
Definition always_buttons {S} (site : Listing S) : Prop :=
  ∀ st, ∃ b bs, listing_buttons site st = Ok (b :: bs).

(** Every page of the listing shows a next link that can be clicked. *)
Definition always_next {S} (site : Listing S) : Prop :=
  ∀ st, ∃ anchors i st',
    listing_anchors site st = Ok anchors ∧
    AllScraperIds.find_next 0 anchors = Ok (Some i) ∧
    listing_click site st i = Ok st'.

(** No scroll and no snapshot of the listing raises. *)
Definition never_raises {S} (site : Listing S) : Prop :=
  ∀ st, (∃ st', listing_wheel site st = Ok st') ∧
        (∃ buttons, listing_buttons site st = Ok buttons).

(** The numbers of a list never go down. *)
Definition nondecreasing (l : list nat) : Prop :=
  ∀ i j x y, (i ≤ j)%nat → l !! i = Some x → l !! j = Some y → (x ≤ y)%nat.

(** A listing whose every page shows the same button and a next link. *)
Definition same_page_site : Listing nat := {|
  listing_goto := Ok 0%nat;
  listing_buttons := λ _, Ok ["1001"];
  listing_anchors := λ _, Ok [Ok "Inicio"; Ok " Siguiente "];
  listing_click := λ n _, Ok (S n);
  listing_wheel := λ n, Ok (S n);
|}.

(** What a run leaves from an iteration on: the set it holds is kept,
    and the counts printed from there on start at its size and never go
    down. *)
Definition grows_from (ids : gset string) (log : list nat) (r : Discovery)
    : Prop :=
  ids ⊆ job_ids r ∧
  ∃ more, printed r = log ++ more ∧
          Forall (le (size ids)) more ∧ StronglySorted le more.

(** The title of a record is not empty. *)
Definition has_title (job : gmap string value) : bool :=
  truthy (default VNone (job !! "title")).

(** What one card of combined_scraper adds to [self.jobs]: its record,
    unless the body raised or the title is empty. *)
Definition kept_record (site : string) (card : Playwright.Node)
    : option (gmap string value) :=
  match (Combined.elempleo_card card;; getitem "title") (Combined._init_job site) with
  | (job, Ok title) => if truthy title then Some job else None
  | (_, Raised) => None
  end.

(** [safe_in I c]: from a dictionary with the property [I] the
    computation does not raise. *)
Definition safe_in {A} (I : gmap string value → Prop) (c : Py A) : Prop :=
  ∀ job, I job → ∃ a, (c job).2 = Ok a.

(** [returns P c Q]: from a dictionary with the property [P] the
    computation returns, without raising, a result and a dictionary
    with the property [Q]. *)
Definition returns {A} (P : gmap string value → Prop) (c : Py A)
    (Q : A → gmap string value → Prop) : Prop :=
  ∀ job, P job → ∃ a job', c job = (job', Ok a) ∧ Q a job'.

(** The record of the quick view has its seven keys and this salary. *)
Definition quick_view_salary (salary : string) (job : gmap string value)
    : Prop :=
  dom job = list_to_set QuickView.fieldnames ∧
  job !! "salary" = Some (VStr salary).

(** [line] is the first of [lines] that [ok] takes. *)
Definition first_line (ok : string → bool) (lines : list string)
    (line : string) : Prop :=
  ∃ before after,
    lines = before ++ line :: after ∧
    Forall (λ l, ok l = false) before ∧ ok line = true.

(** A page, a card or a dialog that shows these lines of text and on
    which no selector finds an element. *)
Definition text_of (lines : list string) : string :=
  join (String Text.nl "") lines.

Definition text_only_page (lines : list string) : Playwright.Page := {|
  Playwright.page_goto := Ok tt;
  Playwright.page_debug := Ok tt;
  Playwright.page_all := λ _, Ok [];
  Playwright.page_first := λ _, Playwright.text_node (text_of lines);
|}.

(** The apply type [enrich_with_detail] writes for the apply url and the
    apply email of a record. *)
Definition apply_type_of (job : gmap string value) : string :=
  if truthy_opt (job !! "apply_url") then "website"
  else if truthy_opt (job !! "apply_email") then "email"
  else "".

(** The selector of the apply link of elempleo_full_scraper. *)
Definition sel_apply_link : string :=
  "a[href*='apply'], a[href*='postulate'], a[href*='mailto:'], a.button.apply".

(** A detail page whose text holds an email address and which shows an
    apply link. *)
Definition email_and_link_soup : Bs4.Soup := {|
  Bs4.select_one := λ sel,
    if String.eqb sel sel_apply_link
    then Some {| Bs4.get_text_strip := "Aplicar";
                 Bs4.get_text_lines := "Aplicar";
                 Bs4.attrs := {["href" := "https://www.elempleo.com/cr/apply/1001"]};
                 Bs4.children := [];
                 Bs4.find_next_span := None |}
    else None;
  Bs4.select := λ _, [];
  Bs4.find := λ _, None;
  Bs4.find_class := λ _ _, None;
  Bs4.find_meta := λ _, None;
  Bs4.search_email := Some "empleos@empresa.cr";
|}.

(** A visit that loads this page. *)
Definition loaded (soup : Bs4.Soup) : string → Visit :=
  λ _, {| goto := Ok tt; content := Ok soup |}.

(** The selector of the date of elempleo_full_scraper. *)
Definition sel_date : string := "time, [class*='fecha'], [class*='publicado']".

(** A detail page that shows an explicit date. *)
Definition dated_soup : Bs4.Soup := {|
  Bs4.select_one := λ sel,
    if String.eqb sel sel_date then Some (Bs4.text_tag "2027-01-15") else None;
  Bs4.select := λ _, [];
  Bs4.find := λ _, None;
  Bs4.find_class := λ _ _, None;
  Bs4.find_meta := λ _, None;
  Bs4.search_email := None;
|}.

(** The record has no date yet under this key. *)
Definition no_date (job : gmap string value) (k : string) : Prop :=
  job !! k = None ∨ job !! k = Some (VStr "").

(** The reader has just read the cell [c] of a record whose earlier
    cells are [acc], the last one first. *)
Definition cell_read (r : Csv.reader) (c : string) (acc : list string) : Prop :=
  Csv.r_cells r = acc ∧
  ((Csv.r_mode r = Csv.StartField ∧ Csv.r_cell r = "" ∧ c = "") ∨
   (Csv.r_mode r = Csv.InField ∧ String.rev (Csv.r_cell r) = c) ∨
   (Csv.r_mode r = Csv.QuoteInQuotedField ∧ String.rev (Csv.r_cell r) = c)).

(** The row the writer makes of a record: the cell of each field name in
    turn, empty for a key that is missing. *)
Definition row_of (fieldnames : list string) (job : gmap string value)
    : list string :=
  (λ key, default "" (cell_of <$> job !! key)) <$> fieldnames.



(** The cell of row [i] and column [j]. *)
Definition cell_at (rows : list (list string)) (i j : nat) : option string :=
  row ← rows !! i; row !! j.

(** The bytes of a file, decoded and read by the csv reader, give the
    header [fieldnames] and then one row per record of [jobs], in their
    order; each row has as many cells as the header, and the cell of a
    field is the text of the value the record holds under it, empty for
    a field the record lacks. *)
Definition reads_back (e : Files.encoding) (fieldnames : list string)
    (jobs : list (gmap string value)) (bytes : string) : Prop :=
  ∃ rows,
    Csv.read (Files.decode e bytes) = fieldnames :: rows ∧
    length rows = length jobs ∧
    Forall (λ row, length row = length fieldnames) rows ∧
    ∀ i j job k, jobs !! i = Some job → fieldnames !! j = Some k →
      cell_at rows i j = Some (default "" (cell_of <$> job !! k)).

(** What one card adds to [self.jobs] at a site whose [try] has the
    body [body]: its record, unless the body raised or the title is
    empty. *)
Definition kept (body : Playwright.Node → Py unit) (site : string)
    (card : Playwright.Node) : option (gmap string value) :=
  match (body card;; getitem "title") (Combined._init_job site) with
  | (job, Ok title) => if truthy title then Some job else None
  | (_, Raised) => None
  end.

(** A property of what a record holds under a key. *)
Definition on_key (k : string) (P : option value → Prop)
    (job : gmap string value) : Prop :=
  P (job !! k).

(** A link that is empty or absolute. *)
Definition absolute_or_empty (o : option value) : Prop :=
  ∃ s, o = Some (VStr s) ∧ (s = "" ∨ Text.startswith "http" s = true).

(** The names of the four sites. *)
Definition site_names : list string :=
  ["elempleo.com"; "computrabajo.com"; "indeed.com"; "jooble.org"].

(** A record of the combined scraper as it is accumulated. *)
Definition combined_record (job : gmap string value) : Prop :=
  dom job = list_to_set Combined.FIELDS ∧
  has_title job = true ∧
  (∃ site, site ∈ site_names ∧ job !! "source_site" = Some (VStr site)) ∧
  on_key "url" absolute_or_empty job.

(** The last of [lines] that [ok] takes, as the value of a field. *)
Definition last_line (ok : string → bool) (lines : list string)
    (old : option value) : option value :=
  match last (filter (λ line, ok line = true) lines) with
  | Some line => Some (VStr line)
  | None => old
  end.

(** A card that shows [text] and has no link. *)
Definition card_of_lines (lines : list string) : Playwright.Node :=
  Playwright.text_node (text_of lines).

(** The lookup of the link of a card does not raise. *)
Definition link_readable (card : Playwright.Node) : Prop :=
  ∃ n, Playwright.count (Playwright.node_first card "a") = Ok n ∧
       ((0 < n)%nat → ∃ href,
          Playwright.get_attribute (Playwright.node_first card "a") "href"
          = Ok href).

(** The page [st] lets the pagination go on to [st']: it shows a job
    button, a next link is found among its anchors, and the click on
    that link leads to [st']. *)
Definition advances_to {S} (site : Listing S) (st st' : S) : Prop :=
  ∃ b bs anchors i,
    listing_buttons site st = Ok (b :: bs) ∧
    listing_anchors site st = Ok anchors ∧
    AllScraperIds.find_next 0 anchors = Ok (Some i) ∧
    listing_click site st i = Ok st'.

(** The pagination ends on the page [st], and why: the snapshot shows no
    job button, no next link is found, or the browser raises on the
    snapshot, on the anchors or on the click. *)
Definition ends_at {S} (site : Listing S) (st : S) (why : stop) : Prop :=
  (listing_buttons site st = Ok [] ∧ why = NoButtons) ∨
  (listing_buttons site st = Raised ∧ why = Error) ∨
  (∃ b bs, listing_buttons site st = Ok (b :: bs) ∧
     ((listing_anchors site st = Raised ∧ why = Error) ∨
      (∃ anchors, listing_anchors site st = Ok anchors ∧
         ((AllScraperIds.find_next 0 anchors = Ok None ∧ why = NoNext) ∨
          (AllScraperIds.find_next 0 anchors = Raised ∧ why = Error) ∨
          (∃ i, AllScraperIds.find_next 0 anchors = Ok (Some i) ∧
                listing_click site st i = Raised ∧ why = Error))))).

(** [k] clicks lead from the page [st] to the page [st']. *)
Fixpoint reaches {S} (site : Listing S) (st : S) (k : nat) (st' : S) : Prop :=
  match k with
  | O => st' = st
  | Datatypes.S k' => ∃ st1, advances_to site st st1 ∧ reaches site st1 k' st'
  end.

(** A listing of three pages with a job button each and a next link,
    whose text ends in a no-break space; the fourth page shows no job
    button. *)
Definition four_page_site : Listing nat := {|
  listing_goto := Ok 0%nat;
  listing_buttons := λ n,
    if (n <? 3)%nat then Ok ["100" +:+ pretty n] else Ok [];
  listing_anchors := λ _,
    Ok [Ok "Inicio";
        Ok ("Siguiente" +:+ String (ascii_of_nat 194) (String (ascii_of_nat 160) ""))];
  listing_click := λ n _, Ok (Datatypes.S n);
  listing_wheel := λ n, Ok (Datatypes.S n);
|}.

(** The dialogs that the quick view loop opens, in the order in which
    it opens them: a click that raises opens none, and the loop ends
    when the button of the turn is no longer there. *)
Fixpoint quick_views {S} (site : QuickView.Site S) (idxs : list nat) (st : S)
    : list Playwright.Page :=
  match idxs with
  | [] => []
  | idx :: rest =>
      match QuickView.site_buttons site st
              (nth 0 QuickView.quick_view_selectors "") with
      | Raised => quick_views site rest (QuickView.site_close site st)
      | Ok n =>
          if (n <=? idx)%nat then []
          else
            match QuickView.site_open site st idx with
            | Raised => quick_views site rest (QuickView.site_close site st)
            | Ok st' =>
                QuickView.site_page site st'
                :: quick_views site rest (QuickView.site_close site st')
            end
      end
  end.

(** A listing on which the first strategy matches two cards: one shows
    a title and a company, the other a single line. *)
Definition two_cards_page : Playwright.Page := {|
  Playwright.page_goto := Ok tt;
  Playwright.page_debug := Ok tt;
  Playwright.page_all := λ sel,
    if String.eqb sel ".js-joboffer-result"
    then Ok [card_of_lines ["Analista"; "ACME"]; card_of_lines ["Sin empresa"]]
    else Ok [];
  Playwright.page_first := λ _, Playwright.text_node "";
|}.

(** The address [enrich_with_detail] visits for a record: its link when
    it has one, else the address made of its identifier; none when the
    link is true and no string. *)
Definition detail_url (job : gmap string value) : option string :=
  match (if truthy_opt (job !! "url") then default (VStr "") (job !! "url")
         else VStr (Full.DETAIL_BASE_URL +:+ Full.format_opt (job !! "id")))
  with
  | VStr url => Some url
  | _ => None
  end.

(** The salary a record holds can be searched for numbers: it is not
    the truth value [True]. *)
Definition salary_reads (job : gmap string value) : Prop :=
  job !! "salary" ≠ Some (VBool true).

(** The value of a field of the schema once the missing fields are
    filled in. *)
Definition filled (job : gmap string value) (k : string) : value :=
  default (VStr "") (job !! k).

(** The page shows no apply link with a target. *)
Definition no_apply_link (soup : Bs4.Soup) : Prop :=
  Bs4.select_one soup sel_apply_link = None ∨
  ∃ link, Bs4.select_one soup sel_apply_link = Some link ∧
          (Bs4.tag_get link "href" = None ∨ Bs4.tag_get link "href" = Some "").

(** * Properties *)

Local Open Scope nat_scope.


(** ** Dictionaries *)

Lemma dict_fromkeys_cons {V} k (keys : list string) (v : V) :
  dict_fromkeys (k :: keys) v = <[k:=v]> (dict_fromkeys keys v).
Proof. reflexivity. Qed.

Lemma dom_dict_fromkeys {V} (keys : list string) (v : V) :
  dom (dict_fromkeys keys v) = list_to_set keys.
Proof.
  induction keys as [|k keys IH].
  - apply dom_empty_L.
  - rewrite dict_fromkeys_cons, dom_insert_L, IH. done.
Qed.

Lemma lookup_dict_fromkeys {V} (keys : list string) (v : V) k :
  k ∈ keys → dict_fromkeys keys v !! k = Some v.
Proof.
  induction keys as [|k' keys IH].
  - intros H. by apply elem_of_nil in H.
  - intros H. rewrite dict_fromkeys_cons.
    destruct (decide (k' = k)) as [->|Hne].
    + by rewrite lookup_insert_eq.
    + rewrite lookup_insert_ne by done. apply IH.
      apply elem_of_cons in H as [Heq|Hin]; [congruence|done].
Qed.

(** Writing to a key that is already there leaves the key set alone. *)
Lemma dom_insert_member {V} (m : gmap string V) k v :
  k ∈ dom m → dom (<[k:=v]> m) = dom m.
Proof. intros H. rewrite dom_insert_L. apply subseteq_union_1_L. by apply singleton_subseteq_l. Qed.

(** ** Invariants of computations *)

Section keeps.
Context (I : gmap string value → Prop).

Lemma keeps_ret {A} (a : A) : keeps I (mret a).
Proof. intros job H. exact H. Qed.

Lemma keeps_raise {A} : keeps I (@py_raise A).
Proof. intros job H. exact H. Qed.

Lemma keeps_call {A} (r : outcome A) : keeps I (call r).
Proof. intros job H. exact H. Qed.

Lemma keeps_get k d : keeps I (get k d).
Proof. intros job H. exact H. Qed.

Lemma keeps_has_key k : keeps I (has_key k).
Proof. intros job H. exact H. Qed.

Lemma keeps_getitem k : keeps I (getitem k).
Proof. intros job H. unfold getitem. by destruct (job !! k). Qed.

Lemma keeps_bind {A B} (c : Py A) (k : A → Py B) :
  keeps I c → (∀ a, keeps I (k a)) → keeps I (c ≫= k).
Proof.
  intros Hc Hk job H. unfold mbind, Py_bind, py_bind.
  specialize (Hc job H). destruct (c job) as [job' [|a]]; simpl in *.
  - exact Hc.
  - by apply Hk.
Qed.

Lemma keeps_try c : keeps I c → keeps I (try_pass c).
Proof.
  intros Hc job H. unfold try_pass. specialize (Hc job H).
  by destruct (c job) as [job' [|[]]].
Qed.

Lemma keeps_when b c : keeps I c → keeps I (when b c).
Proof. intros Hc. destruct b; [exact Hc|apply keeps_ret]. Qed.

Lemma keeps_for_each {A} (xs : list A) body :
  (∀ x, keeps I (body x)) → keeps I (for_each xs body).
Proof.
  intros Hb. induction xs as [|x xs IH]; simpl.
  - apply keeps_ret.
  - apply keeps_bind; [apply Hb|intros _; exact IH].
Qed.
End keeps.

(** A write to a key of the schema keeps the key set. *)
Lemma keeps_dom_setitem (K : gset string) k v :
  k ∈ K → keeps (λ job, dom job = K) (setitem k v).
Proof.
  intros Hk job H. simpl. rewrite dom_insert_L, H.
  apply subseteq_union_1_L. by apply singleton_subseteq_l.
Qed.

(** A write to another key keeps the value of a key. *)
Lemma keeps_lookup_setitem k0 (o : option value) k v :
  k ≠ k0 → keeps (λ job, job !! k0 = o) (setitem k v).
Proof. intros Hne job H. simpl. by rewrite lookup_insert_ne. Qed.

Lemma keeps_get_opt (I : gmap string value → Prop) k : keeps I (get_opt k).
Proof. intros job H. exact H. Qed.

(** Writing the value a key already has keeps it. *)
Lemma keeps_lookup_setitem_same k (v : value) :
  keeps (λ job, job !! k = Some v) (setitem k v).
Proof. intros job _. simpl. apply lookup_insert_eq. Qed.

Lemma elem_of_schema (k : string) (fields : list string) :
  k ∈ fields → k ∈ (list_to_set fields : gset string).
Proof. apply elem_of_list_to_set. Qed.

(** [k] is one of the listed fields. *)
Ltac in_list :=
  repeat first [apply list_elem_of_here | apply list_elem_of_further].

Ltac in_schema := apply elem_of_schema; in_list.

Lemma keeps_True {A} (c : Py A) : keeps (λ _, True) c.
Proof. done. Qed.

(** One step through a computation for an invariant of the dictionary. *)
Ltac keeps_step :=
  lazymatch goal with
  | |- keeps (λ _, True) _ => apply keeps_True
  | |- keeps _ (mbind _ _) => apply keeps_bind; [|intros ?]
  | |- keeps _ (mret _) => apply keeps_ret
  | |- keeps _ py_raise => apply keeps_raise
  | |- keeps _ (call _) => apply keeps_call
  | |- keeps _ (get _ _) => apply keeps_get
  | |- keeps _ (get_opt _) => apply keeps_get_opt
  | |- keeps _ (has_key _) => apply keeps_has_key
  | |- keeps _ (getitem _) => apply keeps_getitem
  | |- keeps _ (when false _) => apply keeps_ret
  | |- keeps _ (when _ _) => apply keeps_when
  | |- keeps _ (try_pass _) => apply keeps_try
  | |- keeps _ (for_each _ _) => apply keeps_for_each; intros ?
  | |- keeps _ (setitem _ _) =>
      first [ apply keeps_dom_setitem; in_schema
            | apply keeps_lookup_setitem; discriminate
            | apply keeps_lookup_setitem_same ]
  | |- keeps _ (match ?x with _ => _ end) => destruct x
  end.

Ltac keeps_all := cbv zeta; repeat keeps_step.

(** ** all_scraper.py: the record of a detail page *)

Lemma get_job_details_raised today page job_url :
  goto (page job_url) = Raised ∨ content (page job_url) = Raised →
  AllScraper.get_job_details today page job_url
  = dict_fromkeys AllScraper.HEADERS (VStr "").
Proof.
  unfold AllScraper.get_job_details, AllScraper.get_job_details_body, final.
  intros [H|H]; cbn; unfold py_bind, call; rewrite H; [done|].
  by destruct (goto (page job_url)).
Qed.

Lemma get_job_details_loaded today page job_url soup :
  goto (page job_url) = Ok tt → content (page job_url) = Ok soup →
  AllScraper.get_job_details today page job_url
  = final (AllScraper.extract_details today soup)
          (dict_fromkeys AllScraper.HEADERS (VStr "")).
Proof.
  unfold AllScraper.get_job_details, AllScraper.get_job_details_body, final.
  intros Hg Hc. cbn. unfold py_bind, call. by rewrite Hg, Hc.
Qed.

Lemma extract_details_dom today soup :
  keeps (λ job, dom job = list_to_set AllScraper.HEADERS)
        (AllScraper.extract_details today soup).
Proof.
  unfold AllScraper.extract_details, AllScraper.tag_item. keeps_all.
Qed.

Lemma get_job_details_dom today page job_url :
  dom (AllScraper.get_job_details today page job_url)
  = list_to_set AllScraper.HEADERS.
Proof.
  assert (keeps (λ job, dom job = list_to_set AllScraper.HEADERS)
            (AllScraper.get_job_details_body today (page job_url))) as Hk.
  { unfold AllScraper.get_job_details_body. keeps_step; [keeps_step|].
    keeps_step; [keeps_step|]. apply extract_details_dom. }
  apply Hk, dom_dict_fromkeys.
Qed.

Lemma keeps_conj {A} (I J : gmap string value → Prop) (c : Py A) :
  keeps I c → keeps J c → keeps (λ job, I job ∧ J job) c.
Proof. intros HI HJ job [??]. split; [by apply HI|by apply HJ]. Qed.

(** Reading a key whose value the invariant fixes. *)
Lemma keeps_bind_getitem {B} (I : gmap string value → Prop) k v
    (c : value → Py B) :
  (∀ job, I job → job !! k = Some v) → keeps I (c v) →
  keeps I (getitem k ≫= c).
Proof.
  intros Hk Hc job H. unfold mbind, Py_bind, py_bind, getitem.
  rewrite (Hk job H). by apply Hc.
Qed.

(** The address is a copy of the location. *)
Lemma extract_details_no_location today soup :
  Bs4.select_one soup AllScraper.sel_location = None →
  keeps (λ job, job !! "_job_location" = Some (VStr "") ∧
                job !! "_job_address" = Some (VStr ""))
        (AllScraper.extract_details today soup).
Proof.
  intros Hnone.
  unfold AllScraper.extract_details, AllScraper.extract_text, AllScraper.tag_item.
  rewrite Hnone. cbv beta iota zeta.
  repeat lazymatch goal with
    | |- keeps _ (getitem "_job_location" ≫= _) =>
        apply (keeps_bind_getitem _ _ (VStr "")); [by intros job [??]|]
    | |- keeps _ (setitem _ _) => apply keeps_conj; keeps_step
    | |- _ => keeps_step
    end.
Qed.

Lemma extract_details_missed today soup f miss :
  (f, miss) ∈ AllScraper.looked_up → miss soup = true →
  final (AllScraper.extract_details today soup)
        (dict_fromkeys AllScraper.HEADERS (VStr "")) !! f = Some (VStr "").
Proof.
  intros Hin Hmiss.
  assert (∀ k, k ∈ AllScraper.HEADERS →
            dict_fromkeys AllScraper.HEADERS (VStr "") !! k = Some (VStr ""))
    as Hinit by (intros k; apply lookup_dict_fromkeys).
  unfold AllScraper.looked_up in Hin.
  repeat (apply elem_of_cons in Hin as [Hin|Hin];
          [injection Hin as -> ->; unfold AllScraper.missing in Hmiss|]);
    [..|by apply elem_of_nil in Hin].
  all: match type of Hmiss with
       | match ?o with _ => _ end = true =>
           destruct o eqn:Hnone; [discriminate|]
       end.
  9: { apply (extract_details_no_location today soup Hnone).
       split; apply Hinit; in_list. }
  all: match goal with
       | |- final ?c ?j !! ?k = Some ?v =>
           enough (keeps (λ job, job !! k = Some v) c) as Hk;
           [apply Hk, Hinit; in_list|]
       end.
  all: unfold AllScraper.extract_details, AllScraper.extract_text,
         AllScraper.tag_item.
  all: try apply head_None in Hnone.
  all: rewrite ?Hnone; cbv beta iota zeta.
  all: cbn [Text.nonempty fmap list_fmap List.find]; keeps_all.
Qed.

(** ** combined_scraper.py: the record of a card *)

Lemma init_job_dom site :
  dom (Combined._init_job site) = list_to_set Combined.FIELDS.
Proof.
  unfold Combined._init_job.
  rewrite !dom_insert_L, dom_dict_fromkeys.
  repeat (rewrite (subseteq_union_1_L {[_]} (list_to_set Combined.FIELDS))
            by (apply singleton_subseteq_l; in_schema)).
  reflexivity.
Qed.

Lemma elempleo_card_dom card :
  keeps (λ job, dom job = list_to_set Combined.FIELDS)
        (Combined.elempleo_card card;; getitem "title").
Proof. unfold Combined.elempleo_card. keeps_all. Qed.

Lemma elempleo_turn_all (P : gmap string value → Prop) site jobs card :
  (∀ (c : Py value) , c = (Combined.elempleo_card card;; getitem "title") →
     P (c (Combined._init_job site)).1) →
  Forall P jobs → Forall P (Combined.elempleo_turn site jobs card).
Proof.
  intros Hnew Hjobs. unfold Combined.elempleo_turn.
  specialize (Hnew _ eq_refl).
  destruct ((Combined.elempleo_card card;; getitem "title")
              (Combined._init_job site)) as [job [|title]]; [done|].
  destruct (truthy title); [|done].
  apply Forall_app; split; [done|]. by apply Forall_singleton.
Qed.

Lemma foldl_Forall {A B} (P : A → Prop) (f : list A → B → list A) xs acc :
  (∀ acc x, Forall P acc → Forall P (f acc x)) →
  Forall P acc → Forall P (foldl f acc xs).
Proof.
  intros Hf. revert acc. induction xs as [|x xs IH]; intros acc Hacc; simpl.
  - exact Hacc.
  - apply IH. by apply Hf.
Qed.

Lemma scrape_elempleo_all (P : gmap string value → Prop) page max_jobs jobs :
  (∀ card, P ((Combined.elempleo_card card;; getitem "title")
                (Combined._init_job "elempleo.com")).1) →
  Forall P jobs → Forall P (Combined.scrape_elempleo page max_jobs jobs).
Proof.
  intros Hnew Hjobs. unfold Combined.scrape_elempleo.
  destruct (Playwright.page_goto page); [done|].
  destruct (Playwright.page_debug page); [done|].
  apply foldl_Forall; [|done].
  intros acc card Hacc. apply elempleo_turn_all; [|done].
  intros c ->. apply Hnew.
Qed.

Lemma scrape_elempleo_dom page max_jobs job :
  job ∈ Combined.scrape_elempleo page max_jobs [] →
  dom job = list_to_set Combined.FIELDS.
Proof.
  revert job. apply Forall_forall.
  apply scrape_elempleo_all; [|constructor].
  intros card. apply elempleo_card_dom, init_job_dom.
Qed.

Lemma init_job_empty site f :
  f ∈ Combined.FIELDS →
  f ∉ ["source_site"; "featured"; "filled"; "urgent"] →
  Combined._init_job site !! f = Some (VStr "").
Proof.
  intros Hin Hout. unfold Combined._init_job.
  rewrite !lookup_insert_ne.
  - by apply lookup_dict_fromkeys.
  - intros <-. apply Hout. in_list.
  - intros <-. apply Hout. in_list.
  - intros <-. apply Hout. in_list.
  - intros <-. apply Hout. in_list.
Qed.

(** C1 (as amended).  The record of field extraction has exactly the
    fields of the schema as its keys, whatever the page holds and
    wherever an exception is caught: [get_job_details] of all_scraper
    returns a dictionary whose key set is HEADERS, and every record that
    combined_scraper accumulates from [_init_job] has the key set FIELDS.
    When the visit raises, every field of [get_job_details] is the empty
    string; when the page loads, every field that is read from a lookup
    ([looked_up]) is the empty string if its lookup found nothing.
    [_init_job] sets every field to the empty string except the source
    site and the three flags. *)
Theorem job_record_keys :
  (∀ today page job_url,
     dom (AllScraper.get_job_details today page job_url)
     = list_to_set AllScraper.HEADERS) ∧
  (∀ today page job_url f,
     goto (page job_url) = Raised ∨ content (page job_url) = Raised →
     f ∈ AllScraper.HEADERS →
     AllScraper.get_job_details today page job_url !! f = Some (VStr "")) ∧
  (∀ today page job_url soup f miss,
     goto (page job_url) = Ok tt → content (page job_url) = Ok soup →
     (f, miss) ∈ AllScraper.looked_up → miss soup = true →
     AllScraper.get_job_details today page job_url !! f = Some (VStr "")) ∧
  (∀ site,
     dom (Combined._init_job site) = list_to_set Combined.FIELDS ∧
     ∀ f, f ∈ Combined.FIELDS →
          f ∉ ["source_site"; "featured"; "filled"; "urgent"] →
          Combined._init_job site !! f = Some (VStr "")) ∧
  (∀ page max_jobs job,
     job ∈ Combined.scrape_elempleo page max_jobs [] →
     dom job = list_to_set Combined.FIELDS).
Proof.
  split; [exact get_job_details_dom|].
  split.
  { intros today page job_url f Hraised Hf.
    rewrite get_job_details_raised by done. by apply lookup_dict_fromkeys. }
  split.
  { intros today page job_url soup f miss Hg Hc Hin Hmiss.
    rewrite (get_job_details_loaded _ _ _ soup) by done.
    by apply (extract_details_missed today soup f miss). }
  split.
  { intros site. split; [apply init_job_dom|apply init_job_empty]. }
  exact scrape_elempleo_dom.
Qed.

Lemma job_record_keys_witness :
  AllScraper.get_job_details 739924%Z
    (λ _, {| goto := Ok tt; content := Ok Bs4.empty_soup |})
    "https://www.elempleo.com/cr/ofertas-trabajo/1001"
  !! "_job_title" = Some (VStr "").
Proof.
  apply (proj1 (proj2 (proj2 job_record_keys)) 739924%Z _ _ Bs4.empty_soup
           "_job_title"
           (λ soup, AllScraper.missing
                      (Bs4.select_one soup AllScraper.sel_title)));
    [reflexivity|reflexivity|in_list|reflexivity].
Defined.

(** C1 as stated fails: on a page where every lookup finds nothing, the
    span of the job type among them, the job type of all_scraper is not
    the empty string but the default of its classification. *)
Lemma job_type_defaults_without_span :
  let job := AllScraper.get_job_details 739924%Z
               (λ _, {| goto := Ok tt; content := Ok Bs4.empty_soup |})
               "https://www.elempleo.com/cr/ofertas-trabajo/1001" in
  Bs4.find Bs4.empty_soup "span" = None ∧
  job !! "_job_type" = Some (VStr "Tiempo completo") ∧
  job !! "_job_type" ≠ Some (VStr "").
Proof. vm_compute. split; [reflexivity|]. split; [reflexivity|discriminate]. Qed.

(** ** The cascade of card selectors *)

Lemma find_elements_first page before selectors after cards :
  Forall (no_match page) before →
  Playwright.page_all page (Combined.selector_str selectors) = Ok cards →
  cards ≠ [] →
  Combined._find_elements_debug page (before ++ selectors :: after) = cards.
Proof.
  intros Hbefore Hsel Hne.
  induction Hbefore as [|s before [Hs|Hs] _ IH]; simpl.
  - rewrite Hsel. by destruct cards.
  - by rewrite Hs.
  - by rewrite Hs.
Qed.

Lemma find_elements_none page sets :
  Forall (no_match page) sets → Combined._find_elements_debug page sets = [].
Proof.
  induction 1 as [|s sets [Hs|Hs] _ IH]; simpl; [done|by rewrite Hs..].
Qed.

Lemma elempleo_turn_length site jobs card :
  length (Combined.elempleo_turn site jobs card) ≤ S (length jobs).
Proof.
  unfold Combined.elempleo_turn.
  destruct ((Combined.elempleo_card card;; getitem "title")
              (Combined._init_job site)) as [job [|title]]; [lia|].
  destruct (truthy title); [|lia]. rewrite length_app. simpl. lia.
Qed.

Lemma foldl_turn_length site cards jobs :
  length (foldl (Combined.elempleo_turn site) jobs cards)
  ≤ length jobs + length cards.
Proof.
  revert jobs. induction cards as [|card cards IH]; intros jobs; simpl; [lia|].
  etrans; [apply IH|]. pose proof (elempleo_turn_length site jobs card). lia.
Qed.

Lemma first_cards_first soup before sel after :
  Forall (λ s, Simple.select soup s = []) before →
  Simple.select soup sel ≠ [] →
  Simple.first_cards soup (before ++ sel :: after) = Simple.select soup sel.
Proof.
  intros Hbefore Hne.
  induction Hbefore as [|s before Hs _ IH]; simpl.
  - by destruct (Simple.select soup sel).
  - by rewrite Hs.
Qed.

Lemma foldl_card_turn_length cards jobs :
  length (foldl Simple.card_turn jobs cards) ≤ length jobs + length cards.
Proof.
  revert jobs. induction cards as [|card cards IH]; intros jobs; simpl; [lia|].
  etrans; [apply IH|]. unfold Simple.card_turn.
  destruct (truthy _); rewrite ?length_app; simpl; lia.
Qed.

(** C2.  Card collection tries the selector strategies in the order they
    are declared and takes the cards of the first one that yields a
    match, whatever the later ones would match; a strategy whose lookup
    raises or finds nothing is passed over.  In combined_scraper the
    first [max_jobs] of these cards and no others go to field extraction,
    so that a run adds at most [max_jobs] records; in
    elempleo_scraper_simple, which has no bound, every card of the first
    matching selector goes to it. *)
Theorem first_match_wins :
  (∀ page before selectors after cards,
     Forall (no_match page) before →
     Playwright.page_all page (Combined.selector_str selectors) = Ok cards →
     cards ≠ [] →
     Combined._find_elements_debug page (before ++ selectors :: after) = cards) ∧
  (∀ page max_jobs jobs,
     Playwright.page_goto page = Ok tt → Playwright.page_debug page = Ok tt →
     let cards := Combined._find_elements_debug page Combined.elempleo_selector_sets in
     Combined.scrape_elempleo page max_jobs jobs
     = foldl (Combined.elempleo_turn "elempleo.com") jobs (take max_jobs cards) ∧
     length (take max_jobs cards) ≤ max_jobs ∧
     length (Combined.scrape_elempleo page max_jobs jobs)
     ≤ length jobs + max_jobs) ∧
  (∀ soup before sel after jobs,
     Forall (λ s, Simple.select soup s = []) before →
     Simple.select soup sel ≠ [] →
     Simple.card_selectors = before ++ sel :: after →
     Simple._extract_jobs_from_soup soup jobs
     = (foldl Simple.card_turn jobs (Simple.select soup sel),
        length (Simple.select soup sel))).
Proof.
  split; [exact find_elements_first|]. split.
  - intros page max_jobs jobs Hg Hd cards.
    assert (Combined.scrape_elempleo page max_jobs jobs
            = foldl (Combined.elempleo_turn "elempleo.com") jobs
                (take max_jobs cards)) as Heq.
    { unfold Combined.scrape_elempleo. by rewrite Hg, Hd. }
    split; [exact Heq|]. split.
    + rewrite length_take. lia.
    + rewrite Heq. etrans; [apply foldl_turn_length|].
      rewrite length_take. lia.
  - intros soup before sel after jobs Hbefore Hne Hsels.
    unfold Simple._extract_jobs_from_soup. rewrite Hsels.
    rewrite (first_cards_first soup before sel after Hbefore Hne).
    by destruct (Simple.select soup sel).
Qed.

Lemma first_match_wins_witness :
  Combined._find_elements_debug two_strategies_page
    Combined.elempleo_selector_sets
  = [Playwright.text_node "Analista"; Playwright.text_node "Cajero"].
Proof.
  apply (proj1 first_match_wins two_strategies_page
           [Combined.Selectors [".js-joboffer-result"]]
           (Combined.Selectors ["article"])).
  - constructor; [right; reflexivity|constructor].
  - reflexivity.
  - discriminate.
Defined.

(** ** Discovery of identifiers: termination *)

Section auto_loop.
Context {S : Type} (site : Listing S) (max_pages : Z).

Lemma loop_ends fuel st ids clicks log :
  clicks < most_clicks max_pages →
  most_clicks max_pages - clicks ≤ fuel →
  ∃ r, AllScraperIds.loop site max_pages fuel st (Z.of_nat clicks + 1) ids
         clicks log = Some r ∧
       clicks ≤ advances r ≤ most_clicks max_pages ∧
       (stopped r = MaxPages ↔ advances r = most_clicks max_pages).
Proof.
  unfold most_clicks.
  revert st ids clicks log.
  induction fuel as [|fuel IH]; intros st ids clicks log Hlt Hfuel; [lia|].
  simpl.
  destruct (listing_buttons site st) as [|[|b bs]];
    [eexists; split; [reflexivity|simpl; split; [lia|split; [done|lia]]]..|].
  destruct (listing_anchors site st) as [|anchors];
    [eexists; split; [reflexivity|simpl; split; [lia|split; [done|lia]]]|].
  destruct (AllScraperIds.find_next 0 anchors) as [|[i|]];
    [eexists; split; [reflexivity|simpl; split; [lia|split; [done|lia]]]|
    |eexists; split; [reflexivity|simpl; split; [lia|split; [done|lia]]]].
  destruct (listing_click site st i) as [|st'];
    [eexists; split; [reflexivity|simpl; split; [lia|split; [done|lia]]]|].
  destruct (Z.gtb_spec (Z.of_nat clicks + 1 + 1) max_pages) as [Hgt|Hle].
  - eexists; split; [reflexivity|]. simpl. split; [lia|]. split; [lia|done].
  - replace (Z.of_nat clicks + 1 + 1)%Z with (Z.of_nat (Datatypes.S clicks) + 1)%Z
      by lia.
    destruct (IH st' (AllScraperIds.add_ids (b :: bs) ids) (Datatypes.S clicks)
                (log ++ [size (AllScraperIds.add_ids (b :: bs) ids)]))
      as (r & Hr & Hadv & Hmax); [lia..|].
    exists r. split; [exact Hr|]. split; [lia|exact Hmax].
Qed.

Lemma loop_runs_on fuel st ids clicks log :
  always_buttons site → always_next site →
  clicks < most_clicks max_pages →
  most_clicks max_pages - clicks ≤ fuel →
  ∃ r, AllScraperIds.loop site max_pages fuel st (Z.of_nat clicks + 1) ids
         clicks log = Some r ∧
       advances r = most_clicks max_pages ∧ stopped r = MaxPages.
Proof.
  intros Hbuttons Hnext. unfold most_clicks.
  revert st ids clicks log.
  induction fuel as [|fuel IH]; intros st ids clicks log Hlt Hfuel; [lia|].
  simpl.
  destruct (Hbuttons st) as (b & bs & ->).
  destruct (Hnext st) as (anchors & i & st' & -> & -> & ->).
  destruct (Z.gtb_spec (Z.of_nat clicks + 1 + 1) max_pages) as [Hgt|Hle].
  - eexists; split; [reflexivity|]. simpl. split; [lia|done].
  - replace (Z.of_nat clicks + 1 + 1)%Z with (Z.of_nat (Datatypes.S clicks) + 1)%Z
      by lia.
    apply IH; lia.
Qed.

Lemma most_clicks_pos : 0 < most_clicks max_pages.
Proof. unfold most_clicks. lia. Qed.

End auto_loop.

Section scrolls.
Context {S : Type} (site : Listing S).

Lemma scrolls_bound n st ids made log :
  made ≤ advances (Scrape.scrolls site n st ids made log) ≤ made + n.
Proof.
  revert st ids made log.
  induction n as [|n IH]; intros st ids made log; simpl; [lia|].
  destruct (listing_wheel site st) as [|st']; simpl; [lia|].
  destruct (listing_buttons site st') as [|buttons]; simpl; [lia|].
  specialize (IH st' (Scrape.add_ids buttons ids) (Datatypes.S made)
                (log ++ [size (Scrape.add_ids buttons ids)])).
  lia.
Qed.

Lemma scrolls_all n st ids made log :
  never_raises site →
  advances (Scrape.scrolls site n st ids made log) = made + n ∧
  stopped (Scrape.scrolls site n st ids made log) = RangeDone.
Proof.
  intros Hok. revert st ids made log.
  induction n as [|n IH]; intros st ids made log; simpl; [split; [lia|done]|].
  destruct (Hok st) as [[st' ->] _].
  destruct (Hok st') as [_ [buttons ->]].
  destruct (IH st' (Scrape.add_ids buttons ids) (Datatypes.S made)
              (log ++ [size (Scrape.add_ids buttons ids)])) as [-> ->].
  split; [lia|done].
Qed.

End scrolls.

Section auto_path.
Context {S : Type} (site : Listing S) (max_pages : Z).

Lemma loop_ends_at k fuel st ids clicks log st' why :
  reaches site st k st' → clicks + k < most_clicks max_pages →
  ends_at site st' why → most_clicks max_pages - clicks ≤ fuel →
  ∃ r, AllScraperIds.loop site max_pages fuel st (Z.of_nat clicks + 1) ids
         clicks log = Some r ∧
       advances r = clicks + k ∧ stopped r = why.
Proof.
  unfold most_clicks.
  revert fuel st ids clicks log.
  induction k as [|k IH]; intros fuel st ids clicks log Hpath Hlt Hend Hfuel;
    (destruct fuel as [|fuel]; [lia|]); simpl in Hpath.
  - subst st'. simpl.
    destruct Hend as [[-> ->]|[[-> ->]|(b & bs & -> & Hend)]];
      [eexists; split; [reflexivity|simpl; split; [lia|done]]..|].
    destruct Hend as [[-> ->]|(anchors & -> & Hend)];
      [eexists; split; [reflexivity|simpl; split; [lia|done]]|].
    destruct Hend as [[-> ->]|[[-> ->]|(i & -> & -> & ->)]];
      eexists; (split; [reflexivity|simpl; split; [lia|done]]).
  - destruct Hpath as (st1 & (b & bs & anchors & i & Hb & Ha & Hn & Hc) & Hpath).
    simpl. rewrite Hb, Ha, Hn, Hc.
    destruct (Z.gtb_spec (Z.of_nat clicks + 1 + 1) max_pages) as [Hgt|Hle];
      [lia|].
    replace (Z.of_nat clicks + 1 + 1)%Z with (Z.of_nat (Datatypes.S clicks) + 1)%Z
      by lia.
    destruct (IH fuel st1 (AllScraperIds.add_ids (b :: bs) ids)
                (Datatypes.S clicks)
                (log ++ [size (AllScraperIds.add_ids (b :: bs) ids)]))
      as (r & Hr & Hadv & Hwhy); [done|lia|done|lia|].
    exists r. split; [exact Hr|]. split; [lia|done].
Qed.

Lemma loop_to_bound k fuel st ids clicks log st' :
  reaches site st k st' → clicks < most_clicks max_pages →
  clicks + k = most_clicks max_pages →
  most_clicks max_pages - clicks ≤ fuel →
  ∃ r, AllScraperIds.loop site max_pages fuel st (Z.of_nat clicks + 1) ids
         clicks log = Some r ∧
       advances r = most_clicks max_pages ∧ stopped r = MaxPages.
Proof.
  unfold most_clicks.
  revert fuel st ids clicks log.
  induction k as [|k IH]; intros fuel st ids clicks log Hpath Hlt Hsum Hfuel;
    [lia|].
  destruct fuel as [|fuel]; [lia|].
  destruct Hpath as (st1 & (b & bs & anchors & i & Hb & Ha & Hn & Hc) & Hpath).
  simpl. rewrite Hb, Ha, Hn, Hc.
  destruct (Z.gtb_spec (Z.of_nat clicks + 1 + 1) max_pages) as [Hgt|Hle].
  - eexists. split; [reflexivity|]. simpl. split; [lia|done].
  - replace (Z.of_nat clicks + 1 + 1)%Z with (Z.of_nat (Datatypes.S clicks) + 1)%Z
      by lia.
    apply (IH fuel st1); [done|lia..].
Qed.

Lemma loop_path fuel st ids clicks log r :
  clicks < most_clicks max_pages →
  AllScraperIds.loop site max_pages fuel st (Z.of_nat clicks + 1) ids
    clicks log = Some r →
  ∃ k st', reaches site st k st' ∧ advances r = clicks + k ∧
    ((stopped r = MaxPages ∧ advances r = most_clicks max_pages) ∨
     (advances r < most_clicks max_pages ∧ ends_at site st' (stopped r))).
Proof.
  unfold most_clicks.
  revert st ids clicks log.
  induction fuel as [|fuel IH]; intros st ids clicks log Hlt Hrun; [done|].
  simpl in Hrun.
  destruct (listing_buttons site st) as [|[|b bs]] eqn:Hb.
  { injection Hrun as <-. exists 0, st. simpl. split; [done|]. split; [lia|].
    right. split; [lia|]. right. by left. }
  { injection Hrun as <-. exists 0, st. simpl. split; [done|]. split; [lia|].
    right. split; [lia|]. by left. }
  destruct (listing_anchors site st) as [|anchors] eqn:Ha.
  { injection Hrun as <-. exists 0, st. simpl. split; [done|]. split; [lia|].
    right. split; [lia|]. right. right. exists b, bs. split; [done|]. by left. }
  destruct (AllScraperIds.find_next 0 anchors) as [|[i|]] eqn:Hn.
  { injection Hrun as <-. exists 0, st. simpl. split; [done|]. split; [lia|].
    right. split; [lia|]. right. right. exists b, bs. split; [done|]. right.
    exists anchors. split; [done|]. right. by left. }
  2:{ injection Hrun as <-. exists 0, st. simpl. split; [done|]. split; [lia|].
      right. split; [lia|]. right. right. exists b, bs. split; [done|]. right.
      exists anchors. split; [done|]. by left. }
  destruct (listing_click site st i) as [|st1] eqn:Hc.
  { injection Hrun as <-. exists 0, st. simpl. split; [done|]. split; [lia|].
    right. split; [lia|]. right. right. exists b, bs. split; [done|]. right.
    exists anchors. split; [done|]. right. right. by exists i. }
  assert (advances_to site st st1) as Hstep by (by exists b, bs, anchors, i).
  destruct (Z.gtb_spec (Z.of_nat clicks + 1 + 1) max_pages) as [Hgt|Hle].
  - injection Hrun as <-. exists 1, st1. simpl.
    split; [by exists st1|]. split; [lia|]. left. split; [done|lia].
  - replace (Z.of_nat clicks + 1 + 1)%Z with (Z.of_nat (Datatypes.S clicks) + 1)%Z
      in Hrun by lia.
    apply IH in Hrun as (k & st' & Hpath & Hadv & Hstop); [|lia].
    exists (Datatypes.S k), st'. split; [by exists st1|]. split; [lia|done].
Qed.

End auto_path.

Lemma find_next_none i anchors :
  AllScraperIds.find_next i anchors = Ok None ↔
  Forall (λ a, ∃ txt, a = Ok txt ∧ AllScraperIds.is_next txt = false) anchors.
Proof.
  revert i. induction anchors as [|[|txt] anchors IH]; intros i; simpl.
  - split; [constructor|done].
  - split; [done|]. intros H. apply Forall_cons in H as [(? & ? & _) _]. done.
  - destruct (AllScraperIds.is_next txt) eqn:Hnext.
    + split; [done|]. intros H. apply Forall_cons in H as [(? & [= <-] & ?) _].
      congruence.
    + rewrite IH. split.
      * intros H. apply Forall_cons. split; [by exists txt|done].
      * intros H. by apply Forall_cons in H as [_ ?].
Qed.

(** C3 (as amended).  Identifier discovery ends for every listing.  With
    pagination it makes at most [max_pages] clicks (one click when
    [max_pages] is below one, since the bound is tested after the click),
    and it stops on the bound exactly when it has made that many.  It
    ends before that exactly when, on the page it has reached, the
    snapshot shows no job button at all, no next link is found, or the
    browser raises: if [k] clicks, fewer than the bound, lead to such a
    page, the run ends there after [k] clicks and for that reason; if
    as many clicks as the bound can be made, the run ends on the bound;
    and every run that ends has followed such a path.  No next link is
    found exactly when the text of every anchor is read and none is a
    next word; a listing without next link ends on the first snapshot.
    A snapshot that only repeats known identifiers does not end it:
    while every page shows a button and a next link the run goes on to
    the bound.  With scrolling it makes at most [max_scrolls] scrolls,
    and all of them unless the browser raises. *)
Theorem discovery_is_bounded :
  (∀ S (site : Listing S) max_pages fuel,
     most_clicks max_pages ≤ fuel →
     ∃ r, AllScraperIds.get_job_ids_with_playwright_auto site max_pages fuel
          = Some r ∧
          advances r ≤ most_clicks max_pages ∧
          (stopped r = MaxPages ↔ advances r = most_clicks max_pages)) ∧
  (∀ S (site : Listing S) max_pages fuel st0 k st why,
     listing_goto site = Ok st0 → reaches site st0 k st →
     k < most_clicks max_pages → ends_at site st why →
     most_clicks max_pages ≤ fuel →
     ∃ r, AllScraperIds.get_job_ids_with_playwright_auto site max_pages fuel
          = Some r ∧
          advances r = k ∧ stopped r = why) ∧
  (∀ S (site : Listing S) max_pages fuel st0 st,
     listing_goto site = Ok st0 →
     reaches site st0 (most_clicks max_pages) st →
     most_clicks max_pages ≤ fuel →
     ∃ r, AllScraperIds.get_job_ids_with_playwright_auto site max_pages fuel
          = Some r ∧
          advances r = most_clicks max_pages ∧ stopped r = MaxPages) ∧
  (∀ S (site : Listing S) max_pages fuel r,
     AllScraperIds.get_job_ids_with_playwright_auto site max_pages fuel
     = Some r →
     (listing_goto site = Raised ∧ r = Build_Discovery ∅ 0 [] Error) ∨
     (∃ st0 st,
        listing_goto site = Ok st0 ∧ reaches site st0 (advances r) st ∧
        ((stopped r = MaxPages ∧ advances r = most_clicks max_pages) ∨
         (advances r < most_clicks max_pages ∧ ends_at site st (stopped r))))) ∧
  (∀ anchors,
     AllScraperIds.find_next 0 anchors = Ok None ↔
     Forall (λ a, ∃ txt, a = Ok txt ∧ AllScraperIds.is_next txt = false)
            anchors) ∧
  (∀ S (site : Listing S) max_pages fuel st,
     listing_goto site = Ok st → listing_buttons site st = Ok [] →
     AllScraperIds.get_job_ids_with_playwright_auto site max_pages
       (Datatypes.S fuel)
     = Some (Build_Discovery ∅ 0 [] NoButtons)) ∧
  (∀ S (site : Listing S) max_pages fuel st b bs anchors,
     listing_goto site = Ok st → listing_buttons site st = Ok (b :: bs) →
     listing_anchors site st = Ok anchors →
     AllScraperIds.find_next 0 anchors = Ok None →
     AllScraperIds.get_job_ids_with_playwright_auto site max_pages
       (Datatypes.S fuel)
     = Some (Build_Discovery (AllScraperIds.add_ids (b :: bs) ∅) 0
               [size (AllScraperIds.add_ids (b :: bs) ∅)] NoNext)) ∧
  (∀ S (site : Listing S) max_pages fuel st,
     listing_goto site = Ok st → always_buttons site → always_next site →
     most_clicks max_pages ≤ fuel →
     ∃ r, AllScraperIds.get_job_ids_with_playwright_auto site max_pages fuel
          = Some r ∧
          advances r = most_clicks max_pages ∧ stopped r = MaxPages) ∧
  (∀ S (site : Listing S) max_scrolls,
     advances (Scrape.get_job_ids_with_playwright site max_scrolls)
     ≤ Z.to_nat max_scrolls ∧
     ∀ st, listing_goto site = Ok st → never_raises site →
           advances (Scrape.get_job_ids_with_playwright site max_scrolls)
           = Z.to_nat max_scrolls).
Proof.
  split; [|split; [|split; [|split; [|split; [|split; [|split; [|split]]]]]]].
  - intros S site max_pages fuel Hfuel.
    unfold AllScraperIds.get_job_ids_with_playwright_auto.
    destruct (listing_goto site) as [|st].
    + eexists; split; [reflexivity|]. simpl.
      pose proof (most_clicks_pos max_pages). split; [lia|split; [done|lia]].
    + destruct (loop_ends site max_pages fuel st ∅ 0 [])
        as (r & Hr & Hadv & Hmax);
        [apply most_clicks_pos|lia|].
      exists r. split; [exact Hr|]. split; [lia|exact Hmax].
  - intros S site max_pages fuel st0 k st why Hg Hpath Hk Hend Hfuel.
    unfold AllScraperIds.get_job_ids_with_playwright_auto. rewrite Hg.
    apply (loop_ends_at site max_pages k fuel st0 ∅ 0 [] st why); try done.
    lia.
  - intros S site max_pages fuel st0 st Hg Hpath Hfuel.
    unfold AllScraperIds.get_job_ids_with_playwright_auto. rewrite Hg.
    apply (loop_to_bound site max_pages (most_clicks max_pages) fuel st0 ∅ 0 []
             st); [done|apply most_clicks_pos|done|lia].
  - intros S site max_pages fuel r.
    unfold AllScraperIds.get_job_ids_with_playwright_auto.
    destruct (listing_goto site) as [|st0]; [intros [= <-]; by left|].
    intros Hrun. right.
    apply (loop_path site max_pages fuel st0 ∅ 0 []) in Hrun
      as (k & st & Hpath & Hadv & Hstop); [|apply most_clicks_pos].
    exists st0, st. split; [done|]. simpl in Hadv. rewrite <- Hadv in Hpath.
    by split.
  - intros anchors. apply find_next_none.
  - intros S site max_pages fuel st Hg Hb.
    unfold AllScraperIds.get_job_ids_with_playwright_auto.
    rewrite Hg. simpl. by rewrite Hb.
  - intros S site max_pages fuel st b bs anchors Hg Hb Ha Hn.
    unfold AllScraperIds.get_job_ids_with_playwright_auto.
    rewrite Hg. simpl. by rewrite Hb, Ha, Hn.
  - intros S site max_pages fuel st Hg Hb Hn Hfuel.
    unfold AllScraperIds.get_job_ids_with_playwright_auto. rewrite Hg.
    apply (loop_runs_on site max_pages fuel st ∅ 0 []); [done|done| |lia].
    apply most_clicks_pos.
  - intros S site max_scrolls.
    unfold Scrape.get_job_ids_with_playwright. split.
    + destruct (listing_goto site) as [|st]; simpl; [lia|].
      pose proof (scrolls_bound site (Z.to_nat max_scrolls) st ∅ 0 []). lia.
    + intros st -> Hok.
      by destruct (scrolls_all site (Z.to_nat max_scrolls) st ∅ 0 [] Hok) as [-> _].
Qed.

Lemma discovery_is_bounded_witness :
  ∃ r, AllScraperIds.get_job_ids_with_playwright_auto four_page_site 100 100
       = Some r ∧
       advances r = 3 ∧ stopped r = NoButtons.
Proof.
  apply (proj1 (proj2 discovery_is_bounded) nat four_page_site 100%Z 100 0 3 3
           NoButtons).
  - reflexivity.
  - exists 1. split; [|exists 2; split; [|exists 3; split; [|reflexivity]]];
      eexists _, _, _, 1; repeat split; vm_compute; reflexivity.
  - vm_compute. lia.
  - left. split; reflexivity.
  - vm_compute. lia.
Defined.

(** C3 as stated fails: on a listing whose pages all show the one same
    job button and a next link, the second snapshot adds no identifier to
    the set, yet the run does not end there; it clicks on to the bound.
    The scrolling variant likewise makes all its scrolls. *)
Lemma known_identifiers_do_not_stop :
  let first := AllScraperIds.add_ids ["1001"] ∅ in
  AllScraperIds.add_ids ["1001"] first = first ∧
  (advances <$> AllScraperIds.get_job_ids_with_playwright_auto
                  same_page_site 3 5) = Some 3 ∧
  (stopped <$> AllScraperIds.get_job_ids_with_playwright_auto
                 same_page_site 3 5) = Some MaxPages ∧
  (printed <$> AllScraperIds.get_job_ids_with_playwright_auto
                 same_page_site 3 5) = Some [1; 1; 1] ∧
  advances (Scrape.get_job_ids_with_playwright same_page_site 3) = 3 ∧
  printed (Scrape.get_job_ids_with_playwright same_page_site 3) = [1; 1; 1].
Proof. vm_compute. repeat split; reflexivity. Qed.

(** ** Discovery of identifiers: the set only grows *)

Lemma elem_of_auto_add_ids buttons ids x :
  x ∈ AllScraperIds.add_ids buttons ids ↔
  x ∈ ids ∨ (x ∈ buttons ∧ Text.nonempty x = true).
Proof.
  unfold AllScraperIds.add_ids. revert ids.
  induction buttons as [|b buttons IH]; intros ids; simpl.
  - split; [by left|]. intros [?|[H _]]; [done|]. by apply elem_of_nil in H.
  - rewrite IH, elem_of_cons. destruct (Text.nonempty b) eqn:Hb.
    + rewrite elem_of_union, elem_of_singleton.
      intuition (subst; auto).
    + intuition (subst; auto; congruence).
Qed.

Lemma elem_of_scroll_add_ids buttons ids x :
  x ∈ Scrape.add_ids buttons ids ↔ x ∈ ids ∨ x ∈ buttons.
Proof.
  unfold Scrape.add_ids. revert ids.
  induction buttons as [|b buttons IH]; intros ids; simpl.
  - split; [by left|]. intros [?|H]; [done|]. by apply elem_of_nil in H.
  - rewrite IH, elem_of_cons, elem_of_union, elem_of_singleton. tauto.
Qed.

Lemma auto_add_ids_subseteq buttons ids :
  ids ⊆ AllScraperIds.add_ids buttons ids.
Proof. intros x Hx. apply elem_of_auto_add_ids. by left. Qed.

Lemma scroll_add_ids_subseteq buttons ids :
  ids ⊆ Scrape.add_ids buttons ids.
Proof. intros x Hx. apply elem_of_scroll_add_ids. by left. Qed.

Lemma auto_add_ids_twice buttons ids :
  AllScraperIds.add_ids buttons (AllScraperIds.add_ids buttons ids)
  = AllScraperIds.add_ids buttons ids.
Proof.
  apply set_eq. intros x. rewrite !elem_of_auto_add_ids. tauto.
Qed.

Lemma scroll_add_ids_twice buttons ids :
  Scrape.add_ids buttons (Scrape.add_ids buttons ids)
  = Scrape.add_ids buttons ids.
Proof.
  apply set_eq. intros x. rewrite !elem_of_scroll_add_ids. tauto.
Qed.

Lemma sorted_nondecreasing l : StronglySorted le l → nondecreasing l.
Proof.
  induction 1 as [|a l Hl IH Ha]; intros i j x y Hij Hi Hj.
  - by rewrite lookup_nil in Hi.
  - destruct i as [|i], j as [|j]; simpl in *; simplify_eq; [lia| |lia|].
    + rewrite Forall_forall in Ha. apply Ha. by eapply list_elem_of_lookup_2.
    + apply (IH i j); [lia|done..].
Qed.

Lemma grows_from_here ids log made why :
  grows_from ids log (Build_Discovery ids made log why).
Proof.
  split; [done|]. exists []. rewrite app_nil_r. repeat constructor.
Qed.

Lemma grows_from_step ids ids' log r :
  ids ⊆ ids' → grows_from ids' (log ++ [size ids']) r → grows_from ids log r.
Proof.
  intros Hsub (Hids & more & Hp & Hall & Hsorted).
  split; [by etrans|]. exists (size ids' :: more).
  rewrite Hp, <- app_assoc. split; [done|].
  pose proof (subseteq_size _ _ Hsub) as Hsize. split.
  - constructor; [done|]. eapply Forall_impl; [exact Hall|]. simpl. lia.
  - by constructor.
Qed.

Lemma loop_grows {S} (site : Listing S) max_pages fuel st pn ids clicks log r :
  AllScraperIds.loop site max_pages fuel st pn ids clicks log = Some r →
  grows_from ids log r.
Proof.
  revert st pn ids clicks log.
  induction fuel as [|fuel IH]; intros st pn ids clicks log; [done|]. simpl.
  destruct (listing_buttons site st) as [|[|b bs]];
    [intros [= <-]; apply grows_from_here..|].
  pose proof (auto_add_ids_subseteq (b :: bs) ids) as Hsub.
  assert (∀ made why,
            grows_from ids log
              (Build_Discovery (AllScraperIds.add_ids (b :: bs) ids) made
                 (log ++ [size (AllScraperIds.add_ids (b :: bs) ids)]) why))
    as Hstop.
  { intros made why. eapply grows_from_step; [exact Hsub|].
    apply grows_from_here. }
  destruct (listing_anchors site st) as [|anchors]; [intros [= <-]; apply Hstop|].
  destruct (AllScraperIds.find_next 0 anchors) as [|[i|]];
    [intros [= <-]; apply Hstop| |intros [= <-]; apply Hstop].
  destruct (listing_click site st i) as [|st']; [intros [= <-]; apply Hstop|].
  destruct (pn + 1 >? max_pages)%Z; [intros [= <-]; apply Hstop|].
  intros Hr. eapply grows_from_step; [exact Hsub|]. by eapply IH.
Qed.

Lemma scrolls_grows {S} (site : Listing S) n st ids made log :
  grows_from ids log (Scrape.scrolls site n st ids made log).
Proof.
  revert st ids made log.
  induction n as [|n IH]; intros st ids made log; simpl;
    [apply grows_from_here|].
  destruct (listing_wheel site st) as [|st']; [apply grows_from_here|].
  destruct (listing_buttons site st') as [|buttons]; [apply grows_from_here|].
  eapply grows_from_step; [apply scroll_add_ids_subseteq|]. apply IH.
Qed.

Lemma grows_from_start r : grows_from ∅ [] r → nondecreasing (printed r).
Proof.
  intros (_ & more & -> & _ & Hsorted). by apply sorted_nondecreasing.
Qed.

(** C9.  Collecting the identifiers of one snapshot a second time leaves
    the set, and so its size, as the first collection left it; a
    collection never takes an identifier out of the set; and the size
    of the set, which a run prints after each snapshot, never goes down
    from one discovery iteration to the next.  This holds for the
    pagination of all_scraper and for the scrolling of scrape and
    elempleo_full_scraper. *)
Theorem identifier_set_only_grows :
  (∀ buttons ids,
     let once := AllScraperIds.add_ids buttons ids in
     AllScraperIds.add_ids buttons once = once ∧
     size (AllScraperIds.add_ids buttons once) = size once ∧
     ids ⊆ once ∧ size ids ≤ size once) ∧
  (∀ buttons ids,
     let once := Scrape.add_ids buttons ids in
     Scrape.add_ids buttons once = once ∧
     size (Scrape.add_ids buttons once) = size once ∧
     ids ⊆ once ∧ size ids ≤ size once) ∧
  (∀ S (site : Listing S) max_pages fuel r,
     AllScraperIds.get_job_ids_with_playwright_auto site max_pages fuel = Some r →
     nondecreasing (printed r)) ∧
  (∀ S (site : Listing S) max_scrolls,
     nondecreasing (printed (Scrape.get_job_ids_with_playwright site max_scrolls))).
Proof.
  split; [|split; [|split]].
  - intros buttons ids once. subst once.
    rewrite auto_add_ids_twice. split; [done|]. split; [done|].
    split; [apply auto_add_ids_subseteq|].
    apply subseteq_size, auto_add_ids_subseteq.
  - intros buttons ids once. subst once.
    rewrite scroll_add_ids_twice. split; [done|]. split; [done|].
    split; [apply scroll_add_ids_subseteq|].
    apply subseteq_size, scroll_add_ids_subseteq.
  - intros S site max_pages fuel r.
    unfold AllScraperIds.get_job_ids_with_playwright_auto.
    destruct (listing_goto site) as [|st].
    + intros [= <-]. apply grows_from_start, grows_from_here.
    + intros Hr. by eapply grows_from_start, loop_grows.
  - intros S site max_scrolls.
    unfold Scrape.get_job_ids_with_playwright.
    destruct (listing_goto site) as [|st]; apply grows_from_start;
      [apply grows_from_here|apply scrolls_grows].
Qed.

Lemma identifier_set_only_grows_witness :
  ∃ r, AllScraperIds.get_job_ids_with_playwright_auto same_page_site 3 5
       = Some r ∧ nondecreasing (printed r).
Proof.
  eexists. split; [vm_compute; reflexivity|].
  apply (proj1 (proj2 (proj2 identifier_set_only_grows)) nat same_page_site
           3%Z 5).
  vm_compute. reflexivity.
Defined.

(** ** Which records are accumulated *)

Lemma elempleo_turn_kept site jobs card :
  Combined.elempleo_turn site jobs card
  = jobs ++ option_list (kept_record site card).
Proof.
  unfold Combined.elempleo_turn, kept_record.
  destruct ((Combined.elempleo_card card;; getitem "title")
              (Combined._init_job site)) as [job [|title]];
    [by rewrite app_nil_r|].
  destruct (truthy title); [done|by rewrite app_nil_r].
Qed.

Lemma foldl_elempleo_turn site cards jobs :
  foldl (Combined.elempleo_turn site) jobs cards
  = jobs ++ omap (kept_record site) cards.
Proof.
  revert jobs. induction cards as [|card cards IH]; intros jobs; simpl.
  - by rewrite app_nil_r.
  - rewrite IH, elempleo_turn_kept, <- app_assoc.
    by destruct (kept_record site card).
Qed.

Lemma getitem_after {A} (c : Py A) k job :
  dom ((c job).1) = dom job → k ∈ dom job →
  ∃ v, (c job).1 !! k = Some v ∧
       ((c ;; getitem k) job).2 = match (c job).2 with
                                  | Raised => Raised
                                  | Ok _ => Ok v
                                  end ∧
       ((c ;; getitem k) job).1 = (c job).1.
Proof.
  intros Hdom Hk. rewrite <- Hdom in Hk. apply elem_of_dom in Hk as [v Hv].
  exists v. split; [done|].
  unfold mbind, Py_bind, py_bind, getitem.
  destruct (c job) as [job' [|a]]; simpl in *; [done|]. by rewrite Hv.
Qed.

Lemma kept_record_has_title site card job :
  kept_record site card = Some job → has_title job = true.
Proof.
  unfold kept_record, has_title.
  unfold mbind, Py_bind, py_bind, getitem.
  destruct (Combined.elempleo_card card (Combined._init_job site))
    as [job' [|[]]]; [done|].
  destruct (job' !! "title") as [title|] eqn:Ht; [|done].
  destruct (truthy title) eqn:Htrue; [|done].
  intros [= <-]. by rewrite Ht.
Qed.

Lemma foldl_card_turn cards jobs :
  foldl Simple.card_turn jobs cards
  = jobs ++ filter (λ job, has_title job = true) (Simple._parse_job_card <$> cards).
Proof.
  revert jobs. induction cards as [|card cards IH]; intros jobs.
  - simpl. by rewrite app_nil_r.
  - cbn [foldl]. rewrite IH, fmap_cons, filter_cons.
    unfold Simple.card_turn.
    fold (has_title (Simple._parse_job_card card)).
    destruct (has_title (Simple._parse_job_card card)) eqn:Ht.
    + rewrite decide_True by done. by rewrite <- app_assoc.
    + rewrite decide_False by done. done.
Qed.

Lemma quick_view_clicks_titles {S} (site : QuickView.Site S) idxs st jobs :
  Forall (λ job, has_title job = true) jobs →
  Forall (λ job, has_title job = true) (QuickView.clicks site idxs st jobs).
Proof.
  revert st jobs. induction idxs as [|idx idxs IH]; intros st jobs Hjobs; simpl;
    [done|].
  destruct (QuickView.site_buttons site st _) as [|n]; [by apply IH|].
  destruct (n <=? idx); [done|].
  destruct (QuickView.site_open site st idx) as [|st']; [by apply IH|].
  apply IH.
  destruct (truthy _) eqn:Ht; [|done].
  apply Forall_app; split; [done|]. by apply Forall_singleton.
Qed.

Lemma quick_view_clicks_kept {S} (site : QuickView.Site S) idxs st jobs :
  QuickView.clicks site idxs st jobs
  = jobs ++ filter (λ job, has_title job = true)
              (QuickView._extract_from_quick_view <$> quick_views site idxs st).
Proof.
  revert st jobs. induction idxs as [|idx idxs IH]; intros st jobs; simpl.
  - by rewrite app_nil_r.
  - destruct (QuickView.site_buttons site st _) as [|n]; [apply IH|].
    destruct (n <=? idx); [by rewrite app_nil_r|].
    destruct (QuickView.site_open site st idx) as [|st']; [apply IH|].
    rewrite IH, fmap_cons, filter_cons.
    fold (has_title (QuickView._extract_from_quick_view
                       (QuickView.site_page site st'))).
    destruct (has_title _) eqn:Ht.
    + rewrite decide_True by done. by rewrite <- app_assoc.
    + by rewrite decide_False by done.
Qed.

(** C4 (as amended).  A record extracted from a card is accumulated, in
    the order of the cards, when its extraction did not raise and its
    title is not empty; a record whose title is empty is dropped, and so
    is the record of a card on which the browser raised.  This is so in
    the loop of combined_scraper over the first [max_jobs] cards, in
    [_extract_jobs_from_soup] of elempleo_scraper_simple, and in the
    quick view loop of elempleo_scraper, which accumulates the records
    with a title of the dialogs it opens, in the order in which it opens
    them, and nothing when the listing cannot be reached: every record
    they accumulate has a title. *)
Theorem titled_records_are_kept :
  (∀ page max_jobs jobs,
     Playwright.page_goto page = Ok tt → Playwright.page_debug page = Ok tt →
     Combined.scrape_elempleo page max_jobs jobs
     = jobs ++ omap (kept_record "elempleo.com")
                 (take max_jobs
                    (Combined._find_elements_debug page
                       Combined.elempleo_selector_sets))) ∧
  (∀ site card job,
     kept_record site card = Some job → has_title job = true) ∧
  (∀ site card job title,
     (Combined.elempleo_card card;; getitem "title") (Combined._init_job site)
     = (job, Ok title) →
     kept_record site card = if truthy title then Some job else None) ∧
  (∀ soup jobs,
     (Simple._extract_jobs_from_soup soup jobs).1
     = jobs ++ filter (λ job, has_title job = true)
                 (Simple._parse_job_card
                    <$> Simple.first_cards soup Simple.card_selectors)) ∧
  (∀ S (site : QuickView.Site S) max_jobs jobs st,
     QuickView.site_goto site = Ok st →
     QuickView.scrape site max_jobs jobs
     = jobs ++ filter (λ job, has_title job = true)
                 (QuickView._extract_from_quick_view
                    <$> quick_views site
                          (seq 0 (min max_jobs
                                    (QuickView.find_buttons site st
                                       QuickView.quick_view_selectors)))
                          st)) ∧
  (∀ S (site : QuickView.Site S) max_jobs jobs,
     QuickView.site_goto site = Raised →
     QuickView.scrape site max_jobs jobs = jobs) ∧
  (∀ S (site : QuickView.Site S) max_jobs job,
     job ∈ QuickView.scrape site max_jobs [] → has_title job = true).
Proof.
  split; [|split; [|split; [|split; [|split; [|split]]]]].
  - intros page max_jobs jobs Hg Hd. unfold Combined.scrape_elempleo.
    rewrite Hg, Hd. apply foldl_elempleo_turn.
  - exact kept_record_has_title.
  - intros site card job title Hrun. unfold kept_record. by rewrite Hrun.
  - intros soup jobs. unfold Simple._extract_jobs_from_soup.
    destruct (Simple.first_cards soup Simple.card_selectors) as [|card cards] eqn:Hc.
    + simpl. by rewrite app_nil_r.
    + cbn [fst]. apply foldl_card_turn.
  - intros S site max_jobs jobs st Hg. unfold QuickView.scrape. rewrite Hg.
    apply quick_view_clicks_kept.
  - intros S site max_jobs jobs Hg. unfold QuickView.scrape. by rewrite Hg.
  - intros S site max_jobs. apply Forall_forall.
    unfold QuickView.scrape. destruct (QuickView.site_goto site); [constructor|].
    apply quick_view_clicks_titles. constructor.
Qed.

Lemma titled_records_are_kept_witness :
  ∃ job,
    Combined.scrape_elempleo two_cards_page 5 [] = [job] ∧
    job !! "title" = Some (VStr "Analista") ∧
    job !! "company" = Some (VStr "ACME").
Proof.
  pose proof (proj1 titled_records_are_kept two_cards_page 5 []
                eq_refl eq_refl) as Hkept.
  rewrite Hkept. eexists. split; [vm_compute; reflexivity|].
  split; vm_compute; reflexivity.
Defined.

(** C4 as stated fails: two cards are matched and a record is extracted
    from each, with every field of the schema and an empty title; none
    of the two is accumulated, and nothing is written for them. *)
Lemma untitled_record_is_dropped :
  let cards := Combined._find_elements_debug two_strategies_page
                 Combined.elempleo_selector_sets in
  let record card := final (Combined.elempleo_card card)
                       (Combined._init_job "elempleo.com") in
  length cards = 2 ∧
  Forall (λ card, size (record card) = 30 ∧
                  record card !! "title" = Some (VStr "")) cards ∧
  Combined.scrape_elempleo two_strategies_page 5 [] = [] ∧
  Combined.save_to_csv (Combined.scrape_elempleo two_strategies_page 5 [])
    "costarica_jobs.csv" ∅ = (∅, None).
Proof.
  intros cards record.
  assert (cards = [Playwright.text_node "Analista"; Playwright.text_node "Cajero"])
    as -> by reflexivity.
  split; [reflexivity|]. split; [|split; vm_compute; reflexivity].
  subst record. repeat constructor; vm_compute; reflexivity.
Qed.

(** ** Computations that return *)

Section returns.
Context (I : gmap string value → Prop).

Lemma safe_ret {A} (a : A) : safe_in I (mret a).
Proof. intros job _. by exists a. Qed.

Lemma safe_call {A} (a : A) : safe_in I (call (Ok a)).
Proof. intros job _. by exists a. Qed.

Lemma safe_setitem k v : safe_in I (setitem k v).
Proof. intros job _. by exists tt. Qed.

Lemma safe_get k d : safe_in I (get k d).
Proof. intros job _. by eexists. Qed.

Lemma safe_get_opt k : safe_in I (get_opt k).
Proof. intros job _. by eexists. Qed.

Lemma safe_has_key k : safe_in I (has_key k).
Proof. intros job _. by eexists. Qed.

Lemma safe_getitem k :
  (∀ job, I job → is_Some (job !! k)) → safe_in I (getitem k).
Proof.
  intros Hk job H. unfold getitem. destruct (Hk job H) as [v ->]. by exists v.
Qed.

Lemma safe_try c : safe_in I (try_pass c).
Proof.
  intros job _. unfold try_pass. destruct (c job) as [job' [|[]]]; by exists tt.
Qed.

Lemma safe_when b c : safe_in I c → safe_in I (when b c).
Proof. intros Hc. destruct b; [exact Hc|apply safe_ret]. Qed.

Lemma safe_bind {A B} (c : Py A) (k : A → Py B) :
  safe_in I c → keeps I c → (∀ a, safe_in I (k a)) → safe_in I (c ≫= k).
Proof.
  intros Hc Hkeep Hk job H. unfold mbind, Py_bind, py_bind.
  destruct (Hc job H) as [a Ha]. specialize (Hkeep job H).
  destruct (c job) as [job' r]; simpl in *; subst r. by apply Hk.
Qed.

Lemma safe_for_each {A} (xs : list A) body :
  (∀ x, safe_in I (body x)) → (∀ x, keeps I (body x)) →
  safe_in I (for_each xs body).
Proof.
  intros Hs Hk. induction xs as [|x xs IH]; simpl; [apply safe_ret|].
  apply safe_bind; [apply Hs|apply Hk|intros _; exact IH].
Qed.

(** A computation that keeps [I] and does not raise from it. *)
Lemma returns_keeps {A} (c : Py A) :
  keeps I c → safe_in I c → returns I c (λ _, I).
Proof.
  intros Hkeep Hsafe job H.
  destruct (Hsafe job H) as [a Ha]. specialize (Hkeep job H).
  destruct (c job) as [job' r]; simpl in *; subst r. by exists a, job'.
Qed.
End returns.

Lemma returns_bind {A B} P (c : Py A) (k : A → Py B) R Q :
  returns P c R → (∀ a, returns (R a) (k a) Q) → returns P (c ≫= k) Q.
Proof.
  intros Hc Hk job H. unfold mbind, Py_bind, py_bind.
  destruct (Hc job H) as (a & job' & -> & HR). by apply Hk.
Qed.

Lemma returns_conseq {A} (P P' : gmap string value → Prop) (c : Py A)
    (Q Q' : A → gmap string value → Prop) :
  (∀ job, P job → P' job) → returns P' c Q' →
  (∀ a job, Q' a job → Q a job) → returns P c Q.
Proof.
  intros HP Hc HQ job H. destruct (Hc job (HP job H)) as (a & job' & ? & ?).
  exists a, job'. auto.
Qed.

Lemma returns_setitem P k v (Q : unit → gmap string value → Prop) :
  (∀ job, P job → Q tt (<[k:=v]> job)) → returns P (setitem k v) Q.
Proof. intros H job HP. exists tt, (<[k:=v]> job). auto. Qed.

Lemma returns_getitem P k v (Q : value → gmap string value → Prop) :
  (∀ job, P job → job !! k = Some v ∧ Q v job) → returns P (getitem k) Q.
Proof.
  intros H job HP. destruct (H job HP) as [Hk HQ].
  exists v, job. unfold getitem. by rewrite Hk.
Qed.

Lemma returns_get P k d (Q : value → gmap string value → Prop) :
  (∀ job, P job → Q (default d (job !! k)) job) → returns P (get k d) Q.
Proof. intros H job HP. eexists _, job. split; [reflexivity|by apply H]. Qed.

Lemma returns_get_opt P k (Q : option value → gmap string value → Prop) :
  (∀ job, P job → Q (job !! k) job) → returns P (get_opt k) Q.
Proof. intros H job HP. eexists _, job. split; [reflexivity|by apply H]. Qed.

Lemma returns_ret {A} P (a : A) (Q : A → gmap string value → Prop) :
  (∀ job, P job → Q a job) → returns P (mret a) Q.
Proof. intros H job HP. exists a, job. auto. Qed.

Lemma returns_call {A} P (a : A) (Q : A → gmap string value → Prop) :
  (∀ job, P job → Q a job) → returns P (call (Ok a)) Q.
Proof. intros H job HP. exists a, job. auto. Qed.

Lemma returns_try P c (Q : unit → gmap string value → Prop) :
  returns P c Q → returns P (try_pass c) Q.
Proof.
  intros Hc job HP. destruct (Hc job HP) as ([] & job' & Heq & HQ).
  exists tt, job'. unfold try_pass. by rewrite Heq.
Qed.

(** A [try] whose body keeps [I] returns with [I], whatever is raised. *)
Lemma returns_try_keeps I c : keeps I c → returns I (try_pass c) (λ _, I).
Proof.
  intros Hkeep. apply returns_keeps; [by apply keeps_try|apply safe_try].
Qed.

(** The dictionary a computation that returns leaves behind. *)
Lemma returns_final {A} P (c : Py A) Q job :
  returns P c Q → P job → ∃ a, (c job).2 = Ok a ∧ Q a (final c job).
Proof.
  intros Hc HP. destruct (Hc job HP) as (a & job' & Heq & HQ).
  exists a. unfold final. by rewrite Heq.
Qed.

(** One step through a computation that does not raise. *)
Ltac safe_step :=
  lazymatch goal with
  | |- safe_in _ (mbind _ _) => apply safe_bind; [| |intros ?]
  | |- safe_in _ (mret _) => apply safe_ret
  | |- safe_in _ (call (Ok _)) => apply safe_call
  | |- safe_in _ (get _ _) => apply safe_get
  | |- safe_in _ (get_opt _) => apply safe_get_opt
  | |- safe_in _ (has_key _) => apply safe_has_key
  | |- safe_in _ (when _ _) => apply safe_when
  | |- safe_in _ (try_pass _) => apply safe_try
  | |- safe_in _ (setitem _ _) => apply safe_setitem
  | |- safe_in _ (match ?x with _ => _ end) => destruct x
  | |- keeps _ _ => keeps_step
  end.

Ltac safe_all := cbv zeta; repeat safe_step.

Lemma dom_is_Some (job : gmap string value) (fields : list string) k :
  dom job = list_to_set fields → k ∈ fields → is_Some (job !! k).
Proof.
  intros Hd Hk. apply elem_of_dom. rewrite Hd. by apply elem_of_list_to_set.
Qed.

Lemma returns_bind_call {A B} P (a : A) (k : A → Py B) Q :
  returns P (k a) Q → returns P (call (Ok a) ≫= k) Q.
Proof. intros Hk job HP. unfold mbind, Py_bind, py_bind, call. by apply Hk. Qed.

Lemma returns_bind_getitem {B} P key v (k : value → Py B) Q :
  (∀ job, P job → job !! key = Some v) → returns P (k v) Q →
  returns P (getitem key ≫= k) Q.
Proof.
  intros Hkey Hk job HP. unfold mbind, Py_bind, py_bind, getitem.
  rewrite (Hkey job HP). by apply Hk.
Qed.

Lemma returns_bind_getitem_any {B} P key (k : value → Py B) Q :
  (∀ job, P job → is_Some (job !! key)) → (∀ v, returns P (k v) Q) →
  returns P (getitem key ≫= k) Q.
Proof.
  intros Hkey Hk job HP. unfold mbind, Py_bind, py_bind, getitem.
  destruct (Hkey job HP) as [v ->]. by apply Hk.
Qed.

Lemma returns_bind_getitem_val {B} P key (k : value → Py B) Q :
  (∀ job, P job → is_Some (job !! key)) →
  (∀ v, returns (λ job, P job ∧ job !! key = Some v) (k v) Q) →
  returns P (getitem key ≫= k) Q.
Proof.
  intros Hkey Hk job HP. unfold mbind, Py_bind, py_bind, getitem.
  destruct (Hkey job HP) as [v Hv]. rewrite Hv. by apply Hk.
Qed.

Lemma returns_bind_keeps {A B} I (c : Py A) (k : A → Py B) Q :
  keeps I c → safe_in I c → (∀ a, returns I (k a) Q) →
  returns I (c ≫= k) Q.
Proof.
  intros Hkeep Hsafe Hk. eapply returns_bind; [by apply returns_keeps|].
  exact Hk.
Qed.

(** ** elempleo_scraper.py: the salary of the quick view *)

Lemma keeps_quick_view_setitem salary k v :
  k ∈ QuickView.fieldnames → k ≠ "salary" →
  keeps (quick_view_salary salary) (setitem k v).
Proof.
  intros Hk Hne job [Hdom Hsal]. unfold setitem. cbn [fst]. split.
  - rewrite dom_insert_L, Hdom. apply subseteq_union_1_L.
    apply singleton_subseteq_l. by apply elem_of_schema.
  - by rewrite lookup_insert_ne.
Qed.

Lemma keeps_quick_view_found salary k found :
  k ∈ QuickView.fieldnames → k ≠ "salary" →
  keeps (quick_view_salary salary) (QuickView.set_found k found).
Proof.
  intros Hk Hne. destruct found; [by apply keeps_quick_view_setitem|].
  apply keeps_ret.
Qed.

Lemma quick_view_is_Some salary k job :
  k ∈ QuickView.fieldnames → quick_view_salary salary job →
  is_Some (job !! k).
Proof. intros Hk [Hdom _]. by eapply dom_is_Some. Qed.

Lemma text_fallback_salary modal text line :
  Playwright.node_inner_text modal = Ok text →
  List.find QuickView.salary_line_ok (Text.stripped_lines text) = Some line →
  returns (quick_view_salary "") (QuickView.text_fallback modal)
          (λ _, quick_view_salary line).
Proof.
  intros Htext Hline. unfold QuickView.text_fallback. rewrite Htext.
  apply returns_bind_call. cbv zeta. rewrite Hline.
  apply returns_bind_getitem_any;
    [intros job; apply quick_view_is_Some; in_list|intros company].
  apply returns_bind_getitem_any;
    [intros job; apply quick_view_is_Some; in_list|intros title].
  apply returns_bind_keeps;
    [apply keeps_when, keeps_quick_view_found; [in_list|discriminate]
    |apply safe_when; unfold QuickView.set_found; safe_all|intros ?].
  apply returns_bind_getitem_any;
    [intros job; apply quick_view_is_Some; in_list|intros location].
  apply returns_bind_keeps;
    [apply keeps_when, keeps_quick_view_found; [in_list|discriminate]
    |apply safe_when; unfold QuickView.set_found; safe_all|intros ?].
  apply (returns_bind_getitem _ _ (VStr "")); [by intros job [_ ?]|].
  eapply returns_bind.
  { apply (returns_setitem _ _ _ (λ _, quick_view_salary line)).
    intros job [Hdom _]. split.
    - rewrite dom_insert_L, Hdom. apply subseteq_union_1_L.
      apply singleton_subseteq_l. in_schema.
    - apply lookup_insert_eq. }
  intros ?.
  apply returns_bind_getitem_any;
    [intros job; apply quick_view_is_Some; in_list|intros posting_date].
  apply returns_keeps.
  - apply keeps_when, keeps_quick_view_found; [in_list|discriminate].
  - apply safe_when. unfold QuickView.set_found. safe_all.
Qed.

Lemma extract_from_modal_salary modal text line :
  QuickView.cascade modal QuickView.salary_ok QuickView.salary_selectors = None →
  QuickView.cascade modal QuickView.company_ok QuickView.company_selectors = None ∨
  QuickView.cascade modal Text.nonempty QuickView.location_selectors = None →
  Playwright.node_inner_text modal = Ok text →
  List.find QuickView.salary_line_ok (Text.stripped_lines text) = Some line →
  final (QuickView.extract_from_modal modal)
        (dict_fromkeys QuickView.fieldnames (VStr "")) !! "salary"
  = Some (VStr line).
Proof.
  intros Hsalary Hmissing Htext Hline.
  pose (I := λ k job, quick_view_salary "" job ∧ job !! k = Some (VStr "")).
  assert (∀ k, (k = "company" ∧
                QuickView.cascade modal QuickView.company_ok
                  QuickView.company_selectors = None) ∨
               (k = "location" ∧
                QuickView.cascade modal Text.nonempty
                  QuickView.location_selectors = None) →
               returns (I k) (QuickView.extract_from_modal modal)
                       (λ _, quick_view_salary line)) as Hrun.
  { intros k Hk.
    assert (∀ k' v, k' ∈ QuickView.fieldnames → k' ≠ "salary" → k' ≠ k →
                    keeps (I k) (setitem k' v)) as Hset.
    { intros k' v Hin Hne1 Hne2. apply keeps_conj.
      - by apply keeps_quick_view_setitem.
      - by apply keeps_lookup_setitem. }
    assert (∀ k' found, k' ∈ QuickView.fieldnames → k' ≠ "salary" →
                        k' ≠ k ∨ found = None →
                        returns (I k) (QuickView.set_found k' found) (λ _, I k))
      as Hfound.
    { intros k' found Hin Hne1 [Hne2| ->]; apply returns_keeps.
      - destruct found; [by apply Hset|apply keeps_ret].
      - destruct found; [apply safe_setitem|apply safe_ret].
      - apply keeps_ret.
      - apply safe_ret. }
    assert (∀ job, I k job → is_Some (job !! "company") ∧
                              is_Some (job !! "location")) as Hdom.
    { intros job [Hq _].
      split; eapply quick_view_is_Some; try exact Hq; in_list. }
    unfold QuickView.extract_from_modal. rewrite Hsalary.
    eapply returns_bind; [apply Hfound; [in_list|discriminate|]|intros ?].
    { left. destruct Hk as [[-> _]|[-> _]]; discriminate. }
    eapply returns_bind; [apply Hfound; [in_list|discriminate|]|intros ?].
    { destruct Hk as [[-> ->]|[-> _]]; [by right|left; discriminate]. }
    eapply returns_bind; [apply Hfound; [in_list|discriminate|]|intros ?].
    { destruct Hk as [[-> _]|[-> ->]]; [left; discriminate|by right]. }
    eapply returns_bind; [apply Hfound; [in_list|discriminate|]|intros ?].
    { left. destruct Hk as [[-> _]|[-> _]]; discriminate. }
    eapply returns_bind; [apply returns_keeps; [apply keeps_ret|apply safe_ret]
                         |intros ?].
    eapply returns_bind; [apply Hfound; [in_list|discriminate|]|intros ?].
    { left. destruct Hk as [[-> _]|[-> _]]; discriminate. }
    eapply returns_bind.
    { apply returns_try_keeps. cbv zeta.
      repeat lazymatch goal with
             | |- keeps _ (setitem _ _) =>
                 apply Hset; [in_list|discriminate|];
                 destruct Hk as [[-> _]|[-> _]]; discriminate
             | |- _ => keeps_step
             end. }
    intros ?.
    apply returns_bind_getitem_val; [intros job HI; apply (Hdom job HI)|].
    intros company.
    apply returns_bind_getitem_val;
      [intros job [HI _]; apply (Hdom job HI)|].
    intros location job [[[Hq Hempty] Hcompany] Hlocation].
    assert (negb (truthy company) || negb (truthy location) = true) as ->.
    { destruct Hk as [[-> _]|[-> _]].
      - rewrite Hempty in Hcompany. by injection Hcompany as <-.
      - rewrite Hempty in Hlocation. injection Hlocation as <-.
        apply orb_true_r. }
    apply (returns_try _ _ _ (text_fallback_salary modal text line Htext Hline)).
    exact Hq. }
  assert (∀ k, k ∈ QuickView.fieldnames →
               I k (dict_fromkeys QuickView.fieldnames (VStr ""))) as Hinit.
  { intros k Hin. split; [split|].
    - apply dom_dict_fromkeys.
    - apply lookup_dict_fromkeys. in_list.
    - by apply lookup_dict_fromkeys. }
  destruct Hmissing as [Hnone|Hnone].
  - destruct (returns_final _ _ _ _ (Hrun "company" (or_introl (conj eq_refl Hnone)))
                (Hinit "company" ltac:(in_list))) as (_ & _ & _ & Hsal).
    exact Hsal.
  - destruct (returns_final _ _ _ _ (Hrun "location" (or_intror (conj eq_refl Hnone)))
                (Hinit "location" ltac:(in_list))) as (_ & _ & _ & Hsal).
    exact Hsal.
Qed.

Lemma final_bind_returns_keeps {A B} P I (c : Py A) (k : A → Py B) job :
  returns P c (λ _, I) → (∀ a, keeps I (k a)) → P job →
  I (final (c ≫= k) job).
Proof.
  intros Hc Hk HP. unfold final, mbind, Py_bind, py_bind.
  destruct (Hc job HP) as (a & job' & -> & HI). by apply Hk.
Qed.

(** ** combined_scraper.py: the salary of a card *)

Lemma final_bind_call {A B} (a : A) (k : A → Py B) job :
  final (call (Ok a) ≫= k) job = final (k a) job.
Proof. reflexivity. Qed.

Lemma elempleo_card_salary card text line job :
  Playwright.node_inner_text card = Ok text →
  2 ≤ length (Text.stripped_lines text) →
  List.find Combined.is_salary_line (Text.stripped_lines text) = Some line →
  final (Combined.elempleo_card card) job !! "salary" = Some (VStr line).
Proof.
  intros Htext Hlen Hline. unfold Combined.elempleo_card. rewrite Htext.
  rewrite final_bind_call. cbv beta zeta. rewrite Hline.
  apply Nat.leb_le in Hlen. rewrite Hlen. unfold when at 1.
  apply (final_bind_returns_keeps (λ _, True)
           (λ job, job !! "salary" = Some (VStr line))); [| |done].
  - eapply returns_bind;
      [apply (returns_keeps (λ _, True)); [done|apply safe_setitem]|intros ?].
    eapply returns_bind;
      [apply (returns_keeps (λ _, True)); [done|apply safe_setitem]|intros ?].
    eapply returns_bind;
      [apply (returns_keeps (λ _, True)); [done|safe_all]|intros ?].
    eapply returns_bind;
      [apply (returns_setitem _ _ _ (λ _ job, job !! "salary" = Some (VStr line)));
       intros ? _; apply lookup_insert_eq|intros ?].
    apply returns_keeps; [keeps_all|safe_all].
  - intros ?. keeps_all.
Qed.

Lemma find_first_line ok lines line :
  first_line ok lines line → List.find ok lines = Some line.
Proof.
  intros (before & after & -> & Hbefore & Hok).
  induction Hbefore as [|l before Hl _ IH]; simpl.
  - by rewrite Hok.
  - by rewrite Hl.
Qed.

(** C5 (as amended).  In the quick view of elempleo_scraper, when every
    salary selector fails, the pass over the text is reached (the dialog
    is found without an exception, the company or the location is still
    missing after the selectors, and the text of the dialog can be read)
    and the text, split into its non-empty trimmed lines, has a line
    that bears a currency symbol or the word confidencial and that also
    holds a digit or the word confidencial, then the salary is the first
    such line.  In combined_scraper, when the text of the card has at
    least two such lines and one of them bears a currency symbol or the
    word colones, the salary is the first line that does. *)
Theorem salary_text_fallback :
  (∀ page found text line,
     let modal := QuickView.modal_of page found in
     QuickView.find_modal page QuickView.modal_selectors = Ok found →
     QuickView.cascade modal QuickView.salary_ok QuickView.salary_selectors
     = None →
     QuickView.cascade modal QuickView.company_ok QuickView.company_selectors
     = None ∨
     QuickView.cascade modal Text.nonempty QuickView.location_selectors
     = None →
     Playwright.node_inner_text modal = Ok text →
     first_line QuickView.salary_line_ok (Text.stripped_lines text) line →
     QuickView._extract_from_quick_view page !! "salary" = Some (VStr line)) ∧
  (∀ site card text line,
     Playwright.node_inner_text card = Ok text →
     2 ≤ length (Text.stripped_lines text) →
     first_line Combined.is_salary_line (Text.stripped_lines text) line →
     final (Combined.elempleo_card card) (Combined._init_job site) !! "salary"
     = Some (VStr line)).
Proof.
  split.
  - intros page found text line modal Hfound Hsalary Hmissing Htext Hline.
    unfold QuickView._extract_from_quick_view, QuickView.extract_body.
    rewrite Hfound.
    rewrite final_bind_call.
    apply (extract_from_modal_salary _ text line); try done.
    by apply find_first_line.
  - intros site card text line Htext Hlen Hline.
    apply (elempleo_card_salary card text line); try done.
    by apply find_first_line.
Qed.

Lemma salary_text_fallback_witness :
  QuickView._extract_from_quick_view
    (text_only_page ["Desarrollador"; "₡450,000 mensual"]) !! "salary"
  = Some (VStr "₡450,000 mensual").
Proof.
  apply (proj1 salary_text_fallback
           (text_only_page ["Desarrollador"; "₡450,000 mensual"]) None
           (text_of ["Desarrollador"; "₡450,000 mensual"])).
  - reflexivity.
  - reflexivity.
  - left. reflexivity.
  - reflexivity.
  - exists ["Desarrollador"], []. split; [reflexivity|].
    split; [repeat constructor|reflexivity].
Defined.

(** C5 as stated fails: no salary selector finds anything and the text
    has a line that bears a currency symbol, yet the quick view leaves
    the salary empty, because the line holds no digit; and
    combined_scraper leaves it empty for a line with the word
    confidencial, which it does not look for. *)
Lemma currency_line_without_digit_is_skipped :
  let lines := ["Desarrollador"; "Pago en $"] in
  let page := text_only_page lines in
  let modal := QuickView.modal_of page None in
  QuickView.cascade modal QuickView.salary_ok QuickView.salary_selectors = None ∧
  Text.stripped_lines (text_of lines) = lines ∧
  Text.contains "$" "Pago en $" = true ∧
  QuickView._extract_from_quick_view page !! "salary" = Some (VStr "") ∧
  final (Combined.elempleo_card
           (Playwright.text_node
              (text_of ["Contador"; "ACME"; "Salario confidencial"])))
        (Combined._init_job "elempleo.com") !! "salary" = Some (VStr "").
Proof. vm_compute. repeat split; reflexivity. Qed.

(** ** The apply method *)

Lemma bind_ok {A B} (c : Py A) (k : A → Py B) job job' b :
  (c ≫= k) job = (job', Ok b) →
  ∃ a job1, c job = (job1, Ok a) ∧ k a job1 = (job', Ok b).
Proof.
  unfold mbind, Py_bind, py_bind.
  destruct (c job) as [job1 [|a]]; [done|]. intros H. by exists a, job1.
Qed.

Lemma keeps_bind_get_opt {B} (I : gmap string value → Prop) k o
    (c : option value → Py B) :
  (∀ job, I job → job !! k = o) → keeps I (c o) → keeps I (get_opt k ≫= c).
Proof.
  intros Hk Hc job H. unfold mbind, Py_bind, py_bind, get_opt.
  rewrite (Hk job H). by apply Hc.
Qed.

Lemma apply_section_type soup :
  returns (λ _, True) (Full.apply_section soup)
          (λ _ job, job !! "apply_type" = Some (VStr (apply_type_of job))).
Proof.
  unfold Full.apply_section.
  do 5 (eapply returns_bind;
        [apply (returns_keeps (λ _, True)); [done|safe_all]|intros ?]).
  eapply returns_bind;
    [apply (returns_keeps (λ _, True)); [done|safe_all]|intros ?].
  intros job _. eexists _, _. split; [reflexivity|].
  unfold apply_type_of.
  rewrite !(lookup_insert_ne _ "map_location") by done.
  rewrite lookup_insert_eq, !(lookup_insert_ne _ "apply_type") by done.
  repeat (destruct (truthy_opt _); [reflexivity|]). reflexivity.
Qed.

(** Down a computation that returned, to its last part. *)
Ltac to_last_part H :=
  repeat lazymatch type of H with
         | mbind _ _ _ = _ => apply bind_ok in H as (? & ? & _ & H)
         end.

Lemma enrich_run_type page job job' :
  Full.enrich_run page job = (job', Ok tt) →
  job' !! "apply_type" = Some (VStr (apply_type_of job')).
Proof.
  unfold Full.enrich_run, Full.enrich_body, Full.enrich_page. cbv zeta. intros H.
  to_last_part H.
  match type of H with
  | Full.apply_section ?soup ?j = _ =>
      destruct (apply_section_type soup j I) as (a & j' & Heq & HQ)
  end.
  rewrite H in Heq. by injection Heq as <- <-.
Qed.

Lemma apply_section_email soup email :
  Bs4.search_email soup = Some email → Text.nonempty email = true →
  ∀ job, final (Full.apply_section soup) job !! "apply_email"
         = Some (VStr email).
Proof.
  intros Hemail Hne job. unfold Full.apply_section. rewrite Hemail.
  apply (final_bind_returns_keeps (λ _, True)
           (λ job, job !! "apply_email" = Some (VStr email))); [| |done].
  - apply returns_setitem. intros ? _. apply lookup_insert_eq.
  - intros _.
    repeat lazymatch goal with
           | |- keeps _ (get_opt "apply_email" ≫= _) =>
               apply (keeps_bind_get_opt _ _ (Some (VStr email))); [done|];
               cbn [truthy_opt truthy]; rewrite ?Hne, ?andb_false_r
           | |- _ => keeps_step
           end.
Qed.

Lemma apply_section_url soup link href :
  Bs4.select_one soup sel_apply_link = Some link →
  Bs4.tag_get link "href" = Some href → Text.nonempty href = true →
  ∀ job, final (Full.apply_section soup) job !! "apply_url" = Some (VStr href).
Proof.
  intros Hlink Hhref Hne job. unfold Full.apply_section.
  fold sel_apply_link. rewrite Hlink, Hhref, Hne. unfold when at 1.
  assert (returns (λ _, True)
            (match Bs4.search_email soup with
             | Some email => setitem "apply_email" email
             | None => mret tt
             end) (λ _ _, True)) as Hfirst.
  { apply (returns_keeps (λ _, True)); [done|safe_all]. }
  unfold final, mbind at 1, Py_bind, py_bind.
  destruct (Hfirst job I) as ([] & job1 & -> & _).
  apply (final_bind_returns_keeps (λ _, True)
           (λ job, job !! "apply_url" = Some (VStr href))); [| |done].
  - eapply returns_bind;
      [apply (returns_setitem _ _ _ (λ _ job, job !! "apply_url" = Some (VStr href)));
       intros ? _; apply lookup_insert_eq|intros ?].
    apply returns_keeps; [keeps_all|safe_all].
  - intros ?. keeps_all.
Qed.

Lemma extract_details_apply_type today soup job job' :
  AllScraper.extract_details today soup job = (job', Ok tt) →
  job' !! "_job_apply_type" = Some (VStr "external").
Proof.
  unfold AllScraper.extract_details. cbv zeta. intros H.
  to_last_part H. injection H as <-. apply lookup_insert_eq.
Qed.

(** ** Expiry and deadline *)

Lemma keeps_bind_call {A B} (I : gmap string value → Prop) (a : A)
    (k : A → Py B) :
  keeps I (k a) → keeps I (call (Ok a) ≫= k).
Proof. intros Hk job H. unfold mbind, Py_bind, py_bind, call. by apply Hk. Qed.

Lemma add_days_ok today n :
  (1 ≤ today + n ≤ Calendar.max_ordinal)%Z →
  Calendar.add_days today n = Ok (today + n)%Z.
Proof.
  intros [H1 H2]. unfold Calendar.add_days.
  apply Z.leb_le in H1, H2. by rewrite H1, H2.
Qed.

Lemma add_days_inv today n d :
  Calendar.add_days today n = Ok d → d = (today + n)%Z.
Proof.
  unfold Calendar.add_days.
  destruct (_ && _); [by intros [= <-]|done].
Qed.

Lemma extract_details_returns today soup :
  (∀ img, Bs4.select_one soup AllScraper.sel_image = Some img →
          is_Some (Bs4.tag_get img "src")) →
  (1 ≤ today + 30 ≤ Calendar.max_ordinal)%Z →
  returns (λ job, dom job = list_to_set AllScraper.HEADERS)
          (AllScraper.extract_details today soup)
          (λ _ job, dom job = list_to_set AllScraper.HEADERS).
Proof.
  intros Hsrc Hday. apply returns_keeps; [apply extract_details_dom|].
  unfold AllScraper.extract_details, AllScraper.tag_item.
  rewrite (add_days_ok _ _ Hday).
  destruct (Bs4.select_one soup AllScraper.sel_image) as [img|] eqn:Himg.
  - destruct (Hsrc img eq_refl) as [src ->].
    cbv zeta.
    repeat lazymatch goal with
           | |- safe_in _ (getitem _) =>
               apply safe_getitem; intros ? Hd;
               apply (dom_is_Some _ _ _ Hd); in_list
           | |- _ => safe_step
           end.
  - cbv zeta.
    repeat lazymatch goal with
           | |- safe_in _ (getitem _) =>
               apply safe_getitem; intros ? Hd;
               apply (dom_is_Some _ _ _ Hd); in_list
           | |- _ => safe_step
           end.
Qed.

Lemma extract_details_dates today soup job job' :
  AllScraper.extract_details today soup job = (job', Ok tt) →
  job' !! "_job_expiry_date"
  = Some (VStr (Calendar.strftime_ymd (today + 30))) ∧
  job' !! "_job_application_deadline_date"
  = Some (VStr (Calendar.strftime_ymd (today + 30))).
Proof.
  unfold AllScraper.extract_details. cbv zeta. intros H.
  repeat lazymatch type of H with
         | mbind _ (call (Calendar.add_days _ _)) _ = _ => fail
         | mbind _ _ _ = _ => apply bind_ok in H as (? & ? & _ & H)
         end.
  apply bind_ok in H as (d & j & Hd & H).
  injection Hd as -> Hd. apply add_days_inv in Hd as ->.
  apply bind_ok in H as ([] & j1 & [= <-] & H).
  apply bind_ok in H as ([] & j2 & [= <-] & H).
  match type of H with
  | ?c _ = _ =>
      assert (keeps (λ job,
                job !! "_job_expiry_date"
                = Some (VStr (Calendar.strftime_ymd (today + 30))) ∧
                job !! "_job_application_deadline_date"
                = Some (VStr (Calendar.strftime_ymd (today + 30)))) c) as Hk
  end.
  { repeat lazymatch goal with
           | |- keeps _ (setitem _ _) => apply keeps_conj; keeps_step
           | |- _ => keeps_step
           end. }
  match type of H with
  | ?c ?j0 = _ => specialize (Hk j0); rewrite H in Hk
  end.
  apply Hk. split.
  - by rewrite lookup_insert_ne, lookup_insert_eq.
  - apply lookup_insert_eq.
Qed.

Lemma get_job_details_dates today page job_url soup :
  goto (page job_url) = Ok tt → content (page job_url) = Ok soup →
  (∀ img, Bs4.select_one soup AllScraper.sel_image = Some img →
          is_Some (Bs4.tag_get img "src")) →
  (1 ≤ today + 30 ≤ Calendar.max_ordinal)%Z →
  let job := AllScraper.get_job_details today page job_url in
  job !! "_job_expiry_date"
  = Some (VStr (Calendar.strftime_ymd (today + 30))) ∧
  job !! "_job_application_deadline_date"
  = Some (VStr (Calendar.strftime_ymd (today + 30))).
Proof.
  intros Hg Hc Hsrc Hday job. subst job.
  rewrite (get_job_details_loaded _ _ _ soup) by done.
  destruct (extract_details_returns today soup Hsrc Hday
              (dict_fromkeys AllScraper.HEADERS (VStr ""))
              (dom_dict_fromkeys _ _)) as ([] & job' & Heq & _).
  unfold final. rewrite Heq. by apply (extract_details_dates today soup _ _ Heq).
Qed.

Lemma dates_section_result soup job :
  let deadline :=
    val_or (VStr (Full.extract_text soup sel_date))
           (default (VStr "") (job !! "application_deadline_date")) in
  ∃ job', Full.dates_section soup job = (job', Ok tt) ∧
          job' !! "application_deadline_date" = Some deadline ∧
          job' !! "expiry_date"
          = Some (val_or deadline (default (VStr "") (job !! "expiry_date"))).
Proof.
  intros deadline. eexists. split.
  - unfold Full.dates_section, Full.text_or_get.
    unfold mbind, Py_bind, py_bind, get, mret, Py_ret, py_ret, setitem, getitem.
    rewrite lookup_insert_eq. reflexivity.
  - split.
    + by rewrite lookup_insert_ne, lookup_insert_eq.
    + rewrite lookup_insert_eq, lookup_insert_ne by done. reflexivity.
Qed.

Lemma ensure_fields_keeps (I : gmap string value → Prop) fields :
  (∀ k job, k ∈ fields → I job → job !! k = None → I (<[k:=VStr ""]> job)) →
  keeps I (Full.ensure_fields fields).
Proof.
  intros Hset. unfold Full.ensure_fields.
  induction fields as [|k fields IH]; simpl; [apply keeps_ret|].
  apply keeps_bind.
  - intros job HI. unfold mbind, Py_bind, py_bind, has_key.
    destruct (job !! k) as [v|] eqn:Hk.
    + rewrite bool_decide_true by eauto. exact HI.
    + rewrite bool_decide_false by (intros [? ?]; done). simpl.
      apply Hset; [apply list_elem_of_here|done..].
  - intros ?. apply IH. intros k' job Hin. apply Hset.
    by apply list_elem_of_further.
Qed.

Lemma ensure_fields_sets (job : gmap string value) fields k :
  k ∈ fields → no_date job k →
  final (Full.ensure_fields fields) job !! k = Some (VStr "").
Proof.
  intros Hin Hno.
  assert (∀ fs, keeps (λ job, job !! k = Some (VStr ""))
                  (Full.ensure_fields fs)) as Hkeep.
  { intros fs. apply ensure_fields_keeps. intros k0 j _ Hj Hnone.
    destruct (decide (k0 = k)) as [->|?]; [by rewrite lookup_insert_eq|].
    by rewrite lookup_insert_ne. }
  revert job Hno. induction fields as [|k' fields IH]; intros job Hno.
  { by apply elem_of_nil in Hin. }
  change (Full.ensure_fields (k' :: fields))
    with ((present ← has_key k'; when (negb present) (setitem k' (VStr "")));;
          Full.ensure_fields fields).
  unfold final, mbind at 1, Py_bind, py_bind.
  unfold mbind at 1, Py_bind, py_bind, has_key.
  destruct (decide (k' = k)) as [->|Hne].
  - destruct Hno as [Hnone|Hsome].
    + rewrite bool_decide_false by (rewrite Hnone; intros [? ?]; done). simpl.
      apply Hkeep. apply lookup_insert_eq.
    + rewrite bool_decide_true by (rewrite Hsome; eauto). simpl.
      by apply Hkeep.
  - apply elem_of_cons in Hin as [?|Hin]; [congruence|].
    destruct (bool_decide (is_Some (job !! k'))); simpl.
    + by apply IH.
    + apply IH; [done|]. unfold no_date. by rewrite lookup_insert_ne.
Qed.

Lemma keeps_bind_ret {A B} (I : gmap string value → Prop) (a : A)
    (k : A → Py B) :
  keeps I (k a) → keeps I (mret a ≫= k).
Proof. intros Hk job H. by apply Hk. Qed.

Lemma keeps_bind_raise {A B} (I : gmap string value → Prop) (k : A → Py B) :
  keeps I (py_raise ≫= k).
Proof. intros job H. exact H. Qed.

Lemma ensure_fields_safe fields : safe_in (λ _, True) (Full.ensure_fields fields).
Proof.
  unfold Full.ensure_fields. apply safe_for_each.
  - intros k. safe_all; done.
  - done.
Qed.

(** An invariant that is a conjunction, through a computation. *)
Ltac keeps_both :=
  cbv zeta;
  repeat lazymatch goal with
         | |- keeps _ (setitem _ _) => apply keeps_conj; keeps_step
         | |- _ => keeps_step
         end.

Lemma dates_section_keeps_empty soup :
  Bs4.select_one soup sel_date = None →
  keeps (λ job, job !! "application_deadline_date" = Some (VStr "") ∧
                job !! "expiry_date" = Some (VStr ""))
        (Full.dates_section soup).
Proof.
  intros Hnone job [Hd He].
  destruct (dates_section_result soup job) as (job' & -> & H1 & H2).
  simpl. rewrite H1, H2, Hd, He. unfold Full.extract_text. by rewrite Hnone.
Qed.

Lemma enrich_no_placeholder soup job :
  no_date job "application_deadline_date" → no_date job "expiry_date" →
  Bs4.select_one soup sel_date = None →
  Full.enrich_with_detail (loaded soup) job !! "application_deadline_date"
  = Some (VStr "") ∧
  Full.enrich_with_detail (loaded soup) job !! "expiry_date" = Some (VStr "").
Proof.
  intros Hd He Hnone. unfold Full.enrich_with_detail, Full.enrich_run.
  apply (final_bind_returns_keeps
           (λ job, no_date job "application_deadline_date" ∧
                   no_date job "expiry_date")
           (λ job, job !! "application_deadline_date" = Some (VStr "") ∧
                   job !! "expiry_date" = Some (VStr ""))); [| |done].
  - intros j [H1 H2].
    destruct (ensure_fields_safe Full.CSV_FIELDS j I) as [[] Hok].
    exists tt, (final (Full.ensure_fields Full.CSV_FIELDS) j). split.
    + unfold final. destruct (Full.ensure_fields Full.CSV_FIELDS j) as [j' r].
      simpl in *. by subst r.
    + split; apply ensure_fields_sets; try done; in_list.
  - intros ?. apply keeps_bind; [apply keeps_get_opt|intros url].
    apply keeps_bind; [apply keeps_get_opt|intros id]. cbv zeta.
    unfold Full.enrich_body.
    destruct (if truthy_opt url then default (VStr "") url
              else VStr (Full.DETAIL_BASE_URL +:+ Full.format_opt id))
      as [job_url| |];
      [|apply keeps_bind_raise..].
    apply keeps_bind_ret. cbn [loaded goto content].
    apply keeps_bind; [apply keeps_call|intros ?].
    apply keeps_bind_call.
    unfold Full.enrich_page, Full.apply_section, Full.text_or_get.
    cbv zeta;
    repeat lazymatch goal with
           | |- keeps _ (Full.dates_section _) =>
               by apply dates_section_keeps_empty
           | |- keeps _ (setitem _ _) => apply keeps_conj; keeps_step
           | |- _ => keeps_step
           end.
Qed.

(** ** elempleo_full_scraper.py: a detail page that loads *)

Lemma keeps_on_key (P : option value → Prop) k0 k v :
  k ≠ k0 → keeps (on_key k0 P) (setitem k v).
Proof. intros Hne job H. unfold on_key. simpl. by rewrite lookup_insert_ne. Qed.

Lemma keeps_on_key_set (P : option value → Prop) k v :
  P (Some v) → keeps (on_key k P) (setitem k v).
Proof. intros Hv job _. unfold on_key. simpl. by rewrite lookup_insert_eq. Qed.

(** One step through a computation for a property of one key. *)
Ltac keeps_key_step :=
  lazymatch goal with
  | |- keeps (on_key _ _) (setitem _ _) =>
      first [ apply keeps_on_key; discriminate | apply keeps_on_key_set ]
  | |- _ => keeps_step
  end.

Lemma ensure_fields_run fields job :
  ∃ job0, Full.ensure_fields fields job = (job0, Ok tt) ∧
    ∀ k, job0 !! k = if decide (k ∈ fields)
                     then Some (default (VStr "") (job !! k))
                     else job !! k.
Proof.
  revert job. induction fields as [|f fields IH]; intros job.
  - exists job. split; [done|]. intros k.
    rewrite decide_False; [done|]. apply not_elem_of_nil.
  - change (Full.ensure_fields (f :: fields))
      with ((present ← has_key f; when (negb present) (setitem f (VStr "")));;
            Full.ensure_fields fields).
    unfold mbind at 1, Py_bind, py_bind.
    unfold mbind at 1, Py_bind, py_bind, has_key.
    destruct (job !! f) as [v|] eqn:Hf.
    + rewrite bool_decide_true by eauto. simpl.
      destruct (IH job) as (job0 & -> & Hlook). exists job0. split; [done|].
      intros k. rewrite Hlook.
      destruct (decide (k = f)) as [->|Hne].
      * rewrite (decide_True (P := f ∈ f :: fields)) by apply list_elem_of_here.
        rewrite Hf. by destruct (decide (f ∈ fields)).
      * destruct (decide (k ∈ fields)) as [Hin|Hout].
        -- by rewrite decide_True by by apply list_elem_of_further.
        -- rewrite decide_False; [done|].
           intros [?|?]%elem_of_cons; done.
    + rewrite bool_decide_false by (intros [? ?]; done). simpl.
      destruct (IH (<[f:=VStr ""]> job)) as (job0 & -> & Hlook).
      exists job0. split; [done|]. intros k. rewrite Hlook.
      destruct (decide (k = f)) as [->|Hne].
      * rewrite (decide_True (P := f ∈ f :: fields)) by apply list_elem_of_here.
        rewrite lookup_insert_eq, Hf. by destruct (decide (f ∈ fields)).
      * rewrite lookup_insert_ne by done.
        destruct (decide (k ∈ fields)) as [Hin|Hout].
        -- by rewrite decide_True by by apply list_elem_of_further.
        -- rewrite decide_False; [done|].
           intros [?|?]%elem_of_cons; done.
Qed.

(** A field that is not among the listed ones. *)
Ltac not_in_list :=
  let H := fresh in
  intros H;
  repeat (apply elem_of_cons in H as [H|H]; [discriminate H|]);
  by apply elem_of_nil in H.

(** The record with which the page is read: every field of the schema
    is there, empty when the record lacked it, and the other keys are
    as they were. *)
Lemma enrich_run_loaded page job url soup :
  detail_url job = Some url →
  goto (page url) = Ok tt → content (page url) = Ok soup →
  ∃ job0,
    Full.enrich_run page job = Full.enrich_page soup job0 ∧
    (∀ k, k ∈ Full.CSV_FIELDS → job0 !! k = Some (filled job k)) ∧
    (∀ k, k ∉ Full.CSV_FIELDS → job0 !! k = job !! k).
Proof.
  intros Hurl Hgoto Hcontent.
  destruct (ensure_fields_run Full.CSV_FIELDS job) as (job0 & Hrun & Hlook).
  exists job0. split; [|split].
  - unfold Full.enrich_run. unfold mbind at 1, Py_bind, py_bind. rewrite Hrun.
    unfold mbind, Py_bind, py_bind, get_opt. cbv zeta.
    rewrite !Hlook.
    rewrite (decide_False (P := "url" ∈ Full.CSV_FIELDS)) by not_in_list.
    rewrite (decide_False (P := "id" ∈ Full.CSV_FIELDS)) by not_in_list.
    unfold detail_url in Hurl. unfold Full.enrich_body.
    destruct (if truthy_opt (job !! "url") then default (VStr "") (job !! "url")
              else VStr (Full.DETAIL_BASE_URL +:+ Full.format_opt (job !! "id")))
      as [u| |]; [|done..].
    injection Hurl as ->.
    unfold mbind, Py_bind, py_bind, mret, Py_ret, py_ret, call.
    by rewrite Hgoto, Hcontent.
  - intros k Hk. by rewrite Hlook, decide_True.
  - intros k Hk. by rewrite Hlook, decide_False.
Qed.

Lemma returns_true {A} (c : Py A) :
  safe_in (λ _, True) c → returns (λ _, True) c (λ _ _, True).
Proof. intros Hsafe. apply (returns_keeps (λ _, True)); [done|exact Hsafe]. Qed.

Lemma dates_section_returns soup :
  returns (λ _, True) (Full.dates_section soup) (λ _ _, True).
Proof.
  intros job _. destruct (dates_section_result soup job) as (job' & Hrun & _).
  by exists tt, job'.
Qed.

(** The page is read to its end when the salary of the record can be
    searched for numbers. *)
Lemma enrich_page_runs soup job :
  salary_reads job → ∃ job', Full.enrich_page soup job = (job', Ok tt).
Proof.
  intros Hsal.
  assert (returns salary_reads (Full.enrich_page soup) (λ _ _, True)) as Hrun.
  { unfold Full.enrich_page, Full.text_or_get.
    do 6 (eapply (returns_bind _ _ _ (λ _, salary_reads));
          [apply returns_keeps;
           [change salary_reads
              with (on_key "salary" (λ o, o ≠ Some (VBool true)));
            cbv zeta; repeat keeps_key_step
           |safe_all]
          |intros ?]).
    eapply (returns_bind _ _ _ (λ v job, v ≠ VBool true)).
    { intros j Hj. eexists _, j. split; [reflexivity|].
      unfold val_or. destruct (truthy _); [done|].
      unfold salary_reads in Hj. destruct (j !! "salary") as [v|]; simpl;
        [congruence|done]. }
    intros salary_text.
    eapply (returns_bind _ _ _ (λ _ job, salary_text ≠ VBool true));
      [apply returns_setitem; by intros|intros ?].
    eapply (returns_bind _ _ _ (λ _ _, True)).
    { intros j Hj. destruct salary_text as [s|[]|]; [|done|by eexists _, _..].
      cbn [truthy]. destruct (Text.nonempty s); [|by eexists _, _].
      cbn [when]. destruct (last (findall_numeric s)); by eexists _, _. }
    intros ?.
    eapply (returns_bind _ _ _ (λ _ _, True));
      [apply returns_true; safe_all|intros ?].
    eapply (returns_bind _ _ _ (λ _ job, is_Some (job !! "location")));
      [apply returns_setitem; intros j _; rewrite lookup_insert_eq; eauto
      |intros ?].
    apply returns_bind_getitem_any; [done|intros location].
    eapply (returns_conseq _ (λ _, True) _ _ (λ _ _, True)); [done| |done].
    eapply (returns_bind _ _ _ (λ _ _, True));
      [apply returns_true; safe_all|intros ?].
    eapply (returns_bind _ _ _ (λ _ _, True));
      [apply dates_section_returns|intros ?].
    do 6 (eapply (returns_bind _ _ _ (λ _ _, True));
          [apply returns_true; safe_all|intros ?]).
    eapply returns_conseq; [|apply apply_section_type|]; done. }
  destruct (Hrun job Hsal) as ([] & job' & Heq & _). by exists job'.
Qed.

Lemma run_keeps {A B} (I : gmap string value → Prop) (c : Py A)
    (k : A → Py B) job job' b :
  keeps I c → I job → (c ≫= k) job = (job', Ok b) →
  ∃ a job1, I job1 ∧ k a job1 = (job', Ok b).
Proof.
  intros Hk HI Hrun. apply bind_ok in Hrun as (a & job1 & Hc & Hrun).
  exists a, job1. split; [|done]. specialize (Hk job HI). by rewrite Hc in Hk.
Qed.

Lemma run_keeps_last {A} (I : gmap string value → Prop) (c : Py A) job job' a :
  keeps I c → I job → c job = (job', Ok a) → I job'.
Proof. intros Hk HI Hrun. specialize (Hk job HI). by rewrite Hrun in Hk. Qed.

(** Down a run that returned, with a property of the record that every
    part keeps, to the part [stop]. *)
Ltac run_step I H HI :=
  lazymatch type of H with
  | mbind ?k ?c ?j0 = _ =>
      let Hk := fresh "Hk" in
      assert (keeps I c) as Hk by keeps_both;
      apply (run_keeps I c k j0 _ _ Hk HI) in H;
      clear HI Hk; destruct H as (? & ? & HI & H)
  end.

Lemma enrich_page_dates soup job job' :
  Full.enrich_page soup job = (job', Ok tt) →
  let deadline :=
    val_or (VStr (Full.extract_text soup sel_date))
           (default (VStr "") (job !! "application_deadline_date")) in
  job' !! "application_deadline_date" = Some deadline ∧
  job' !! "expiry_date"
  = Some (val_or deadline (default (VStr "") (job !! "expiry_date"))).
Proof.
  intros H deadline.
  unfold Full.enrich_page, Full.text_or_get in H. cbv zeta in H.
  assert (job !! "application_deadline_date"
          = job !! "application_deadline_date" ∧
          job !! "expiry_date" = job !! "expiry_date") as HI by done.
  repeat lazymatch type of H with
         | mbind _ (Full.dates_section _) _ = _ => fail
         | _ => run_step (λ j : gmap string value,
                            j !! "application_deadline_date"
                            = job !! "application_deadline_date" ∧
                            j !! "expiry_date" = job !! "expiry_date") H HI
         end.
  apply bind_ok in H as ([] & j1 & Hd & H).
  match type of Hd with
  | Full.dates_section _ ?j0 = _ =>
      destruct (dates_section_result soup j0) as (j1' & Hd' & H1 & H2)
  end.
  rewrite Hd in Hd'. injection Hd' as <-.
  destruct HI as [Hd0 He0]. rewrite Hd0 in H1, H2. rewrite He0 in H2.
  fold deadline in H1, H2.
  assert (j1 !! "application_deadline_date" = Some deadline ∧
          j1 !! "expiry_date"
          = Some (val_or deadline (default (VStr "") (job !! "expiry_date"))))
    as HI by done.
  clear Hd H1 H2 Hd0 He0.
  repeat run_step (λ j : gmap string value,
                     j !! "application_deadline_date" = Some deadline ∧
                     j !! "expiry_date"
                     = Some (val_or deadline
                               (default (VStr "") (job !! "expiry_date"))))
                  H HI.
  assert (keeps (λ j : gmap string value,
                   j !! "application_deadline_date" = Some deadline ∧
                   j !! "expiry_date"
                   = Some (val_or deadline
                             (default (VStr "") (job !! "expiry_date"))))
            (Full.apply_section soup)) as Hlast.
  { unfold Full.apply_section. keeps_both. }
  exact (run_keeps_last _ _ _ _ _ Hlast HI H).
Qed.

Lemma apply_section_keeps_url soup (o : option value) :
  no_apply_link soup →
  keeps (λ job, job !! "apply_url" = o) (Full.apply_section soup).
Proof.
  intros Hno. unfold Full.apply_section. fold sel_apply_link.
  destruct Hno as [->|(link & -> & [->| ->])]; cbn [Text.nonempty]; keeps_all.
Qed.

Lemma apply_section_keeps_email soup (o : option value) :
  Bs4.search_email soup = None → no_apply_link soup →
  keeps (λ job, job !! "apply_email" = o) (Full.apply_section soup).
Proof.
  intros Hnone Hno. unfold Full.apply_section. fold sel_apply_link.
  rewrite Hnone.
  destruct Hno as [->|(link & -> & [->| ->])]; cbn [Text.nonempty]; keeps_all.
Qed.

Lemma enrich_page_apply soup job job' :
  Full.enrich_page soup job = (job', Ok tt) →
  job' !! "apply_type" = Some (VStr (apply_type_of job')) ∧
  (∀ email, Bs4.search_email soup = Some email → Text.nonempty email = true →
            job' !! "apply_email" = Some (VStr email)) ∧
  (∀ link href,
     Bs4.select_one soup sel_apply_link = Some link →
     Bs4.tag_get link "href" = Some href → Text.nonempty href = true →
     job' !! "apply_url" = Some (VStr href)) ∧
  (no_apply_link soup → job' !! "apply_url" = job !! "apply_url") ∧
  (Bs4.search_email soup = None → no_apply_link soup →
   job' !! "apply_email" = job !! "apply_email").
Proof.
  intros H.
  unfold Full.enrich_page, Full.dates_section, Full.text_or_get in H.
  cbv zeta in H.
  assert (job !! "apply_email" = job !! "apply_email" ∧
          job !! "apply_url" = job !! "apply_url") as HI by done.
  repeat run_step (λ j : gmap string value,
                     j !! "apply_email" = job !! "apply_email" ∧
                     j !! "apply_url" = job !! "apply_url") H HI.
  destruct HI as [Hemail Hurl].
  match type of H with
  | Full.apply_section _ ?j0 = _ =>
      assert (job' = final (Full.apply_section soup) j0) as Hfinal
        by (unfold final; by rewrite H);
      destruct (apply_section_type soup j0 I) as (a & j' & Heq & Htype)
  end.
  rewrite H in Heq. injection Heq as <- <-.
  split; [exact Htype|]. split; [|split; [|split]].
  - intros email He Hne. rewrite Hfinal. by apply apply_section_email.
  - intros link href Hl Hh Hne. rewrite Hfinal.
    by apply (apply_section_url soup link href).
  - intros Hno. rewrite <- Hurl.
    exact (run_keeps_last _ _ _ _ _ (apply_section_keeps_url soup _ Hno)
             eq_refl H).
  - intros Hnone Hno. rewrite <- Hemail.
    exact (run_keeps_last _ _ _ _ _
             (apply_section_keeps_email soup _ Hnone Hno) eq_refl H).
Qed.

(** [enrich_with_detail] on a page that loads, for a record whose
    salary can be searched: the page is read to its end, from the
    record with its missing fields filled in. *)
Lemma enrich_with_detail_loaded page job url soup :
  detail_url job = Some url →
  goto (page url) = Ok tt → content (page url) = Ok soup →
  salary_reads job →
  ∃ job0,
    Full.enrich_page soup job0 = (Full.enrich_with_detail page job, Ok tt) ∧
    Full.enrich_run page job = (Full.enrich_with_detail page job, Ok tt) ∧
    (∀ k, k ∈ Full.CSV_FIELDS → job0 !! k = Some (filled job k)).
Proof.
  intros Hurl Hgoto Hcontent Hsal.
  destruct (enrich_run_loaded page job url soup Hurl Hgoto Hcontent)
    as (job0 & Hrun & Hin & Hout).
  destruct (enrich_page_runs soup job0) as [job' Hpage].
  { unfold salary_reads. rewrite Hout by not_in_list. exact Hsal. }
  exists job0. unfold Full.enrich_with_detail, final.
  rewrite Hrun, Hpage. done.
Qed.

Lemma get_job_details_apply_type today page job_url soup :
  goto (page job_url) = Ok tt → content (page job_url) = Ok soup →
  (∀ img, Bs4.select_one soup AllScraper.sel_image = Some img →
          is_Some (Bs4.tag_get img "src")) →
  (1 ≤ today + 30 ≤ Calendar.max_ordinal)%Z →
  AllScraper.get_job_details today page job_url !! "_job_apply_type"
  = Some (VStr "external").
Proof.
  intros Hg Hc Hsrc Hday.
  rewrite (get_job_details_loaded _ _ _ soup) by done.
  destruct (extract_details_returns today soup Hsrc Hday
              (dict_fromkeys AllScraper.HEADERS (VStr ""))
              (dom_dict_fromkeys _ _)) as ([] & job' & Heq & _).
  unfold final. rewrite Heq. by apply (extract_details_apply_type today soup _ _ Heq).
Qed.

Lemma enrich_with_detail_apply page job url soup :
  detail_url job = Some url →
  goto (page url) = Ok tt → content (page url) = Ok soup →
  salary_reads job →
  let job' := Full.enrich_with_detail page job in
  Full.enrich_run page job = (job', Ok tt) ∧
  job' !! "apply_type" = Some (VStr (apply_type_of job')) ∧
  (∀ email, Bs4.search_email soup = Some email → Text.nonempty email = true →
            job' !! "apply_email" = Some (VStr email)) ∧
  (∀ link href,
     Bs4.select_one soup sel_apply_link = Some link →
     Bs4.tag_get link "href" = Some href → Text.nonempty href = true →
     job' !! "apply_url" = Some (VStr href)) ∧
  (no_apply_link soup → job' !! "apply_url" = Some (filled job "apply_url")) ∧
  (Bs4.search_email soup = None → no_apply_link soup →
   job' !! "apply_email" = Some (filled job "apply_email")).
Proof.
  intros Hurl Hgoto Hcontent Hsal job'.
  destruct (enrich_with_detail_loaded page job url soup Hurl Hgoto Hcontent Hsal)
    as (job0 & Hpage & Hrun & Hin).
  fold job' in Hpage, Hrun.
  destruct (enrich_page_apply soup job0 job' Hpage)
    as (Htype & Hemail & Hlink & Hnolink & Hnone).
  split; [exact Hrun|]. split; [exact Htype|]. split; [exact Hemail|].
  split; [exact Hlink|]. split.
  - intros Hno. rewrite (Hnolink Hno). apply Hin. in_list.
  - intros He Hno. rewrite (Hnone He Hno). apply Hin. in_list.
Qed.

(** C6 (as amended).  [enrich_with_detail] of elempleo_full_scraper, on
    a detail page that loads and for a record whose salary can be
    searched, reads the page to its end, and the record it returns
    holds: as apply email the email-shaped token of the text of the
    page when there is one; as apply url the target of the apply link
    of the page when there is one with a target; the apply url it had
    when the page shows no such link, and the apply email it had when
    the page shows neither a token nor a link; and as apply type
    "website" when it has an apply url, else "email" when it has an
    apply email, else the empty string: the url comes first.  The apply
    section alone does the same from any record.  In [get_job_details]
    of all_scraper the apply type is "external" for every page that
    loads and whose extraction runs to its end. *)
Theorem apply_type_follows_url_first :
  (∀ page job url soup,
     detail_url job = Some url →
     goto (page url) = Ok tt → content (page url) = Ok soup →
     salary_reads job →
     let job' := Full.enrich_with_detail page job in
     Full.enrich_run page job = (job', Ok tt) ∧
     job' !! "apply_type" = Some (VStr (apply_type_of job')) ∧
     (∀ email,
        Bs4.search_email soup = Some email → Text.nonempty email = true →
        job' !! "apply_email" = Some (VStr email)) ∧
     (∀ link href,
        Bs4.select_one soup sel_apply_link = Some link →
        Bs4.tag_get link "href" = Some href → Text.nonempty href = true →
        job' !! "apply_url" = Some (VStr href)) ∧
     (no_apply_link soup →
      job' !! "apply_url" = Some (filled job "apply_url")) ∧
     (Bs4.search_email soup = None → no_apply_link soup →
      job' !! "apply_email" = Some (filled job "apply_email"))) ∧
  (∀ soup job,
     ∃ job', Full.apply_section soup job = (job', Ok tt) ∧
             job' !! "apply_type" = Some (VStr (apply_type_of job'))) ∧
  (∀ soup email job,
     Bs4.search_email soup = Some email → Text.nonempty email = true →
     final (Full.apply_section soup) job !! "apply_email" = Some (VStr email)) ∧
  (∀ soup link href job,
     Bs4.select_one soup sel_apply_link = Some link →
     Bs4.tag_get link "href" = Some href → Text.nonempty href = true →
     final (Full.apply_section soup) job !! "apply_url" = Some (VStr href)) ∧
  (∀ page job job',
     Full.enrich_run page job = (job', Ok tt) →
     Full.enrich_with_detail page job = job' ∧
     job' !! "apply_type" = Some (VStr (apply_type_of job'))) ∧
  (∀ today soup job job',
     AllScraper.extract_details today soup job = (job', Ok tt) →
     job' !! "_job_apply_type" = Some (VStr "external")) ∧
  (∀ today page job_url soup,
     goto (page job_url) = Ok tt → content (page job_url) = Ok soup →
     (∀ img, Bs4.select_one soup AllScraper.sel_image = Some img →
             is_Some (Bs4.tag_get img "src")) →
     (1 ≤ today + 30 ≤ Calendar.max_ordinal)%Z →
     AllScraper.get_job_details today page job_url !! "_job_apply_type"
     = Some (VStr "external")).
Proof.
  split; [exact enrich_with_detail_apply|].
  split; [|split; [|split; [|split; [|split]]]].
  - intros soup job.
    destruct (apply_section_type soup job I) as ([] & job' & Heq & HQ).
    by exists job'.
  - intros soup email job Hemail Hne. by apply apply_section_email.
  - intros soup link href job Hlink Hhref Hne.
    by apply (apply_section_url soup link href).
  - intros page job job' Hrun. split.
    + unfold Full.enrich_with_detail, final. by rewrite Hrun.
    + by apply (enrich_run_type page job).
  - exact extract_details_apply_type.
  - exact get_job_details_apply_type.
Qed.

Lemma apply_type_follows_url_first_witness :
  let job' := Full.enrich_with_detail (loaded email_and_link_soup) ∅ in
  job' !! "apply_email" = Some (VStr "empleos@empresa.cr") ∧
  job' !! "apply_url" = Some (VStr "https://www.elempleo.com/cr/apply/1001") ∧
  job' !! "apply_type" = Some (VStr (apply_type_of job')).
Proof.
  destruct (proj1 apply_type_follows_url_first
              (loaded email_and_link_soup) ∅
              "https://www.elempleo.com/cr/ofertas-trabajo/None"
              email_and_link_soup)
    as (_ & Htype & Hemail & Hlink & _).
  - reflexivity.
  - reflexivity.
  - reflexivity.
  - discriminate.
  - split; [by apply Hemail|]. split; [|exact Htype].
    eapply Hlink; [reflexivity|reflexivity|reflexivity].
Defined.

(** C6 as stated fails: the text of the page holds an email address and
    the page shows an apply link; the email field is populated, but the
    apply type is "website", not "email".  And all_scraper writes
    "external" for a page with neither an email address nor a link. *)
Lemma apply_link_outranks_email :
  let job := Full.enrich_with_detail (loaded email_and_link_soup) ∅ in
  Bs4.search_email email_and_link_soup = Some "empleos@empresa.cr" ∧
  job !! "apply_email" = Some (VStr "empleos@empresa.cr") ∧
  job !! "apply_type" = Some (VStr "website") ∧
  job !! "apply_type" ≠ Some (VStr "email") ∧
  AllScraper.get_job_details 739924%Z (loaded Bs4.empty_soup)
    "https://www.elempleo.com/cr/ofertas-trabajo/1001" !! "_job_apply_type"
  = Some (VStr "external").
Proof. vm_compute. repeat split; try reflexivity. discriminate. Qed.

Lemma enrich_with_detail_dates page job url soup :
  detail_url job = Some url →
  goto (page url) = Ok tt → content (page url) = Ok soup →
  salary_reads job →
  let job' := Full.enrich_with_detail page job in
  let deadline :=
    val_or (VStr (Full.extract_text soup sel_date))
           (filled job "application_deadline_date") in
  job' !! "application_deadline_date" = Some deadline ∧
  job' !! "expiry_date" = Some (val_or deadline (filled job "expiry_date")).
Proof.
  intros Hurl Hgoto Hcontent Hsal job' deadline.
  destruct (enrich_with_detail_loaded page job url soup Hurl Hgoto Hcontent Hsal)
    as (job0 & Hpage & _ & Hin).
  fold job' in Hpage.
  pose proof (enrich_page_dates soup job0 job' Hpage) as Hdates.
  cbv zeta in Hdates.
  rewrite !Hin in Hdates by in_list. exact Hdates.
Qed.

Lemma enrich_with_detail_scraped page job url soup el :
  detail_url job = Some url →
  goto (page url) = Ok tt → content (page url) = Ok soup →
  salary_reads job →
  Bs4.select_one soup sel_date = Some el →
  Text.nonempty (Bs4.get_text_strip el) = true →
  Full.enrich_with_detail page job !! "application_deadline_date"
  = Some (VStr (Bs4.get_text_strip el)) ∧
  Full.enrich_with_detail page job !! "expiry_date"
  = Some (VStr (Bs4.get_text_strip el)).
Proof.
  intros Hurl Hgoto Hcontent Hsal Hel Hne.
  destruct (enrich_with_detail_dates page job url soup Hurl Hgoto Hcontent Hsal)
    as [Hd He].
  rewrite Hd, He. unfold Full.extract_text. rewrite Hel.
  unfold val_or. cbn [truthy]. rewrite Hne. cbn [truthy]. by rewrite Hne.
Qed.

(** C7 (as amended).  [get_job_details] of all_scraper writes the day of
    the run plus 30 days into the expiry and the deadline of every page
    that loads and whose extraction runs to the end, whatever the page
    shows: it never reads a date from the page.  [enrich_with_detail]
    of elempleo_full_scraper has no placeholder: on a page that loads,
    for a record whose salary can be searched, the deadline of the
    record it returns is the text of the date element of the page when
    that is not empty, else the value the record had; the expiry is
    that deadline when it is not empty, else the value the record had.
    So a page that shows a date gives that date to both fields, and for
    a page without date element and a record without dates both fields
    stay empty. *)
Theorem expiry_placeholder_or_scraped :
  (∀ today page job_url soup,
     goto (page job_url) = Ok tt → content (page job_url) = Ok soup →
     (∀ img, Bs4.select_one soup AllScraper.sel_image = Some img →
             is_Some (Bs4.tag_get img "src")) →
     (1 ≤ today + 30 ≤ Calendar.max_ordinal)%Z →
     let job := AllScraper.get_job_details today page job_url in
     job !! "_job_expiry_date"
     = Some (VStr (Calendar.strftime_ymd (today + 30))) ∧
     job !! "_job_application_deadline_date"
     = Some (VStr (Calendar.strftime_ymd (today + 30)))) ∧
  (∀ page job url soup,
     detail_url job = Some url →
     goto (page url) = Ok tt → content (page url) = Ok soup →
     salary_reads job →
     let job' := Full.enrich_with_detail page job in
     let deadline :=
       val_or (VStr (Full.extract_text soup sel_date))
              (filled job "application_deadline_date") in
     job' !! "application_deadline_date" = Some deadline ∧
     job' !! "expiry_date"
     = Some (val_or deadline (filled job "expiry_date"))) ∧
  (∀ page job url soup el,
     detail_url job = Some url →
     goto (page url) = Ok tt → content (page url) = Ok soup →
     salary_reads job →
     Bs4.select_one soup sel_date = Some el →
     Text.nonempty (Bs4.get_text_strip el) = true →
     Full.enrich_with_detail page job !! "application_deadline_date"
     = Some (VStr (Bs4.get_text_strip el)) ∧
     Full.enrich_with_detail page job !! "expiry_date"
     = Some (VStr (Bs4.get_text_strip el))) ∧
  (∀ soup job,
     let deadline :=
       val_or (VStr (Full.extract_text soup sel_date))
              (default (VStr "") (job !! "application_deadline_date")) in
     ∃ job', Full.dates_section soup job = (job', Ok tt) ∧
             job' !! "application_deadline_date" = Some deadline ∧
             job' !! "expiry_date"
             = Some (val_or deadline
                       (default (VStr "") (job !! "expiry_date")))) ∧
  (∀ soup job,
     no_date job "application_deadline_date" → no_date job "expiry_date" →
     Bs4.select_one soup sel_date = None →
     Full.enrich_with_detail (loaded soup) job !! "application_deadline_date"
     = Some (VStr "") ∧
     Full.enrich_with_detail (loaded soup) job !! "expiry_date"
     = Some (VStr "")).
Proof.
  split; [exact get_job_details_dates|].
  split; [exact enrich_with_detail_dates|].
  split; [exact enrich_with_detail_scraped|].
  split; [exact dates_section_result|exact enrich_no_placeholder].
Qed.

Lemma expiry_placeholder_or_scraped_witness :
  AllScraper.get_job_details 739924%Z (loaded dated_soup)
    "https://www.elempleo.com/cr/ofertas-trabajo/1001" !! "_job_expiry_date"
  = Some (VStr "2026-12-04") ∧
  Full.enrich_with_detail (loaded dated_soup) ∅ !! "expiry_date"
  = Some (VStr "2027-01-15").
Proof.
  split.
  - refine (proj1 (proj1 expiry_placeholder_or_scraped 739924%Z
                     (loaded dated_soup)
                     "https://www.elempleo.com/cr/ofertas-trabajo/1001"
                     dated_soup _ _ _ _)).
    + reflexivity.
    + reflexivity.
    + intros img. vm_compute. discriminate.
    + vm_compute. split; discriminate.
  - refine (proj2 (proj1 (proj2 (proj2 expiry_placeholder_or_scraped))
                     (loaded dated_soup) ∅
                     "https://www.elempleo.com/cr/ofertas-trabajo/None"
                     dated_soup (Bs4.text_tag "2027-01-15") _ _ _ _ _ _)).
    + reflexivity.
    + reflexivity.
    + reflexivity.
    + discriminate.
    + reflexivity.
    + reflexivity.
Defined.

(** C7 as stated fails on both sides: a page without date leaves the
    expiry and the deadline of elempleo_full_scraper empty, not at the
    day of the run plus 30 days; and all_scraper writes that placeholder
    on a page that shows an explicit date. *)
Lemma no_placeholder_and_no_scraping :
  let today := 739924%Z in
  let placeholder := Calendar.strftime_ymd (today + 30) in
  let enriched := Full.enrich_with_detail (loaded Bs4.empty_soup) ∅ in
  let detailed := AllScraper.get_job_details today (loaded dated_soup)
                    "https://www.elempleo.com/cr/ofertas-trabajo/1001" in
  placeholder = "2026-12-04" ∧
  enriched !! "expiry_date" = Some (VStr "") ∧
  enriched !! "application_deadline_date" = Some (VStr "") ∧
  Full.extract_text dated_soup sel_date = "2027-01-15" ∧
  detailed !! "_job_expiry_date" = Some (VStr "2026-12-04") ∧
  detailed !! "_job_application_deadline_date" = Some (VStr "2026-12-04").
Proof. vm_compute. repeat split; reflexivity. Qed.

(** ** The csv reader reads back what the csv writer wrote *)

Lemma string_app_cons a (s t : string) : String a s +:+ t = String a (s +:+ t).
Proof. reflexivity. Qed.

Lemma string_app_nil_l (t : string) : "" +:+ t = t.
Proof. reflexivity. Qed.

Lemma string_app_nil_r (s : string) : s +:+ "" = s.
Proof.
  induction s as [|a s IH]; [done|]. by rewrite string_app_cons, IH.
Qed.

Lemma string_app_assoc (s t u : string) : (s +:+ t) +:+ u = s +:+ t +:+ u.
Proof.
  induction s as [|a s IH]; [done|]. by rewrite !string_app_cons, IH.
Qed.

Lemma rev_app_rev_app (s t u : string) :
  String.rev_app (String.rev_app s t) u = String.rev_app t (s +:+ u).
Proof.
  revert t u. induction s as [|a s IH]; intros t u; [done|].
  cbn [String.rev_app]. by rewrite IH.
Qed.

Lemma string_rev_rev_app (s : string) :
  String.rev (String.rev_app s "") = s.
Proof.
  unfold String.rev. rewrite rev_app_rev_app. simpl. apply string_app_nil_r.
Qed.

Lemma not_special c :
  Csv.special c = false →
  Ascii.eqb c Csv.comma = false ∧ Ascii.eqb c Csv.dquote = false ∧
  Ascii.eqb c Text.cr = false ∧ Ascii.eqb c Text.nl = false.
Proof.
  unfold Csv.special. intros H.
  apply orb_false_elim in H as [H Hnl].
  apply orb_false_elim in H as [H Hcr].
  apply orb_false_elim in H as [Hcomma Hquote]. done.
Qed.

Lemma read_in_field s cur acc tail :
  Text.any_char Csv.special s = false →
  Csv.read_from (Csv.Build_reader Csv.InField cur acc) (s +:+ tail)
  = Csv.read_from (Csv.Build_reader Csv.InField (String.rev_app s cur) acc) tail.
Proof.
  revert cur. induction s as [|c s IH]; intros cur Hs; simpl; [done|].
  simpl in Hs. apply orb_false_elim in Hs as [Hc Hs].
  destruct (not_special c Hc) as (Hcomma & _ & Hcr & Hnl).
  unfold Csv.step. simpl. rewrite Hnl, Hcr, Hcomma. simpl. by apply IH.
Qed.

Lemma read_in_quoted s cur acc tail :
  Csv.read_from (Csv.Build_reader Csv.InQuotedField cur acc)
    (Csv.double_quotes s +:+ tail)
  = Csv.read_from
      (Csv.Build_reader Csv.InQuotedField (String.rev_app s cur) acc) tail.
Proof.
  revert cur. induction s as [|c s IH]; intros cur; simpl; [done|].
  destruct (Ascii.eqb c Csv.dquote) eqn:Hc; simpl.
  - unfold Csv.step at 1. simpl. rewrite Hc. simpl.
    unfold Csv.step at 1. simpl. rewrite Hc. simpl. apply IH.
  - unfold Csv.step at 1. simpl. rewrite Hc. simpl. apply IH.
Qed.

Lemma after_cell_comma r c acc :
  cell_read r c acc →
  Csv.step r Csv.comma = (Csv.Build_reader Csv.StartField "" (c :: acc), []).
Proof.
  destruct r as [m cell cells].
  intros [Hcells [(Hm & Hcell & ->)|[[Hm Hrev]|[Hm Hrev]]]];
    simpl in *; subst; reflexivity.
Qed.

Lemma after_cell_crlf r c acc rest :
  cell_read r c acc →
  Csv.read_from r (Csv.crlf +:+ rest)
  = rev (c :: acc) :: Csv.read_from Csv.fresh rest.
Proof.
  destruct r as [m cell cells].
  intros [Hcells [(Hm & Hcell & ->)|[[Hm Hrev]|[Hm Hrev]]]];
    simpl in *; subst; reflexivity.
Qed.

Lemma eqb_dquote_true c : Ascii.eqb c Csv.dquote = true → c = Csv.dquote.
Proof. apply Ascii.eqb_eq. Qed.

Lemma read_from_cons r c s :
  Csv.read_from r (String c s)
  = (Csv.step r c).2 ++ Csv.read_from (Csv.step r c).1 s.
Proof. cbn [Csv.read_from]. by destruct (Csv.step r c). Qed.

Lemma step_open_quote acc :
  Csv.step (Csv.Build_reader Csv.StartField "" acc) Csv.dquote
  = (Csv.Build_reader Csv.InQuotedField "" acc, []).
Proof. reflexivity. Qed.

Lemma step_close_quote cur acc :
  Csv.step (Csv.Build_reader Csv.InQuotedField cur acc) Csv.dquote
  = (Csv.Build_reader Csv.QuoteInQuotedField cur acc, []).
Proof. reflexivity. Qed.

Lemma step_start_plain a acc :
  Csv.special a = false →
  Csv.step (Csv.Build_reader Csv.StartField "" acc) a
  = (Csv.Build_reader Csv.InField (String a "") acc, []).
Proof.
  intros Ha. destruct (not_special a Ha) as (Hcomma & Hquote & Hcr & Hnl).
  unfold Csv.step. cbn [Csv.r_mode Csv.r_cells]. unfold Csv.start_cell.
  by rewrite Hnl, Hcr, Hquote, Hcomma.
Qed.

Lemma read_cell c acc tail :
  ∃ r, cell_read r c acc ∧
       Csv.read_from (Csv.Build_reader Csv.StartField "" acc)
         (Csv.write_cell c +:+ tail)
       = Csv.read_from r tail.
Proof.
  unfold Csv.write_cell. destruct (Text.any_char Csv.special c) eqn:Hc.
  - exists (Csv.Build_reader Csv.QuoteInQuotedField (String.rev_app c "") acc).
    split.
    + split; [done|]. right. right. split; [done|apply string_rev_rev_app].
    + rewrite string_app_cons, string_app_assoc, string_app_cons,
        string_app_nil_l.
      rewrite read_from_cons, step_open_quote. cbn [fst snd app].
      rewrite read_in_quoted.
      rewrite read_from_cons, step_close_quote. reflexivity.
  - destruct c as [|a c].
    + exists (Csv.Build_reader Csv.StartField "" acc). split; [|done].
      split; [done|]. by left.
    + exists (Csv.Build_reader Csv.InField (String.rev_app c (String a "")) acc).
      split.
      * split; [done|]. right. left. split; [done|].
        apply (string_rev_rev_app (String a c)).
      * cbn [Text.any_char] in Hc. apply orb_false_elim in Hc as [Ha Hc].
        rewrite string_app_cons, read_from_cons, (step_start_plain a acc Ha).
        cbn [fst snd app]. by apply read_in_field.
Qed.

Lemma read_cells cells acc rest :
  cells ≠ [] →
  Csv.read_from (Csv.Build_reader Csv.StartField "" acc)
    (Csv.write_cells cells +:+ Csv.crlf +:+ rest)
  = (rev acc ++ cells) :: Csv.read_from Csv.fresh rest.
Proof.
  revert acc. induction cells as [|c cells IH]; intros acc Hne; [done|].
  destruct cells as [|c2 cells].
  - cbn [Csv.write_cells].
    destruct (read_cell c acc (Csv.crlf +:+ rest)) as (r & Hr & ->).
    rewrite (after_cell_crlf r c acc rest Hr). by cbn [rev].
  - change (Csv.write_cells (c :: c2 :: cells))
      with (Csv.write_cell c +:+ String Csv.comma (Csv.write_cells (c2 :: cells))).
    rewrite string_app_assoc.
    destruct (read_cell c acc
                (String Csv.comma (Csv.write_cells (c2 :: cells))
                 +:+ Csv.crlf +:+ rest)) as (r & Hr & ->).
    rewrite string_app_cons, read_from_cons, (after_cell_comma r c acc Hr).
    cbn [fst snd app]. rewrite IH by done. cbn [rev].
    by rewrite <- app_assoc.
Qed.

Lemma step_fresh_plain a :
  Ascii.eqb a Text.nl = false → Ascii.eqb a Text.cr = false →
  Csv.step Csv.fresh a = Csv.step (Csv.Build_reader Csv.StartField "" []) a.
Proof.
  intros Hnl Hcr. unfold Csv.step.
  cbn [Csv.r_mode Csv.fresh Csv.r_cells]. unfold Csv.start_record.
  by rewrite Hnl, Hcr.
Qed.

(** A line that starts a record with a character that is no line end
    starts its first cell. *)
Lemma read_first_char a s :
  Ascii.eqb a Text.nl = false → Ascii.eqb a Text.cr = false →
  Csv.read_from Csv.fresh (String a s)
  = Csv.read_from (Csv.Build_reader Csv.StartField "" []) (String a s).
Proof.
  intros Hnl Hcr. by rewrite !read_from_cons, step_fresh_plain.
Qed.

Lemma write_cell_first_char c :
  c ≠ "" →
  ∃ a s, Csv.write_cell c = String a s ∧
         Ascii.eqb a Text.nl = false ∧ Ascii.eqb a Text.cr = false.
Proof.
  intros Hne. unfold Csv.write_cell.
  destruct (Text.any_char Csv.special c) eqn:Hc.
  - eexists _, _. split; [reflexivity|]. by split.
  - destruct c as [|a c]; [done|]. exists a, c. split; [done|].
    cbn [Text.any_char] in Hc. apply orb_false_elim in Hc as [Ha _].
    destruct (not_special a Ha) as (_ & _ & Hcr & Hnl). done.
Qed.

Lemma read_row row rest :
  Csv.read_from Csv.fresh (Csv.writerow row +:+ rest)
  = row :: Csv.read_from Csv.fresh rest.
Proof.
  destruct row as [|c cells]; [reflexivity|].
  destruct c as [|a c].
  - destruct cells as [|c2 cells]; [reflexivity|].
    change (Csv.writerow ("" :: c2 :: cells))
      with (String Csv.comma (Csv.write_cells (c2 :: cells)) +:+ Csv.crlf).
    rewrite !string_app_cons, read_from_cons.
    change (Csv.step Csv.fresh Csv.comma)
      with (Csv.Build_reader Csv.StartField "" [""], @nil (list string)).
    cbn [fst snd app]. rewrite string_app_assoc.
    by rewrite read_cells.
  - assert (Csv.writerow (String a c :: cells)
            = Csv.write_cells (String a c :: cells) +:+ Csv.crlf) as ->.
    { by destruct cells. }
    rewrite string_app_assoc.
    destruct (write_cell_first_char (String a c)) as (b & s & Hb & Hnl & Hcr);
      [done|].
    assert (∃ s', Csv.write_cells (String a c :: cells)
                  +:+ Csv.crlf +:+ rest = String b s') as [s' Hs'].
    { destruct cells as [|c2 cells].
      - cbn [Csv.write_cells]. rewrite Hb, string_app_cons. eauto.
      - change (Csv.write_cells (String a c :: c2 :: cells))
          with (Csv.write_cell (String a c)
                +:+ String Csv.comma (Csv.write_cells (c2 :: cells))).
        rewrite Hb, !string_app_cons. eauto. }
    rewrite Hs', (read_first_char b s' Hnl Hcr), <- Hs'.
    by rewrite read_cells.
Qed.

Lemma concat_empty_cons (x : string) (l : list string) :
  String.concat "" (x :: l) = x +:+ String.concat "" l.
Proof. destruct l; simpl; [by rewrite string_app_nil_r|done]. Qed.

Lemma read_rows rows rest :
  Csv.read_from Csv.fresh (Csv.writerows rows +:+ rest)
  = rows ++ Csv.read_from Csv.fresh rest.
Proof.
  unfold Csv.writerows. induction rows as [|row rows IH]; [done|].
  rewrite fmap_cons, concat_empty_cons, string_app_assoc, read_row, IH.
  done.
Qed.

Lemma read_writerows rows : Csv.read (Csv.writerows rows) = rows.
Proof.
  unfold Csv.read. rewrite <- (string_app_nil_r (Csv.writerows rows)).
  rewrite read_rows. simpl. apply app_nil_r.
Qed.

(** ** Saving the records and reading the file back *)

Lemma substring_all (s : string) : String.substring 0 (String.length s) s = s.
Proof. induction s as [|a s IH]; simpl; [done|by rewrite IH]. Qed.

Lemma encode_sig_prefix text :
  String.prefix Files.BOM (Files.encode Files.Utf8Sig text) = true.
Proof.
  unfold Files.encode, Files.BOM. rewrite !string_app_cons, string_app_nil_l.
  by destruct text.
Qed.

Lemma decode_encode e text : Files.decode e (Files.encode e text) = text.
Proof.
  destruct e; [done|]. unfold Files.decode. rewrite encode_sig_prefix.
  unfold Files.encode, Files.BOM. rewrite !string_app_cons, string_app_nil_l.
  simpl. rewrite Nat.sub_0_r. apply substring_all.
Qed.

Lemma dict_to_list_ok fieldnames job :
  dom job ⊆ list_to_set fieldnames →
  dict_to_list fieldnames job = Ok (row_of fieldnames job).
Proof. intros Hdom. unfold dict_to_list. by rewrite bool_decide_true. Qed.

Lemma dict_writerows_ok fieldnames jobs :
  Forall (λ job, dom job ⊆ list_to_set fieldnames) jobs →
  dict_writerows fieldnames jobs
  = (Csv.writerows (row_of fieldnames <$> jobs), Ok tt).
Proof.
  induction 1 as [|job jobs Hjob _ IH]; [done|].
  cbn [dict_writerows]. rewrite dict_to_list_ok, IH by done.
  unfold Csv.writerows. by rewrite !fmap_cons, concat_empty_cons.
Qed.

(** The text of the file: the header, then one row per record. *)
Lemma dict_write_ok fieldnames jobs :
  Forall (λ job, dom job ⊆ list_to_set fieldnames) jobs →
  dict_write fieldnames jobs
  = (Csv.writerow fieldnames +:+ Csv.writerows (row_of fieldnames <$> jobs),
     Ok tt).
Proof.
  intros Hjobs. unfold dict_write. by rewrite dict_writerows_ok.
Qed.

Lemma read_dict_write fieldnames rows :
  Csv.read (Csv.writerow fieldnames +:+ Csv.writerows rows)
  = fieldnames :: rows.
Proof.
  rewrite <- (read_writerows (fieldnames :: rows)).
  unfold Csv.writerows. by rewrite fmap_cons, concat_empty_cons.
Qed.

Lemma row_of_length fieldnames job :
  length (row_of fieldnames job) = length fieldnames.
Proof. unfold row_of. by rewrite length_fmap. Qed.

(** The cell of a field holds the string of the record, and is empty
    for a field the record lacks. *)
Lemma row_of_cell fieldnames job j k :
  fieldnames !! j = Some k →
  row_of fieldnames job !! j = Some (default "" (cell_of <$> job !! k)).
Proof. intros Hk. unfold row_of. by rewrite list_lookup_fmap, Hk. Qed.

Lemma cell_at_rows fieldnames jobs i j job k :
  jobs !! i = Some job → fieldnames !! j = Some k →
  cell_at (row_of fieldnames <$> jobs) i j
  = Some (default "" (cell_of <$> job !! k)).
Proof.
  intros Hi Hj. unfold cell_at. rewrite list_lookup_fmap, Hi. simpl.
  by apply row_of_cell.
Qed.


Lemma reads_back_encoded e fieldnames jobs :
  reads_back e fieldnames jobs
    (Files.encode e
       (Csv.writerow fieldnames +:+ Csv.writerows (row_of fieldnames <$> jobs))).
Proof.
  exists (row_of fieldnames <$> jobs).
  rewrite decode_encode, read_dict_write, length_fmap.
  split; [done|]. split; [done|]. split.
  - apply Forall_fmap, Forall_forall. intros job _. apply row_of_length.
  - intros i j job k. apply cell_at_rows.
Qed.







(** ** Nothing to save *)

(** C10.  [save_to_csv] called with no record returns at once, with
    [None] where it would return the file name, and leaves the files as
    they were: elempleo_scraper, elempleo_full_scraper,
    elempleo_scraper_simple and combined_scraper create, write and
    change no file, whatever the file name and the files present.  With
    one record or more each of them does write the file of that name. *)
Theorem empty_list_writes_no_file stamp filename name files :
  (QuickView.save_to_csv [] name files = (files, None) ∧
   Full.save_to_csv stamp [] filename files = (files, Ok None) ∧
   Simple.save_to_csv [] name files = files ∧
   Combined.save_to_csv [] name files = (files, None)) ∧
  (∀ job jobs,
     is_Some ((QuickView.save_to_csv (job :: jobs) name files).1 !! name) ∧
     is_Some ((Full.save_to_csv stamp (job :: jobs) (Some name) files).1
              !! Text.or_else name stamp) ∧
     is_Some (Simple.save_to_csv (job :: jobs) name files !! name) ∧
     is_Some ((Combined.save_to_csv (job :: jobs) name files).1 !! name)).
Proof.
  split; [done|]. intros job jobs.
  unfold QuickView.save_to_csv, Full.save_to_csv, Simple.save_to_csv,
    Combined.save_to_csv.
  repeat match goal with
         | |- context [dict_write ?f ?js] => destruct (dict_write f js)
         end.
  cbn [fst default]. by rewrite !lookup_insert_eq.
Qed.

(** ** What the scrapers accumulate can be saved *)

Lemma dict_write_reads_back e fieldnames jobs :
  Forall (λ job, dom job ⊆ list_to_set fieldnames) jobs →
  ∃ text, dict_write fieldnames jobs = (text, Ok tt) ∧
          reads_back e fieldnames jobs (Files.encode e text).
Proof.
  intros Hjobs. eexists. split; [by apply dict_write_ok|].
  apply reads_back_encoded.
Qed.

Lemma Forall_dom_subseteq (fields : list string) (jobs : list (gmap string value)) :
  Forall (λ job, dom job = list_to_set fields) jobs →
  Forall (λ job, dom job ⊆ list_to_set fields) jobs.
Proof. intros H. eapply Forall_impl; [exact H|]. by intros job ->. Qed.

Lemma extract_from_quick_view_dom page :
  dom (QuickView._extract_from_quick_view page)
  = list_to_set QuickView.fieldnames.
Proof.
  assert (keeps (λ job, dom job = list_to_set QuickView.fieldnames)
            (QuickView.extract_body page)) as Hk.
  { unfold QuickView.extract_body, QuickView.extract_from_modal,
      QuickView.text_fallback, QuickView.set_found.
    keeps_all. }
  apply Hk, dom_dict_fromkeys.
Qed.

Lemma quick_view_clicks_all {S} (P : gmap string value → Prop)
    (site : QuickView.Site S) idxs st jobs :
  (∀ page, P (QuickView._extract_from_quick_view page)) →
  Forall P jobs → Forall P (QuickView.clicks site idxs st jobs).
Proof.
  intros HP. revert st jobs.
  induction idxs as [|idx idxs IH]; intros st jobs Hjobs; simpl; [done|].
  destruct (QuickView.site_buttons site st _) as [|n]; [by apply IH|].
  destruct (n <=? idx); [done|].
  destruct (QuickView.site_open site st idx) as [|st']; [by apply IH|].
  apply IH. destruct (truthy _); [|done].
  apply Forall_app; split; [done|]. by apply Forall_singleton.
Qed.

Lemma quick_view_scrape_all {S} (P : gmap string value → Prop)
    (site : QuickView.Site S) max_jobs jobs :
  (∀ page, P (QuickView._extract_from_quick_view page)) →
  Forall P jobs → Forall P (QuickView.scrape site max_jobs jobs).
Proof.
  intros HP Hjobs. unfold QuickView.scrape.
  destruct (QuickView.site_goto site); [done|].
  by apply quick_view_clicks_all.
Qed.

Lemma insert_keeps_dom (K : gset string) k (v : value) (job : gmap string value) :
  k ∈ K → dom job = K → dom (<[k:=v]> job) = K.
Proof. intros Hk <-. by apply dom_insert_member. Qed.

Lemma set_text_keeps_dom (K : gset string) k elem (job : gmap string value) :
  k ∈ K → dom job = K → dom (Simple.set_text k elem job) = K.
Proof.
  intros Hk Hdom. destruct elem; [|done]. by apply insert_keeps_dom.
Qed.

(** One step through a record that is built by writes to its keys. *)
Ltac dom_step :=
  lazymatch goal with
  | |- dom (match ?x with _ => _ end) = _ => destruct x
  | |- dom (Simple.set_text _ _ _) = _ => apply set_text_keeps_dom; [in_schema|]
  | |- dom (<[_:=_]> _) = _ => apply insert_keeps_dom; [in_schema|]
  | |- dom (dict_fromkeys _ _) = _ => apply dom_dict_fromkeys
  end.

Lemma parse_job_card_dom card :
  dom (Simple._parse_job_card card) = list_to_set Simple.fieldnames.
Proof. unfold Simple._parse_job_card. cbv zeta. repeat dom_step. Qed.

Lemma extract_jobs_from_soup_all (P : gmap string value → Prop) soup jobs :
  (∀ card, P (Simple._parse_job_card card)) →
  Forall P jobs → Forall P (Simple._extract_jobs_from_soup soup jobs).1.
Proof.
  intros HP Hjobs. unfold Simple._extract_jobs_from_soup.
  destruct (Simple.first_cards soup Simple.card_selectors) as [|card cards];
    [done|].
  cbn [fst]. rewrite foldl_card_turn. apply Forall_app. split; [done|].
  apply Forall_forall. intros job Hjob.
  apply list_elem_of_filter in Hjob as [_ Hjob].
  apply list_elem_of_fmap in Hjob as (c & -> & _). apply HP.
Qed.

(** ** combined_scraper.py: the four sites *)

Lemma prefix_empty (s : string) : String.prefix "" s = true.
Proof. by destruct s. Qed.

Lemma prefix_app (p s t : string) :
  String.prefix p s = true → String.prefix p (s +:+ t) = true.
Proof.
  revert s. induction p as [|a p IH]; intros s Hp; [apply prefix_empty|].
  destruct s as [|b s]; [done|]. rewrite string_app_cons. simpl in *.
  destruct (ascii_dec a b); [by apply IH|done].
Qed.

Lemma absolute_link base href :
  Text.startswith "http" base = true →
  absolute_or_empty
    (Some (if Text.startswith "http" href then VStr href
           else VStr (base +:+ href))).
Proof.
  intros Hbase. destruct (Text.startswith "http" href) eqn:Hh.
  - exists href. by split; [|right].
  - exists (base +:+ href). split; [done|]. right. by apply prefix_app.
Qed.

Lemma absolute_empty : absolute_or_empty (Some (VStr "")).
Proof. exists "". by split; [|left]. Qed.

Lemma init_job_url site : on_key "url" absolute_or_empty (Combined._init_job site).
Proof. exists "". by split; [|left]. Qed.

Lemma init_job_site site :
  Combined._init_job site !! "source_site" = Some (VStr site).
Proof. reflexivity. Qed.

Lemma card_url_keeps (I : gmap string value → Prop) base card :
  (∀ v, keeps I (setitem "url" v)) →
  keeps I (Combined.card_url base card).
Proof.
  intros Hset. unfold Combined.card_url. cbv zeta.
  repeat first [apply Hset | keeps_step].
Qed.

Lemma card_url_absolute base card :
  Text.startswith "http" base = true →
  keeps (on_key "url" absolute_or_empty) (Combined.card_url base card).
Proof.
  intros Hbase. unfold Combined.card_url. cbv zeta.
  repeat keeps_key_step. by apply absolute_link.
Qed.

(** The four bodies keep what makes a record of the combined scraper. *)
Lemma site_bodies_keep (I : gmap string value → Prop) :
  (∀ k v, k ≠ "source_site" → k ∈ Combined.FIELDS → k ≠ "url" →
          keeps I (setitem k v)) →
  (∀ base href, Text.startswith "http" base = true →
     keeps I (setitem "url"
                (if Text.startswith "http" href then VStr href
                 else VStr (base +:+ href)))) →
  ∀ body, body ∈ [Combined.elempleo_card; Combined.computrabajo_card;
                  Combined.indeed_card; Combined.jooble_card] →
  ∀ card, keeps I (body card;; getitem "title").
Proof.
  intros Hset Hurl body Hbody card.
  assert (∀ base, Text.startswith "http" base = true →
                  keeps I (Combined.card_url base card)) as Hcard.
  { intros base Hbase. unfold Combined.card_url. cbv zeta.
    repeat first [by apply Hurl | keeps_step]. }
  repeat (apply elem_of_cons in Hbody as [->|Hbody]);
    [..|by apply elem_of_nil in Hbody].
  - unfold Combined.elempleo_card. cbv zeta.
    repeat first [ by apply (Hurl "https://www.elempleo.com")
                 | apply Hset; [discriminate|in_list|discriminate]
                 | keeps_step ].
  - unfold Combined.computrabajo_card. cbv zeta.
    repeat first [ by apply Hcard
                 | apply Hset; [discriminate|in_list|discriminate]
                 | keeps_step ].
  - unfold Combined.indeed_card. cbv zeta.
    repeat first [ by apply Hcard
                 | apply Hset; [discriminate|in_list|discriminate]
                 | keeps_step ].
  - unfold Combined.jooble_card. cbv zeta.
    repeat first [ by apply Hcard
                 | apply Hset; [discriminate|in_list|discriminate]
                 | keeps_step ].
Qed.

Lemma kept_has_title body site card job :
  kept body site card = Some job → has_title job = true.
Proof.
  unfold kept, has_title.
  unfold mbind, Py_bind, py_bind, getitem.
  destruct (body card (Combined._init_job site)) as [job' [|[]]]; [done|].
  destruct (job' !! "title") as [title|] eqn:Ht; [|done].
  destruct (truthy title) eqn:Htrue; [|done].
  intros [= <-]. by rewrite Ht.
Qed.

Lemma kept_final body site card job :
  kept body site card = Some job →
  job = ((body card;; getitem "title") (Combined._init_job site)).1.
Proof.
  unfold kept.
  destruct ((body card;; getitem "title") (Combined._init_job site))
    as [job' [|title]]; [done|].
  destruct (truthy title); [|done]. by intros [= <-].
Qed.

Lemma kept_combined_record body site card job :
  body ∈ [Combined.elempleo_card; Combined.computrabajo_card;
          Combined.indeed_card; Combined.jooble_card] →
  site ∈ site_names →
  kept body site card = Some job → combined_record job.
Proof.
  intros Hbody Hsite Hkept. split; [|split; [|split]].
  - rewrite (kept_final _ _ _ _ Hkept).
    apply (site_bodies_keep (λ job, dom job = list_to_set Combined.FIELDS));
      [| |done|apply init_job_dom].
    + intros k v _ Hk _. apply keeps_dom_setitem. by apply elem_of_schema.
    + intros base href _. apply keeps_dom_setitem. in_schema.
  - by eapply kept_has_title.
  - exists site. split; [done|]. rewrite (kept_final _ _ _ _ Hkept).
    apply (site_bodies_keep (λ job, job !! "source_site" = Some (VStr site)));
      [| |done|apply init_job_site].
    + intros k v Hk _ _. by apply keeps_lookup_setitem.
    + intros base href _. by apply keeps_lookup_setitem.
  - rewrite (kept_final _ _ _ _ Hkept).
    apply (site_bodies_keep (on_key "url" absolute_or_empty));
      [| |done|apply init_job_url].
    + intros k v _ _ Hk. by apply keeps_on_key.
    + intros base href Hbase. apply keeps_on_key_set. by apply absolute_link.
Qed.

Lemma site_turn_kept body site jobs card :
  Combined.site_turn body site jobs card
  = jobs ++ option_list (kept body site card).
Proof.
  unfold Combined.site_turn, kept.
  destruct ((body card;; getitem "title") (Combined._init_job site))
    as [job [|title]]; [by rewrite app_nil_r|].
  destruct (truthy title); [done|by rewrite app_nil_r].
Qed.

Lemma foldl_site_turn body site cards jobs :
  foldl (Combined.site_turn body site) jobs cards
  = jobs ++ omap (kept body site) cards.
Proof.
  revert jobs. induction cards as [|card cards IH]; intros jobs; simpl.
  - by rewrite app_nil_r.
  - rewrite IH, site_turn_kept, <- app_assoc.
    by destruct (kept body site card).
Qed.

(** A site adds the records of some of its first [max_jobs] cards, and
    nothing when it cannot be reached. *)
Lemma scrape_site_adds body site sets page max_jobs jobs :
  ∃ cards, length cards ≤ max_jobs ∧
    Combined.scrape_site body site sets page max_jobs jobs
    = jobs ++ omap (kept body site) cards.
Proof.
  unfold Combined.scrape_site.
  destruct (Playwright.page_goto page);
    [exists []; split; [simpl; lia|by rewrite app_nil_r]|].
  destruct (Playwright.page_debug page);
    [exists []; split; [simpl; lia|by rewrite app_nil_r]|].
  eexists. split; [|apply foldl_site_turn].
  rewrite length_take. lia.
Qed.

Lemma omap_length_le {A B} (f : A → option B) l : length (omap f l) ≤ length l.
Proof.
  induction l as [|x l IH]; [done|].
  change (omap f (x :: l))
    with (match f x with Some y => y :: omap f l | None => omap f l end).
  destruct (f x); simpl; lia.
Qed.

Lemma Forall_omap_kept body site cards :
  body ∈ [Combined.elempleo_card; Combined.computrabajo_card;
          Combined.indeed_card; Combined.jooble_card] →
  site ∈ site_names →
  Forall combined_record (omap (kept body site) cards).
Proof.
  intros Hbody Hsite. apply Forall_forall. intros job Hjob.
  apply list_elem_of_omap in Hjob as (card & _ & Hkept).
  by eapply kept_combined_record.
Qed.

Lemma all_sites_records_aux sites max_per_site jobs :
  ∃ new,
    Combined.scrape_all_sites sites max_per_site jobs = jobs ++ new ∧
    length new ≤ 4 * max_per_site ∧
    Forall combined_record new.
Proof.
  unfold Combined.scrape_all_sites. cbv zeta.
  change Combined.scrape_elempleo
    with (Combined.scrape_site Combined.elempleo_card "elempleo.com"
            Combined.elempleo_selector_sets).
  unfold Combined.scrape_computrabajo, Combined.scrape_indeed,
    Combined.scrape_jooble.
  destruct (scrape_site_adds Combined.elempleo_card "elempleo.com"
              Combined.elempleo_selector_sets (Combined.elempleo_page sites)
              max_per_site jobs) as (c1 & Hl1 & ->).
  destruct (scrape_site_adds Combined.computrabajo_card "computrabajo.com"
              Combined.computrabajo_selector_sets
              (Combined.computrabajo_page sites) max_per_site
              (jobs ++ omap (kept Combined.elempleo_card "elempleo.com") c1))
    as (c2 & Hl2 & ->).
  destruct (scrape_site_adds Combined.indeed_card "indeed.com"
              Combined.indeed_selector_sets (Combined.indeed_page sites)
              max_per_site
              ((jobs ++ omap (kept Combined.elempleo_card "elempleo.com") c1)
               ++ omap (kept Combined.computrabajo_card "computrabajo.com") c2))
    as (c3 & Hl3 & ->).
  destruct (scrape_site_adds Combined.jooble_card "jooble.org"
              Combined.jooble_selector_sets (Combined.jooble_page sites)
              max_per_site
              (((jobs ++ omap (kept Combined.elempleo_card "elempleo.com") c1)
                ++ omap (kept Combined.computrabajo_card "computrabajo.com") c2)
               ++ omap (kept Combined.indeed_card "indeed.com") c3))
    as (c4 & Hl4 & ->).
  eexists. split; [by rewrite <- !app_assoc|]. split.
  - rewrite !length_app.
    pose proof (omap_length_le (kept Combined.elempleo_card "elempleo.com") c1).
    pose proof (omap_length_le
                  (kept Combined.computrabajo_card "computrabajo.com") c2).
    pose proof (omap_length_le (kept Combined.indeed_card "indeed.com") c3).
    pose proof (omap_length_le (kept Combined.jooble_card "jooble.org") c4).
    lia.
  - repeat (apply Forall_app; split); apply Forall_omap_kept; in_list.
Qed.

(** [scrape_all_sites] only appends to the records it starts with: it
    adds at most [max_per_site] records for each of the four sites, in
    the order of the sites, whether or not a site can be reached; each
    record it adds has the fields of the schema as its keys, a title
    that is not empty, the name of one of the four sites as its source
    and a link that is empty or absolute. *)
Theorem all_sites_records sites max_per_site jobs :
  ∃ new,
    Combined.scrape_all_sites sites max_per_site jobs = jobs ++ new ∧
    length new ≤ 4 * max_per_site ∧
    Forall combined_record new.
Proof. apply all_sites_records_aux. Qed.

Lemma combined_save_reads_back jobs name files :
  jobs ≠ [] →
  Forall (λ job, dom job ⊆ list_to_set Combined.FIELDS) jobs →
  ∃ bytes,
    Combined.save_to_csv jobs name files = (<[name := bytes]> files, Some name) ∧
    String.prefix Files.BOM bytes = true ∧
    reads_back Files.Utf8Sig Combined.FIELDS jobs bytes.
Proof.
  intros Hne Hjobs. destruct jobs as [|job jobs]; [done|].
  unfold Combined.save_to_csv. rewrite (dict_write_ok _ _ Hjobs).
  eexists. split; [reflexivity|]. split; [apply encode_sig_prefix|].
  apply reads_back_encoded.
Qed.

(** What [scrape_all_sites] has accumulated from nothing can always be
    saved: with no record [save_to_csv] leaves the files alone and
    returns [None]; with a record or more it never meets a key that is
    no field, writes the file, returns its name, and the file read back
    gives the header and one row per record in the order in which the
    records were accumulated. *)
Theorem combined_run_is_saved sites max_per_site name files :
  let jobs := Combined.scrape_all_sites sites max_per_site [] in
  (jobs = [] ∧ Combined.save_to_csv jobs name files = (files, None)) ∨
  (∃ bytes,
     Combined.save_to_csv jobs name files = (<[name := bytes]> files, Some name) ∧
     String.prefix Files.BOM bytes = true ∧
     reads_back Files.Utf8Sig Combined.FIELDS jobs bytes).
Proof.
  intros jobs.
  destruct (all_sites_records_aux sites max_per_site []) as (new & Hnew & _ & Hrec).
  fold jobs in Hnew. simpl in Hnew.
  destruct jobs as [|job jobs'] eqn:Hjobs; [by left|]. right.
  apply combined_save_reads_back; [done|]. rewrite Hnew.
  eapply Forall_impl; [exact Hrec|]. by intros j [-> _].
Qed.

(** A loop over the lines that writes a line under [k] when [ok] takes
    it, and does not stop there, leaves the last such line. *)
Lemma for_each_last_line k (ok : string → bool) (body : string → Py unit)
    lines job :
  (∀ line j, ∃ j', body line j = (j', Ok tt) ∧
                   j' !! k = if ok line then Some (VStr line) else j !! k) →
  ∃ job', for_each lines body job = (job', Ok tt) ∧
          job' !! k = last_line ok lines (job !! k).
Proof.
  intros Hbody. revert job.
  induction lines as [|line lines IH]; intros job; [by exists job|].
  destruct (Hbody line job) as (j1 & Hrun & Hk).
  destruct (IH j1) as (job' & Hrest & Hk').
  exists job'. split.
  - simpl. unfold mbind, Py_bind, py_bind. by rewrite Hrun.
  - rewrite Hk'. unfold last_line. rewrite filter_cons.
    destruct (ok line) eqn:Hok.
    + rewrite decide_True by done. rewrite last_cons.
      destruct (last (filter (λ l, ok l = true) lines)); [done|].
      by rewrite Hk.
    + rewrite decide_False by done. by rewrite Hk.
Qed.

(** The body of such a loop: each test writes its own key. *)
Ltac loop_body_writes :=
  intros line j; unfold mbind, Py_bind, py_bind, when, setitem;
  repeat match goal with
         | |- context [if ?b then _ else _] =>
             lazymatch b with
             | context [if _ then _ else _] => fail
             | _ => destruct b eqn:?
             end
         end;
  (eexists; split; [reflexivity|]);
  cbn [fst snd andb orb] in *;
  repeat first [ rewrite lookup_insert_eq
               | rewrite lookup_insert_ne by discriminate ];
  try done; try congruence.

Lemma computrabajo_loop k ok lines job :
  (k, ok) ∈ [("location", Text.contains_any Combined.computrabajo_cities);
             ("salary", Combined.computrabajo_salary_line);
             ("posting_date", Combined.computrabajo_date_line)] →
  ∃ job',
    for_each lines (λ line,
      when (Text.contains_any Combined.computrabajo_cities line)
        (setitem "location" line);;
      when (Combined.computrabajo_salary_line line) (setitem "salary" line);;
      when (Combined.computrabajo_date_line line) (setitem "posting_date" line))
      job = (job', Ok tt) ∧
    job' !! k = last_line ok lines (job !! k).
Proof.
  intros Hk. apply for_each_last_line.
  repeat (apply elem_of_cons in Hk as [[= -> ->]|Hk]);
    [..|by apply elem_of_nil in Hk]; loop_body_writes.
Qed.

Lemma indeed_loop k ok lines job :
  (k, ok) ∈ [("location", Combined.country_line);
             ("salary", Combined.indeed_salary_line)] →
  ∃ job',
    for_each lines (λ line,
      when (Combined.country_line line) (setitem "location" line);;
      when (Combined.indeed_salary_line line) (setitem "salary" line))
      job = (job', Ok tt) ∧
    job' !! k = last_line ok lines (job !! k).
Proof.
  intros Hk. apply for_each_last_line.
  repeat (apply elem_of_cons in Hk as [[= -> ->]|Hk]);
    [..|by apply elem_of_nil in Hk]; loop_body_writes.
Qed.

Lemma jooble_loop k ok lines job :
  (k, ok) ∈ [("location", Combined.country_line);
             ("salary", Combined.jooble_salary_line)] →
  ∃ job',
    for_each lines (λ line,
      when (Combined.country_line line) (setitem "location" line);;
      when (Combined.jooble_salary_line line) (setitem "salary" line))
      job = (job', Ok tt) ∧
    job' !! k = last_line ok lines (job !! k).
Proof.
  intros Hk. apply for_each_last_line.
  repeat (apply elem_of_cons in Hk as [[= -> ->]|Hk]);
    [..|by apply elem_of_nil in Hk]; loop_body_writes.
Qed.

Lemma card_url_keeps_field base card k (o : option value) :
  k ≠ "url" → keeps (λ job, job !! k = o) (Combined.card_url base card).
Proof.
  intros Hk. apply card_url_keeps. intros v. by apply keeps_lookup_setitem.
Qed.

Lemma computrabajo_card_field card text site k ok :
  Playwright.node_inner_text card = Ok text →
  2 ≤ length (Text.stripped_lines text) →
  (k, ok) ∈ [("location", Text.contains_any Combined.computrabajo_cities);
             ("salary", Combined.computrabajo_salary_line);
             ("posting_date", Combined.computrabajo_date_line)] →
  final (Combined.computrabajo_card card) (Combined._init_job site) !! k
  = last_line ok (Text.stripped_lines text) (Some (VStr "")).
Proof.
  intros Htext Hlen Hk. unfold Combined.computrabajo_card. rewrite Htext.
  rewrite final_bind_call. cbv beta zeta.
  apply Nat.leb_le in Hlen. rewrite Hlen. unfold when at 1.
  apply (final_bind_returns_keeps (λ j, j = Combined._init_job site)
           (λ job, job !! k = _)); [| |done].
  - intros ? ->.
    destruct (computrabajo_loop k ok (Text.stripped_lines text)
                (<["company" := VStr (nth 1 (Text.stripped_lines text) "")]>
                   (<["title" := VStr (nth 0 (Text.stripped_lines text) "")]>
                      (Combined._init_job site))) Hk) as (job' & Hrun & Hjob').
    exists tt, job'. split; [exact Hrun|]. rewrite Hjob'. f_equal.
    repeat (apply elem_of_cons in Hk as [[= -> ->]|Hk]);
      [..|by apply elem_of_nil in Hk]; reflexivity.
  - intros ?. apply card_url_keeps_field.
    repeat (apply elem_of_cons in Hk as [[= -> ->]|Hk]);
      [..|by apply elem_of_nil in Hk]; discriminate.
Qed.

Lemma indeed_card_field card text site k ok :
  Playwright.node_inner_text card = Ok text →
  2 ≤ length (Text.stripped_lines text) →
  (k, ok) ∈ [("location", Combined.country_line);
             ("salary", Combined.indeed_salary_line)] →
  final (Combined.indeed_card card) (Combined._init_job site) !! k
  = last_line ok (Text.stripped_lines text) (Some (VStr "")).
Proof.
  intros Htext Hlen Hk. unfold Combined.indeed_card. rewrite Htext.
  rewrite final_bind_call. cbv beta zeta.
  apply Nat.leb_le in Hlen. rewrite Hlen. unfold when at 1.
  apply (final_bind_returns_keeps (λ j, j = Combined._init_job site)
           (λ job, job !! k = _)); [| |done].
  - intros ? ->.
    destruct (indeed_loop k ok (Text.stripped_lines text)
                (<["company" := VStr (nth 1 (Text.stripped_lines text) "")]>
                   (<["title" := VStr (nth 0 (Text.stripped_lines text) "")]>
                      (Combined._init_job site))) Hk) as (job' & Hrun & Hjob').
    unfold mbind, Py_bind, py_bind in *. cbn [setitem]. rewrite Hrun.
    destruct (3 <? length (Text.stripped_lines text)); cbn [when];
      eexists tt, _; (split; [reflexivity|]).
    + rewrite lookup_insert_ne, Hjob'.
      * f_equal.
        repeat (apply elem_of_cons in Hk as [[= -> ->]|Hk]);
          [..|by apply elem_of_nil in Hk]; reflexivity.
      * repeat (apply elem_of_cons in Hk as [[= -> ->]|Hk]);
          [..|by apply elem_of_nil in Hk]; discriminate.
    + rewrite Hjob'. f_equal.
      repeat (apply elem_of_cons in Hk as [[= -> ->]|Hk]);
        [..|by apply elem_of_nil in Hk]; reflexivity.
  - intros ?. apply card_url_keeps_field.
    repeat (apply elem_of_cons in Hk as [[= -> ->]|Hk]);
      [..|by apply elem_of_nil in Hk]; discriminate.
Qed.

Lemma jooble_card_field card text site k ok :
  Playwright.node_inner_text card = Ok text →
  1 ≤ length (Text.stripped_lines text) →
  (k, ok) ∈ [("location", Combined.country_line);
             ("salary", Combined.jooble_salary_line)] →
  final (Combined.jooble_card card) (Combined._init_job site) !! k
  = last_line ok (Text.stripped_lines text) (Some (VStr "")).
Proof.
  intros Htext Hlen Hk. unfold Combined.jooble_card. rewrite Htext.
  rewrite final_bind_call. cbv beta zeta.
  apply Nat.leb_le in Hlen. rewrite Hlen. unfold when at 1.
  apply (final_bind_returns_keeps (λ j, j = Combined._init_job site)
           (λ job, job !! k = _)); [| |done].
  - intros ? ->.
    match goal with
    | |- context [setitem "company" ?v] =>
        destruct (jooble_loop k ok (Text.stripped_lines text)
                    (<["company" := v]>
                       (<["title" := VStr (nth 0 (Text.stripped_lines text) "")]>
                          (Combined._init_job site))) Hk)
          as (job' & Hrun & Hjob')
    end.
    exists tt, job'. split; [exact Hrun|]. rewrite Hjob'. f_equal.
    repeat (apply elem_of_cons in Hk as [[= -> ->]|Hk]);
      [..|by apply elem_of_nil in Hk]; reflexivity.
  - intros ?. apply card_url_keeps_field.
    repeat (apply elem_of_cons in Hk as [[= -> ->]|Hk]);
      [..|by apply elem_of_nil in Hk]; discriminate.
Qed.

(** On the cards of computrabajo, indeed and jooble the loop over the
    lines has no [break]: the location, the salary and the date of a
    card of two lines or more are the last line that passes the test of
    the field, and stay empty when no line passes it. *)
Theorem last_matching_line_wins card text site :
  Playwright.node_inner_text card = Ok text →
  2 ≤ length (Text.stripped_lines text) →
  let lines := Text.stripped_lines text in
  let computrabajo :=
    final (Combined.computrabajo_card card) (Combined._init_job site) in
  let indeed := final (Combined.indeed_card card) (Combined._init_job site) in
  let jooble := final (Combined.jooble_card card) (Combined._init_job site) in
  (computrabajo !! "location"
   = last_line (Text.contains_any Combined.computrabajo_cities) lines
       (Some (VStr "")) ∧
   computrabajo !! "salary"
   = last_line Combined.computrabajo_salary_line lines (Some (VStr "")) ∧
   computrabajo !! "posting_date"
   = last_line Combined.computrabajo_date_line lines (Some (VStr ""))) ∧
  (indeed !! "location"
   = last_line Combined.country_line lines (Some (VStr "")) ∧
   indeed !! "salary"
   = last_line Combined.indeed_salary_line lines (Some (VStr ""))) ∧
  (jooble !! "location"
   = last_line Combined.country_line lines (Some (VStr "")) ∧
   jooble !! "salary"
   = last_line Combined.jooble_salary_line lines (Some (VStr ""))).
Proof.
  intros Htext Hlen. cbv zeta. repeat split.
  - apply (computrabajo_card_field card text site); [done..|in_list].
  - apply (computrabajo_card_field card text site); [done..|in_list].
  - apply (computrabajo_card_field card text site); [done..|in_list].
  - apply (indeed_card_field card text site); [done..|in_list].
  - apply (indeed_card_field card text site); [done..|in_list].
  - apply (jooble_card_field card text site); [done|lia|in_list].
  - apply (jooble_card_field card text site); [done|lia|in_list].
Qed.

Lemma last_matching_line_wins_witness :
  final (Combined.computrabajo_card
           (card_of_lines ["Cajero"; "Banco"; "₡400.000"; "Salario a convenir"]))
        (Combined._init_job "computrabajo.com") !! "salary"
  = Some (VStr "Salario a convenir").
Proof.
  refine (proj1 (proj2 (proj1
    (last_matching_line_wins
       (card_of_lines ["Cajero"; "Banco"; "₡400.000"; "Salario a convenir"])
       (text_of ["Cajero"; "Banco"; "₡400.000"; "Salario a convenir"])
       "computrabajo.com" _ _)))).
  - reflexivity.
  - vm_compute. lia.
Defined.

Lemma stripped_lines_nonempty text line :
  line ∈ Text.stripped_lines text → Text.nonempty line = true.
Proof.
  unfold Text.stripped_lines. rewrite list_elem_of_In, filter_In. by intros [_ ?].
Qed.

Lemma card_url_returns base card :
  link_readable card → safe_in (λ _, True) (Combined.card_url base card).
Proof.
  intros (n & Hn & Hhref) job _. unfold Combined.card_url. cbv zeta.
  unfold mbind, Py_bind, py_bind, call. rewrite Hn.
  destruct n as [|n]; [by exists tt|].
  destruct Hhref as [href ->]; [lia|]. cbn [Nat.ltb Nat.leb when].
  destruct href as [href|]; [|by exists tt].
  destruct (Text.nonempty href); by exists tt.
Qed.

(** A card of two lines or less than one is no record on the first
    three sites. *)
Lemma short_card_dropped body site card text :
  body ∈ [Combined.elempleo_card; Combined.computrabajo_card;
          Combined.indeed_card] →
  Playwright.node_inner_text card = Ok text →
  length (Text.stripped_lines text) < 2 →
  kept body site card = None.
Proof.
  intros Hbody Htext Hlen.
  assert (keeps (λ job, job !! "title" = Some (VStr "")) (body card)) as Hk.
  { apply Nat.leb_gt in Hlen.
    repeat (apply elem_of_cons in Hbody as [->|Hbody]);
      [..|by apply elem_of_nil in Hbody].
    - unfold Combined.elempleo_card. rewrite Htext.
      apply keeps_bind_call. cbv zeta. rewrite Hlen. keeps_all.
    - unfold Combined.computrabajo_card, Combined.card_url. rewrite Htext.
      apply keeps_bind_call. cbv zeta. rewrite Hlen. keeps_all.
    - unfold Combined.indeed_card, Combined.card_url. rewrite Htext.
      apply keeps_bind_call. cbv zeta. rewrite Hlen. keeps_all. }
  specialize (Hk (Combined._init_job site) eq_refl).
  unfold kept, mbind, Py_bind, py_bind, getitem.
  destruct (body card (Combined._init_job site)) as [job [|[]]]; [done|].
  simpl in Hk. by rewrite Hk.
Qed.

Lemma safe_in_weaken {A} (I : gmap string value → Prop) (c : Py A) :
  safe_in (λ _, True) c → safe_in I c.
Proof. intros H job _. by apply H. Qed.

Lemma jooble_one_line card text line site :
  Playwright.node_inner_text card = Ok text →
  Text.stripped_lines text = [line] →
  link_readable card →
  ∃ job, kept Combined.jooble_card site card = Some job ∧
         job !! "title" = Some (VStr line) ∧
         job !! "company" = Some (VStr "").
Proof.
  intros Htext Hlines Hlink.
  assert (Text.nonempty line = true) as Hline.
  { apply (stripped_lines_nonempty text). rewrite Hlines. apply list_elem_of_here. }
  set (I := λ job : gmap string value,
         job !! "title" = Some (VStr line) ∧ job !! "company" = Some (VStr "")).
  assert (∀ k v, k ≠ "title" → k ≠ "company" → keeps I (setitem k v)) as Hset.
  { intros k v H1 H2 job [Ht Hc]. split; simpl; by rewrite lookup_insert_ne. }
  assert (returns (λ _, True) (Combined.jooble_card card;; getitem "title")
            (λ v job, v = VStr line ∧ I job)) as Hrun.
  { unfold Combined.jooble_card. rewrite Htext.
    apply (returns_bind _ _ _ (λ _, I));
      [|intros ?; apply (returns_getitem _ _ (VStr line)); intros job HI;
        split; [apply HI|split; [reflexivity|exact HI]]].
    apply returns_bind_call. cbv zeta. rewrite Hlines.
    cbn [length Nat.leb Nat.ltb when nth].
    apply (returns_bind _ _ _ (λ _, I));
      [|intros ?; apply returns_keeps;
        [apply card_url_keeps; intros v; by apply Hset
        |by apply safe_in_weaken, card_url_returns]].
    eapply returns_bind;
      [apply (returns_setitem _ _ _ (λ _ job, job !! "title" = Some (VStr line)));
       intros job _; apply lookup_insert_eq|intros ?].
    eapply returns_bind;
      [apply (returns_setitem _ _ _ (λ _ job, I job));
       intros job Ht; split; [by rewrite lookup_insert_ne|apply lookup_insert_eq]
      |intros ?].
    apply returns_keeps.
    - apply keeps_for_each. intros l.
      apply keeps_bind; [apply keeps_when; by apply Hset|intros ?].
      apply keeps_when; by apply Hset.
    - apply safe_for_each.
      + intros l. apply safe_bind; [apply safe_when, safe_setitem| |intros ?].
        * apply keeps_when; by apply Hset.
        * apply safe_when, safe_setitem.
      + intros l.
        apply keeps_bind; [apply keeps_when; by apply Hset|intros ?].
        apply keeps_when; by apply Hset. }
  destruct (Hrun (Combined._init_job site) Logic.I)
    as (v & job & Hjob & -> & Ht & Hc).
  exists job. unfold kept. rewrite Hjob. cbn [truthy]. rewrite Hline. done.
Qed.

(** A card that shows one line is a record on jooble, with that line as
    its title and no company, when the lookup of its link does not
    raise; on elempleo, computrabajo and indeed, which want two lines,
    it is no record. *)
Theorem one_line_card_only_on_jooble card text line site :
  Playwright.node_inner_text card = Ok text →
  Text.stripped_lines text = [line] →
  link_readable card →
  (∃ job, kept Combined.jooble_card site card = Some job ∧
          job !! "title" = Some (VStr line) ∧
          job !! "company" = Some (VStr "")) ∧
  kept Combined.elempleo_card site card = None ∧
  kept Combined.computrabajo_card site card = None ∧
  kept Combined.indeed_card site card = None.
Proof.
  intros Htext Hlines Hlink. split; [by eapply jooble_one_line|].
  repeat split; apply (short_card_dropped _ _ _ text); try done;
    try (rewrite Hlines; simpl; lia); in_list.
Qed.

Lemma one_line_card_only_on_jooble_witness :
  (∃ job, kept Combined.jooble_card "jooble.org" (card_of_lines ["Analista"])
          = Some job ∧
          job !! "title" = Some (VStr "Analista") ∧
          job !! "company" = Some (VStr "")) ∧
  kept Combined.elempleo_card "jooble.org" (card_of_lines ["Analista"]) = None ∧
  kept Combined.computrabajo_card "jooble.org" (card_of_lines ["Analista"]) = None ∧
  kept Combined.indeed_card "jooble.org" (card_of_lines ["Analista"]) = None.
Proof.
  apply (one_line_card_only_on_jooble (card_of_lines ["Analista"])
           (text_of ["Analista"]) "Analista" "jooble.org").
  - reflexivity.
  - reflexivity.
  - exists 0. split; [reflexivity|]. intros H. inversion H.
Defined.
